(** * ZubeResume-AI: the resume text normalisation pipeline

    A shallow embedding of the text passes of
    [backend/text_processor.py], [backend/file_generator.py],
    [backend/advanced_file_generator.py], [backend/markdown_converter.py]
    and [backend/advanced_file_generator_v2.py], followed by the
    properties established about them.

    A Python [str] is a sequence of Unicode code points: it is modelled
    as a list of [N].  What Python takes from the interpreter's Unicode
    database for code points outside ASCII (decimal digits, case
    mappings) is not part of the repository and is a parameter of the
    development (class [Unicode]); the similarity score of the
    [fuzzywuzzy] package is a parameter as well (class [Fuzz]). *)

From Stdlib Require Import List ZArith NArith Bool String Ascii Lia.
Import ListNotations.

Set Implicit Arguments.

(* ================================================================== *)
(** ** Python strings                                                  *)
(* ================================================================== *)

Module Py.

Definition char := N.
Definition str := list char.

(** String literals.  The two characters backslash-n of a literal stand
    for the line feed, as in the Python source. *)
Fixpoint py (s : string) : str :=
  match s with
  | EmptyString => []
  | String a r =>
      match r with
      | String b r' =>
          if (Ascii.eqb a "\" && Ascii.eqb b "n")%bool
          then 10%N :: py r'
          else N_of_ascii a :: py r
      | EmptyString => [N_of_ascii a]
      end
  end.

Definition nl : char := 10%N.
Definition cr : char := 13%N.
Definition space : char := 32%N.
(** U+2022 BULLET, U+25CF BLACK CIRCLE, U+2014 EM DASH. *)
Definition bullet : char := 8226%N.
Definition black_circle : char := 9679%N.
Definition em_dash : char := 8212%N.

Open Scope N_scope.

Definition is_ascii (c : char) : bool := c <? 128.
Definition is_lower (c : char) : bool := (97 <=? c) && (c <=? 122).
Definition is_upper (c : char) : bool := (65 <=? c) && (c <=? 90).
(** [[a-zA-Z]] *)
Definition is_alpha (c : char) : bool := is_lower c || is_upper c.

(** [str.isspace] of one code point, which is also [\s] of [re] on
    [str] patterns: the characters of bidirectional type WS, B or S and
    of category Zs. *)
Definition is_space (c : char) : bool :=
  ((9 <=? c) && (c <=? 13)) || ((28 <=? c) && (c <=? 32))
  || (c =? 133) || (c =? 160) || (c =? 5760)
  || ((8192 <=? c) && (c <=? 8202))
  || (c =? 8232) || (c =? 8233) || (c =? 8239) || (c =? 8287)
  || (c =? 12288).

(** The part of the interpreter's Unicode database the code reaches:
    category Nd outside ASCII ([\d]) and the case mappings of strings
    that are not pure ASCII ([str.upper], [str.lower]). *)
Class Unicode := {
  uni_isdecimal : char -> bool;
  uni_upper : str -> str;
  uni_lower : str -> str
}.

Section WithUnicode.
Context {U : Unicode}.

(** [\d] *)
Definition is_digit (c : char) : bool :=
  if is_ascii c then (48 <=? c) && (c <=? 57) else uni_isdecimal c.

Definition ascii_upper (c : char) : char := if is_lower c then c - 32 else c.
Definition ascii_lower (c : char) : char := if is_upper c then c + 32 else c.

Definition upper (s : str) : str :=
  if forallb is_ascii s then map ascii_upper s else uni_upper s.
Definition lower (s : str) : str :=
  if forallb is_ascii s then map ascii_lower s else uni_lower s.

End WithUnicode.

Close Scope N_scope.

Fixpoint str_eqb (a b : str) : bool :=
  match a, b with
  | [], [] => true
  | x :: a', y :: b' => N.eqb x y && str_eqb a' b'
  | _, _ => false
  end.

(** [s.startswith(p)] *)
Fixpoint startswith (p s : str) : bool :=
  match p, s with
  | [], _ => true
  | x :: p', y :: s' => N.eqb x y && startswith p' s'
  | _ :: _, [] => false
  end.

(** [p in s] *)
Fixpoint contains (p s : str) : bool :=
  startswith p s || match s with [] => false | _ :: t => contains p t end.

Fixpoint dropwhile (f : char -> bool) (s : str) : str :=
  match s with
  | [] => []
  | c :: t => if f c then dropwhile f t else s
  end.

Definition lstrip (s : str) : str := dropwhile is_space s.
Definition rstrip (s : str) : str := rev (dropwhile is_space (rev s)).
(** [s.strip()] *)
Definition strip (s : str) : str := rstrip (lstrip s).

(** [s.split(sep)] for a one-character separator. *)
Fixpoint split_chr (sep : char) (s : str) : list str :=
  match s with
  | [] => [[]]
  | c :: t =>
      if N.eqb c sep then [] :: split_chr sep t
      else match split_chr sep t with
           | h :: r => (c :: h) :: r
           | [] => [[c]]
           end
  end.

(** [s.split(sep)] for a separator of one character or more: the
    occurrences are taken from the left and do not overlap.  [skip]
    counts the characters of a found occurrence still to pass. *)
Fixpoint split_aux (sep : str) (skip : nat) (s : str) : list str :=
  match skip with
  | S k => match s with
           | [] => [[]]
           | _ :: t => split_aux sep k t
           end
  | O =>
      match s with
      | [] => [[]]
      | c :: t =>
          if startswith sep s then [] :: split_aux sep (List.length sep - 1) t
          else match split_aux sep 0 t with
               | h :: r => (c :: h) :: r
               | [] => [[c]]
               end
      end
  end.

Definition split (sep s : str) : list str := split_aux sep 0 s.

(** [sep.join(l)] *)
Fixpoint join (sep : str) (l : list str) : str :=
  match l with
  | [] => []
  | x :: r => match r with
              | [] => x
              | _ :: _ => x ++ sep ++ join sep r
              end
  end.

(** [s.replace(old, new)], for a non-empty [old]: the pieces between the
    occurrences of [old], joined by [new]. *)
Definition replace (old new s : str) : str := join new (split old s).

(** [any(k in s for k in ks)] *)
Definition any_in (ks : list str) (s : str) : bool :=
  existsb (fun k => contains k s) ks.

(** Truth value of a string and of a list. *)
Definition truthy (s : str) : bool := negb (str_eqb s []).

(** *** The substitutions of [re.sub] the code uses

    [re.sub] rewrites the matches found from the left, each search
    starting where the previous match ended. *)

(** [re.sub(r'(p1)c(p2)', r'\1' + ins + r'\2', s)] for one-character
    classes [p1], [p2] and a literal character [c]. *)
Fixpoint sub3 (p1 : char -> bool) (c : char) (p2 : char -> bool)
         (ins : str) (s : str) : str :=
  match s with
  | [] => []
  | a :: t =>
      match t with
      | b :: t' =>
          match t' with
          | d :: rest =>
              if p1 a && N.eqb b c && p2 d
              then a :: ins ++ d :: sub3 p1 c p2 ins rest
              else a :: sub3 p1 c p2 ins t
          | [] => s
          end
      | [] => s
      end
  end.

(** [re.sub(r'(p1)(p2)', r'\1' + ins + r'\2', s)] *)
Fixpoint sub2 (p1 p2 : char -> bool) (ins : str) (s : str) : str :=
  match s with
  | [] => []
  | a :: t =>
      match t with
      | d :: rest =>
          if p1 a && p2 d
          then a :: ins ++ d :: sub2 p1 p2 ins rest
          else a :: sub2 p1 p2 ins t
      | [] => s
      end
  end.

(** [re.sub(r'  +', ' ', s)]: every maximal run of two spaces or more
    becomes one space, so a space is dropped exactly when the next
    character is a space too. *)
Fixpoint collapse_spaces (s : str) : str :=
  match s with
  | [] => []
  | a :: t =>
      match t with
      | b :: _ =>
          if N.eqb a space && N.eqb b space then collapse_spaces t
          else a :: collapse_spaces t
      | [] => s
      end
  end.

End Py.

Import Py.

(* ================================================================== *)
(** ** The tests of [re] the text processor uses                       *)
(* ================================================================== *)

Module Re.
Import Py.


(** [\w] outside ASCII: whether the character is alphanumeric, as
    [str.isalnum] has it. *)
Class WordChars := { uni_isalnum : char -> bool }.

Section Matching.
Context {W : WordChars}.








End Matching.




End Re.

(* ================================================================== *)
(** ** backend/text_processor.py                                       *)
(* ================================================================== *)

Module TextProcessor.
Section WithUnicode.
Context {U : Unicode}.

(** The compiled patterns of [__init__] with the replacement each gets
    in [_fix_jamming_issues]. *)

(** [comma_fix = ([a-zA-Z]),([a-zA-Z])], replaced by [\1, \2]. *)
Definition comma_fix : str -> str := sub3 is_alpha 44%N is_alpha (py ", ").
(** [period_fix = ([a-z])\.([A-Z])], replaced by [\1. \2]. *)
Definition period_fix : str -> str := sub3 is_lower 46%N is_upper (py ". ").
(** [pipe_fix = ([a-zA-Z])\|([a-zA-Z])], replaced by [\1 | \2]. *)
Definition pipe_fix : str -> str := sub3 is_alpha 124%N is_alpha (py " | ").
(** [colon_fix = ([a-zA-Z]):([a-zA-Z])], replaced by [\1: \2]. *)
Definition colon_fix : str -> str := sub3 is_alpha 58%N is_alpha (py ": ").
(** [number_fix = (\d)([A-Za-z])], replaced by [\1 \2]. *)
Definition number_fix : str -> str := sub2 is_digit is_alpha (py " ").
(** [percent_fix = (\d)%([A-Za-z])], replaced by [\1% \2]. *)
Definition percent_fix : str -> str := sub3 is_digit 37%N is_alpha (py "% ").
(** [re.sub(r'([a-z])([A-Z])', r'\1 \2', text)] *)
Definition camel_fix : str -> str := sub2 is_lower is_upper (py " ").

Definition _fix_jamming_issues (text : str) : str :=
  let text := comma_fix text in
  let text := period_fix text in
  let text := pipe_fix text in
  let text := colon_fix text in
  let text := number_fix text in
  let text := percent_fix text in
  let text := camel_fix text in
  let text := collapse_spaces text in
  text.

End WithUnicode.

(** [re.sub(r'\s*\|\s*', ' | ', s)].  A match is a pipe with the
    white space around it: [pending] holds the white space read since
    the last other character (it is dropped when a pipe follows, put
    back otherwise), [after_pipe] says that the white space being read
    follows a pipe and belongs to its match. *)
Fixpoint normalize_pipes (after_pipe : bool) (pending : str) (s : str) : str :=
  match s with
  | [] => pending
  | c :: t =>
      if N.eqb c 124%N then py " | " ++ normalize_pipes true [] t
      else if is_space c then
        (if after_pipe then normalize_pipes true [] t
         else normalize_pipes false (pending ++ [c]) t)
      else pending ++ c :: normalize_pipes false [] t
  end.

(** The [for] loop of [_final_cleanup]. *)
Fixpoint final_cleanup_loop (blank_line_count : nat) (lines : list str)
  : list str :=
  match lines with
  | [] => []
  | line :: rest =>
      if str_eqb (strip line) [] then
        let blank_line_count := S blank_line_count in
        if Nat.leb blank_line_count 1
        then [] :: final_cleanup_loop blank_line_count rest
        else final_cleanup_loop blank_line_count rest
      else
        let cleaned_line := strip line in
        let cleaned_line := normalize_pipes false [] cleaned_line in
        cleaned_line :: final_cleanup_loop 0 rest
  end.

(** [while l and l[0] == '': l.pop(0)] *)
Fixpoint pop_leading_blank (l : list str) : list str :=
  match l with
  | [] => []
  | x :: r => if str_eqb x [] then pop_leading_blank r else l
  end.

(** [while l and l[-1] == '': l.pop()] *)
Definition pop_trailing_blank (l : list str) : list str :=
  rev (pop_leading_blank (rev l)).

Definition _final_cleanup (text : str) : str :=
  let lines := split_chr nl text in
  let clean_lines := final_cleanup_loop 0 lines in
  let clean_lines := pop_leading_blank clean_lines in
  let clean_lines := pop_trailing_blank clean_lines in
  join [nl] clean_lines.

(** *** The other steps of [clean_and_structure_text] *)

Section Steps.
Context {U : Unicode} {W : Re.WordChars}.
Import Re.

(** The compiled patterns of [__init__] that are used as tests. *)

























End Steps.

End TextProcessor.

(* ================================================================== *)
(** ** backend/file_generator.py                                       *)
(* ================================================================== *)

Module FileGenerator.

(** A Python [dict] from strings to strings, in insertion order:
    assigning to a key that is present replaces its value in place. *)
Definition dict := list (str * str).

Fixpoint dict_set (d : dict) (k v : str) : dict :=
  match d with
  | [] => [(k, v)]
  | (k', v') :: r =>
      if str_eqb k' k then (k', v) :: r else (k', v') :: dict_set r k v
  end.

Fixpoint dict_get (d : dict) (k : str) : option str :=
  match d with
  | [] => None
  | (k', v') :: r => if str_eqb k' k then Some v' else dict_get r k
  end.

Definition endswith (p s : str) : bool := startswith (rev p) (rev s).

(** [l[-1] != ""] for a non-empty [l]; [false] for the empty list, where
    the code has tested [l] first. *)
Definition last_not_blank (l : list str) : bool :=
  match rev l with
  | [] => false
  | x :: _ => truthy x
  end.

(** [if l and l[-1] != "": l.append("")] *)
Definition append_blank (l : list str) : list str :=
  if last_not_blank l then l ++ [[]] else l.

Section WithUnicode.
Context {U : Unicode}.

Definition _basic_formatting_fixes (text : str) : str :=
  let text := sub3 is_alpha 44%N is_alpha (py ", ") text in
  let text := sub3 is_lower 46%N is_upper (py ". ") text in
  let text := sub3 is_alpha 124%N is_alpha (py " | ") text in
  let text := sub3 is_alpha 58%N is_alpha (py ": ") text in
  let text := sub2 is_digit is_alpha (py " ") text in
  let text := sub3 is_digit 37%N is_alpha (py "% ") text in
  text.

(** [re.sub(r'\n\s*\n', '\n\n', s)].  At a line feed, the match runs to
    the last line feed of the white space that follows, when there is
    one; [newline_span t] is the number of characters of [t] up to that
    line feed, [0] when the white space at the head of [t] has none. *)
Fixpoint newline_span (t : str) : nat :=
  match t with
  | [] => 0
  | c :: r =>
      if is_space c then
        match newline_span r with
        | S k => S (S k)
        | O => if N.eqb c nl then 1 else 0
        end
      else 0
  end.

Fixpoint normalize_newlines (skip : nat) (s : str) : str :=
  match s with
  | [] => []
  | c :: t =>
      match skip with
      | S k => normalize_newlines k t
      | O =>
          if N.eqb c nl then
            match newline_span t with
            | O => c :: normalize_newlines 0 t
            | S k => nl :: nl :: normalize_newlines (S k) t
            end
          else c :: normalize_newlines 0 t
      end
  end.

(** [re.sub(r'\s+', ' ', s)] *)
Fixpoint collapse_whitespace (s : str) : str :=
  match s with
  | [] => []
  | c :: t =>
      if is_space c then
        match t with
        | d :: _ => if is_space d then collapse_whitespace t
                    else space :: collapse_whitespace t
        | [] => [space]
        end
      else c :: collapse_whitespace t
  end.

(** The table [section_patterns], in the order of the dictionary
    literal; each pattern is [(?:A|B|...)\s*:?\s*$], given here by its
    alternatives. *)
Definition section_patterns : list (str * list str) :=
  [ (py "summary",
     map py ["PROFESSIONAL SUMMARY"; "SUMMARY"; "OBJECTIVE"; "PROFILE";
             "ABOUT"; "CAREER SUMMARY"]%string);
    (py "skills",
     map py ["SKILLS"; "TECHNICAL SKILLS"; "CORE COMPETENCIES";
             "TECHNOLOGIES"; "CORE TECHNICAL SKILLS";
             "TECHNICAL COMPETENCIES"]%string);
    (py "experience",
     map py ["EXPERIENCE"; "WORK EXPERIENCE"; "PROFESSIONAL EXPERIENCE";
             "EMPLOYMENT"; "PROJECT EXPERIENCE"; "WORK HISTORY"]%string);
    (py "education",
     map py ["EDUCATION"; "ACADEMIC BACKGROUND"; "QUALIFICATIONS";
             "ACADEMIC QUALIFICATIONS"; "EDUCATIONAL BACKGROUND"]%string);
    (py "projects",
     map py ["PROJECTS"; "KEY PROJECTS"; "NOTABLE PROJECTS";
             "PERSONAL PROJECTS"]%string);
    (py "certifications",
     map py ["CERTIFICATIONS"; "CERTIFICATES";
             "PROFESSIONAL CERTIFICATIONS"; "CREDENTIALS"]%string);
    (py "achievements",
     map py ["ACHIEVEMENTS"; "ACCOMPLISHMENTS"; "AWARDS"; "HONORS";
             "RESEARCH INTERESTS"]%string) ].

(** The tail [\s*:?\s*$] of a pattern. *)
Definition header_tail (t : str) : bool :=
  let t := dropwhile is_space t in
  let t := match t with
           | c :: r => if N.eqb c 58%N then r else t
           | [] => t
           end in
  str_eqb (dropwhile is_space t) [].

(** [re.match(pattern, s)] for a pattern of the table. *)
Definition re_match (alternatives : list str) (s : str) : bool :=
  existsb (fun a => startswith a s && header_tail (skipn (List.length a) s))
          alternatives.

(** The inner [for ... break] over the table: the first name whose
    pattern matches. *)
Fixpoint match_section (table : list (str * list str)) (line_upper : str)
  : option str :=
  match table with
  | [] => None
  | (section_name, pattern) :: r =>
      if re_match pattern line_upper then Some section_name
      else match_section r line_upper
  end.

Definition standalone_titles : list str :=
  map py ["Dr."; "MD"; "PhD"; "O.D"]%string.

Fixpoint clean_header_loop (content_lines : list str) : list str :=
  match content_lines with
  | [] => []
  | line :: rest =>
      let line := strip line in
      if truthy line then
        if existsb (str_eqb line) standalone_titles
        then clean_header_loop rest
        else line :: clean_header_loop rest
      else clean_header_loop rest
  end.

Definition _clean_header_content (content_lines : list str) : str :=
  match content_lines with
  | [] => []
  | _ :: _ => join [nl] (clean_header_loop content_lines)
  end.

Definition bullets4 : list str := [[bullet]; py "-"; py "*"; [black_circle]].
Definition bullets3 : list str := [[bullet]; py "-"; py "*"].
Definition starts_any (ps : list str) (s : str) : bool :=
  existsb (fun p => startswith p s) ps.

Definition is_category (line : str) : bool :=
  contains (py ":") line && negb (starts_any bullets4 line).

Definition role_words : list str :=
  map py ["engineer"; "developer"; "analyst"; "manager"; "lead";
          "specialist"]%string.
Definition education_words : list str :=
  map py ["university"; "college"; "institute"; "school"; "bachelor";
          "master"; "phd"]%string.

(** The [while] loop of [_clean_section_content]: [content_lines] is
    what is left from index [i] on, [cleaned_lines] the accumulator. *)
Fixpoint clean_section_loop (section_type : str) (content_lines : list str)
         (cleaned_lines : list str) : list str :=
  match content_lines with
  | [] => cleaned_lines
  | raw :: rest =>
      let line := strip raw in
      if negb (truthy line) then
        clean_section_loop section_type rest (append_blank cleaned_lines)
      else if str_eqb section_type (py "skills") then
        if is_category line then
          let cleaned_lines := append_blank cleaned_lines in
          let cleaned_lines := cleaned_lines ++ [line] in
          let cleaned_lines :=
            match rest with
            | next :: _ =>
                let next_line := strip next in
                if truthy next_line && is_category next_line
                then cleaned_lines ++ [[]] else cleaned_lines
            | [] => cleaned_lines
            end in
          clean_section_loop section_type rest cleaned_lines
        else clean_section_loop section_type rest (cleaned_lines ++ [line])
      else if str_eqb section_type (py "experience") then
        if startswith [black_circle] line || contains [em_dash] line then
          clean_section_loop section_type rest
            (append_blank cleaned_lines ++ [line])
        else if any_in role_words (lower line) then
          clean_section_loop section_type rest (cleaned_lines ++ [line; []])
        else if starts_any bullets3 line then
          clean_section_loop section_type rest (cleaned_lines ++ [line])
        else
          clean_section_loop section_type rest (cleaned_lines ++ [line])
      else if str_eqb section_type (py "summary") then
        if Nat.ltb 10 (List.length line) then
          let cleaned_lines := cleaned_lines ++ [line] in
          let cleaned_lines :=
            match rest with
            | next :: _ =>
                if Nat.ltb 10 (List.length (strip next))
                   && negb (endswith (py ".") line)
                then cleaned_lines ++ [[]] else cleaned_lines
            | [] => cleaned_lines
            end in
          clean_section_loop section_type rest cleaned_lines
        else clean_section_loop section_type rest cleaned_lines
      else if existsb (str_eqb section_type)
                (map py ["achievements"; "certifications"; "projects"]%string)
      then
        let line :=
          if truthy line && negb (starts_any bullets4 line) then
            if existsb (str_eqb section_type)
                 (map py ["achievements"; "certifications"]%string)
            then bullet :: space :: line else line
          else line in
        let cleaned_lines :=
          if startswith [black_circle] line
             || (str_eqb section_type (py "projects")
                 && Nat.ltb 30 (List.length line))
          then append_blank cleaned_lines else cleaned_lines in
        clean_section_loop section_type rest (cleaned_lines ++ [line])
      else if str_eqb section_type (py "education") then
        let cleaned_lines :=
          if any_in education_words (lower line)
          then append_blank cleaned_lines else cleaned_lines in
        clean_section_loop section_type rest (cleaned_lines ++ [line])
      else
        clean_section_loop section_type rest (cleaned_lines ++ [line])
  end.

(** The final [for] loop of [_clean_section_content]. *)
Fixpoint squeeze_blank (blank_line_count : nat) (cleaned_lines : list str)
  : list str :=
  match cleaned_lines with
  | [] => []
  | line :: rest =>
      if str_eqb line [] then
        let blank_line_count := S blank_line_count in
        if Nat.leb blank_line_count 1
        then line :: squeeze_blank blank_line_count rest
        else squeeze_blank blank_line_count rest
      else line :: squeeze_blank 0 rest
  end.

Definition _clean_section_content (content_lines : list str)
           (section_type : str) : str :=
  match content_lines with
  | [] => []
  | _ :: _ =>
      let cleaned_lines := clean_section_loop section_type content_lines [] in
      let final_lines := squeeze_blank 0 cleaned_lines in
      let final_lines := TextProcessor.pop_trailing_blank final_lines in
      join [nl] final_lines
  end.

(** The first loop of [_parse_resume_sections]: the lines, trimmed and
    with their inner white space collapsed. *)
Definition prepare_lines (resume_text : str) : list str :=
  map (fun line =>
         let line := strip line in
         if truthy line then collapse_whitespace line else [])
      (split_chr nl resume_text).

(** The state of the second loop. *)
Record parse_state := {
  sections : dict;
  current_section : str;
  current_content : list str;
  found_first_section : bool
}.

(** [# Save previous section]: the two-armed [if] that stores the open
    bucket, on a header line and after the loop. *)
Definition save_section (st : parse_state) : dict :=
  match current_content st with
  | _ :: _ =>
      if str_eqb (current_section st) (py "header")
      then dict_set (sections st) (py "header")
             (_clean_header_content (current_content st))
      else dict_set (sections st) (current_section st)
             (_clean_section_content (current_content st) (current_section st))
  | [] => sections st
  end.

(** [is_section_header] and [matched_section] of one line. *)
Definition detect_header (line : str) : option str :=
  if truthy (strip line)
  then match_section section_patterns (strip (upper line))
  else None.

Definition parse_step (st : parse_state) (line : str) : parse_state :=
  match detect_header line with
  | Some matched_section =>
      {| sections := save_section st;
         current_section := matched_section;
         current_content := [];
         found_first_section := true |}
  | None =>
      if negb (found_first_section st) then
        {| sections := sections st;
           current_section := current_section st;
           current_content := current_content st ++ [line];
           found_first_section := found_first_section st |}
      else
        {| sections := sections st;
           current_section := current_section st;
           current_content := current_content st ++ [line];
           found_first_section := found_first_section st |}
  end.

Definition parse_init : parse_state :=
  {| sections := [];
     current_section := py "header";
     current_content := [];
     found_first_section := false |}.

Definition _parse_resume_sections (resume_text : str) : dict :=
  let resume_text := replace [cr; nl] [nl] resume_text in
  let resume_text := replace [cr] [nl] resume_text in
  let resume_text := normalize_newlines 0 resume_text in
  let lines := prepare_lines resume_text in
  save_section (fold_left parse_step lines parse_init).

End WithUnicode.
End FileGenerator.

(* ================================================================== *)
(** ** The preamble removal of the two older converters                *)
(* ================================================================== *)

(** An indexing [l[i]] that raises [IndexError] out of range is
    [nth_error l i], with [None] for the exception. *)

Definition preamble_short : str :=
  py "Here is the final, document-ready content".
Definition preamble_full : str :=
  py "Here is the final, document-ready content that will generate perfect files:".

Module AdvancedFileGenerator.

(** The first statement of [clean_markdown_text]. *)
Definition remove_prefix (text : str) : option str :=
  if contains preamble_short text then
    let parts := split preamble_full text in
    if Nat.ltb 1 (List.length parts) then
      match nth_error parts 1 with
      | Some p => Some (strip p)
      | None => None
      end
    else Some text
  else Some text.

End AdvancedFileGenerator.

Module MarkdownConverter.

(** The first statement of [convert_to_plain_formatted_text]. *)
Definition remove_prefix (markdown_text : str) : option str :=
  if contains preamble_short markdown_text then
    let parts := split preamble_full markdown_text in
    if Nat.ltb 1 (List.length parts) then
      match nth_error parts 1 with
      | Some p => Some (strip p)
      | None => None
      end
    else Some markdown_text
  else Some markdown_text.


(** The dataclass [FormattedText]. *)
Record FormattedText := {
  text : str;
  is_bold : bool;
  is_italic : bool;
  is_header : bool;
  header_level : nat;
  is_bullet : bool;
  indent_level : nat
}.

(** [FormattedText(text=t)], the other fields at their defaults. *)
Definition plain (t : str) : FormattedText :=
  {| text := t; is_bold := false; is_italic := false; is_header := false;
     header_level := 0; is_bullet := false; indent_level := 0 |}.

(** The patterns of [__init__] are matched against one line, which
    holds no line feed.  [\s+(.+)$] at the head of such a string: the
    white space, then the rest of the line as the group; when white
    space is all there is, its last character is the group. *)
Definition spaces_then_rest (r : str) : option str :=
  match r with
  | [] => None
  | c :: _ =>
      if is_space c then
        match dropwhile is_space r with
        | (_ :: _) as rest => Some rest
        | [] => match rev r with
                | x :: _ :: _ => Some [x]
                | _ => None
                end
        end
      else None
  end.

Fixpoint count_hashes (s : str) : nat :=
  match s with
  | c :: t => if N.eqb c 35%N then S (count_hashes t) else 0
  | [] => 0
  end.

(** [header_pattern.match(line)], for [^(#{1,6})\s+(.+)$]: the length
    of the first group and the second group. *)
Definition header_match (line : str) : option (nat * str) :=
  let k := count_hashes line in
  if Nat.leb 1 k && Nat.leb k 6 then
    match spaces_then_rest (skipn k line) with
    | Some g => Some (k, g)
    | None => None
    end
  else None.

(** [bullet_pattern.match(line)], for [^[\s]*[•\*\+\-]\s+(.+)$]: the
    group. *)
Definition bullet_match (line : str) : option str :=
  match dropwhile is_space line with
  | c :: r =>
      if N.eqb c bullet || N.eqb c 42%N || N.eqb c 43%N || N.eqb c 45%N
      then spaces_then_rest r else None
  | [] => None
  end.

(** The closing [**] of a bold run, looked for from the left: what is
    passed on the way, and how many characters the search used. *)
Fixpoint close_bold (s : str) : option (str * nat) :=
  if startswith (py "**") s then Some ([], 2)
  else match s with
       | [] => None
       | c :: t =>
           if N.eqb c nl then None
           else match close_bold t with
                | Some (b, n) => Some (c :: b, S n)
                | None => None
                end
       end.

(** A match of [bold_pattern], [\*\*(.+?)\*\*], at the head of [s]: the
    group and the length of the match. *)
Definition bold_at (s : str) : option (str * nat) :=
  if startswith (py "**") s then
    match skipn 2 s with
    | c :: t =>
        if N.eqb c nl then None
        else match close_bold t with
             | Some (b, n) => Some (c :: b, 3 + n)
             | None => None
             end
    | [] => None
    end
  else None.

(** The loop of [_split_with_formatting] over the matches of
    [bold_pattern], with the text left after the last one.  [pending] is
    the text since [current_pos], [skip] the characters of the current
    match still to pass. *)
Fixpoint split_loop (s : str) (skip : nat) (pending : str)
  : list FormattedText :=
  match s with
  | [] => if truthy (strip pending) then [plain pending] else []
  | c :: t =>
      match skip with
      | S k => split_loop t k pending
      | O =>
          match bold_at s with
          | Some (g, n) =>
              (if truthy (strip pending) then [plain pending] else [])
              ++ {| text := g; is_bold := true; is_italic := false;
                    is_header := false; header_level := 0;
                    is_bullet := false; indent_level := 0 |}
              :: split_loop t (n - 1) []
          | None => split_loop t 0 (pending ++ [c])
          end
      end
  end.

Definition _split_with_formatting (text : str) : list FormattedText :=
  match split_loop text 0 [] with
  | [] => [plain text]
  | result => result
  end.

(** [_process_inline_formatting] calls [part.strip()] on the first part,
    a [FormattedText], which has no such method: an [AttributeError]
    ([None]).  Without a part, the loop is passed and the text comes
    back as one plain piece. *)
Definition _process_inline_formatting (text : str)
  : option (list FormattedText) :=
  match _split_with_formatting text with
  | [] => Some [plain text]
  | _ :: _ => None
  end.

(** [item.is_bullet = True; item.indent_level = indent_level] *)
Definition as_bullet (indent : nat) (item : FormattedText) : FormattedText :=
  {| text := text item; is_bold := is_bold item; is_italic := is_italic item;
     is_header := is_header item; header_level := header_level item;
     is_bullet := true; indent_level := indent |}.

Section WithUnicode.
Context {U : Unicode}.

(** [numbered_pattern.match(line)], for [^[\s]*\d+\.\s+(.+)$]: the
    group. *)
Definition numbered_match (line : str) : option str :=
  match dropwhile is_space line with
  | c :: r =>
      if is_digit c then
        match dropwhile is_digit r with
        | d :: r' => if N.eqb d 46%N then spaces_then_rest r' else None
        | [] => None
        end
      else None
  | [] => None
  end.

(** The loop of [convert_to_structured_content]; [None] when a call
    raises. *)
Fixpoint structured_loop (lines : list str) : option (list FormattedText) :=
  match lines with
  | [] => Some []
  | raw :: rest =>
      let line := strip raw in
      if negb (truthy line) then structured_loop rest
      else
        match header_match line with
        | Some (level, g) =>
            option_map
              (cons {| text := strip g; is_bold := false; is_italic := false;
                       is_header := true; header_level := level;
                       is_bullet := false; indent_level := 0 |})
              (structured_loop rest)
        | None =>
            let indent_level :=
              Nat.div (List.length line - List.length (lstrip line)) 2 in
            match bullet_match line with
            | Some g =>
                match _process_inline_formatting (strip g) with
                | None => None
                | Some items =>
                    option_map (app (map (as_bullet indent_level) items))
                               (structured_loop rest)
                end
            | None =>
                match numbered_match line with
                | Some g =>
                    match _process_inline_formatting (strip g) with
                    | None => None
                    | Some items =>
                        option_map (app (map (as_bullet indent_level) items))
                                   (structured_loop rest)
                    end
                | None =>
                    match _process_inline_formatting line with
                    | None => None
                    | Some items => option_map (app items) (structured_loop rest)
                    end
                end
            end
        end
  end.

(** The [try] of [convert_to_structured_content] with its handler. *)
Definition convert_to_structured_content (markdown_text : str)
  : list FormattedText :=
  match structured_loop (split_chr nl markdown_text) with
  | Some content => content
  | None => [plain markdown_text]
  end.

(** The loop of [convert_to_plain_formatted_text] over the items. *)
Fixpoint plain_loop (items : list FormattedText) (result_lines : list str)
  : list str :=
  match items with
  | [] => result_lines
  | item :: rest =>
      if is_header item then
        let result_lines :=
          match result_lines with
          | [] => result_lines
          | _ :: _ => result_lines ++ [[]]
          end in
        plain_loop rest (result_lines ++ [upper (text item); []])
      else if is_bullet item then
        plain_loop rest
          (result_lines
           ++ [List.concat (repeat (py "  ") (indent_level item))
               ++ bullet :: space :: text item])
      else if truthy (strip (text item))
      then plain_loop rest (result_lines ++ [text item])
      else plain_loop rest result_lines
  end.

(** [convert_to_plain_formatted_text]; none of its calls raises, so its
    handler is never reached. *)
Definition convert_to_plain_formatted_text (markdown_text : str) : str :=
  match remove_prefix markdown_text with
  | None => markdown_text
  | Some markdown_text =>
      join [nl] (plain_loop (convert_to_structured_content markdown_text) [])
  end.

End WithUnicode.

End MarkdownConverter.

(* ================================================================== *)
(** ** backend/advanced_file_generator_v2.py                           *)
(* ================================================================== *)

(** [fuzz.ratio] of the [fuzzywuzzy] package: an integer score. *)
Class Fuzz := { ratio : str -> str -> Z }.

Module AdvancedFileGeneratorV2.

(** *** Construction *)

(** The object [__init__] builds: the output directory and the options
    handed to the PDF tool ([None] for a flag without a value). *)
Record generator := {
  output_dir : str;
  pdf_options : list (str * option str)
}.

Definition default_pdf_options : list (str * option str) :=
  [ (py "page-size", Some (py "A4"));
    (py "margin-top", Some (py "0.5in"));
    (py "margin-right", Some (py "0.6in"));
    (py "margin-bottom", Some (py "0.5in"));
    (py "margin-left", Some (py "0.6in"));
    (py "encoding", Some (py "UTF-8"));
    (py "no-outline", None);
    (py "enable-local-file-access", None) ].

(** A value given for a keyword of the constructor call. *)
Inductive value :=
| VStr (s : str)
| VInt (z : Z).

(** The binding of the keyword arguments of a call to the signature
    [__init__(self, output_dir: str = "outputs")]: a keyword that is not
    a parameter, or one given twice, is a [TypeError] ([None]). *)
Fixpoint bind_output_dir (kwargs : list (str * value)) (bound : option value)
  : option (option value) :=
  match kwargs with
  | [] => Some bound
  | (k, v) :: r =>
      if str_eqb k (py "output_dir") then
        match bound with
        | None => bind_output_dir r (Some v)
        | Some _ => None
        end
      else None
  end.

(** [os.makedirs(output_dir, exist_ok=True)] raises, whatever the file
    system, for the empty path ([FileNotFoundError]) and for a path
    that holds a null character ([ValueError]).  For any other path the
    outcome is the file system's: the model takes the directory to be
    there or creatable. *)
Definition makedirs_raises (path : str) : bool :=
  negb (truthy path) || existsb (N.eqb 0%N) path.

(** A call of the constructor with keyword arguments; [None] when it
    raises: in the binding of the arguments, or in [os.makedirs], which
    takes a path, so that a value that is not a string is a [TypeError]
    too. *)
Definition init (kwargs : list (str * value)) : option generator :=
  match bind_output_dir kwargs None with
  | None => None
  | Some None =>
      Some {| output_dir := py "outputs"; pdf_options := default_pdf_options |}
  | Some (Some (VStr d)) =>
      if makedirs_raises d then None
      else Some {| output_dir := d; pdf_options := default_pdf_options |}
  | Some (Some (VInt _)) => None
  end.

(** *** The preamble removal *)

Definition closing_marker : str :=
  py "This content is now perfectly structured".
Definition preamble_rest : str := py "that will generate perfect files:".

(** The first statement of [clean_markdown_text]. *)
Definition remove_prefix (text : str) : option str :=
  if contains preamble_short text then
    let parts := split preamble_short text in
    if Nat.ltb 1 (List.length parts) then
      match nth_error parts 1 with
      | None => None
      | Some p =>
          let text := strip p in
          match
            (if contains closing_marker text then
               option_map strip (nth_error (split closing_marker text) 0)
             else Some text)
          with
          | None => None
          | Some text =>
              if contains preamble_rest text then
                option_map strip (nth_error (split preamble_rest text) 1)
              else Some text
          end
      end
    else Some text
  else Some text.

(** *** Duplicate content blocks *)

(** The first loop of [_deduplicate_project_content], with the closing
    of the last block. *)
Fixpoint group_blocks (content_lines : list str) (current_block : list str)
  : list (list str) :=
  match content_lines with
  | [] => match current_block with
          | [] => []
          | _ :: _ => [current_block]
          end
  | line :: rest =>
      if str_eqb (strip line) [] then
        match current_block with
        | [] => group_blocks rest []
        | _ :: _ => current_block :: group_blocks rest []
        end
      else group_blocks rest (current_block ++ [line])
  end.

(** ['\n'.join([l.strip() for l in block if l.strip()])] *)
Definition block_text (block : list str) : str :=
  join [nl] (map strip (filter (fun l => truthy (strip l)) block)).

(** [any(l.strip().startswith('*') or l.strip().startswith('-') ...)] *)
Definition has_bullets (block : list str) : bool :=
  existsb (fun l => startswith (py "*") (strip l)
                    || startswith (py "-") (strip l)) block.

Section WithLibraries.
Context {U : Unicode} {F : Fuzz}.

(** [fuzz.ratio(block_text.lower(), existing_text.lower())] *)
Definition similarity (block existing_block : list str) : Z :=
  ratio (lower (block_text block)) (lower (block_text existing_block)).

(** The inner [for ... break] over [unique_blocks]: [Some] of the list
    as it stands after the loop found a similar block ([is_duplicate]),
    [None] when it found none. *)
Fixpoint find_duplicate (block : list str) (unique_blocks : list (list str))
  : option (list (list str)) :=
  match unique_blocks with
  | [] => None
  | existing_block :: r =>
      if Z.ltb 80 (similarity block existing_block) then
        let block_has_bullets := has_bullets block in
        let existing_has_bullets := has_bullets existing_block in
        if block_has_bullets && negb existing_has_bullets
        then Some (block :: r)
        else if existing_has_bullets && negb block_has_bullets
        then Some (existing_block :: r)
        else Some (existing_block :: r)
      else option_map (cons existing_block) (find_duplicate block r)
  end.

(** One turn of the outer loop. *)
Definition dedup_step (unique_blocks : list (list str)) (block : list str)
  : list (list str) :=
  if negb (truthy (block_text block)) then unique_blocks
  else match find_duplicate block unique_blocks with
       | Some updated => updated
       | None => unique_blocks ++ [block]
       end.

Definition unique_blocks_of (content_blocks : list (list str))
  : list (list str) :=
  fold_left dedup_step content_blocks [].

(** [result.extend(block); result.append("")] for each block. *)
Definition flatten_blocks (unique_blocks : list (list str)) : list str :=
  flat_map (fun block => block ++ [[]]) unique_blocks.

Definition _deduplicate_project_content (content_lines : list str)
  : list str :=
  match content_lines with
  | [] => []
  | _ :: _ =>
      flatten_blocks (unique_blocks_of (group_blocks content_lines []))
  end.

End WithLibraries.

(** *** The header *)

Definition contact_indicators : list str :=
  (py "@") :: (py "+") ::
  map py ["nigeria"; "abuja"; "linkedin"; "github"; ".com"]%string.

Definition remove_stars (s : str) : str :=
  strip (replace (py "*") [] (replace (py "**") [] s)).

Section WithUnicode.
Context {U : Unicode}.

(** [l.upper().startswith('PROFESSIONAL') or l.startswith('##')] *)
Definition is_section_start (l : str) : bool :=
  startswith (py "PROFESSIONAL") (upper l) || startswith (py "##") l.

(** The loop that collects the job titles.  [lines] is [lines[i:]]; the
    result is the titles with the index and the lines the loop stopped
    at. *)
Fixpoint collect_titles (i : nat) (lines : list str) (job_titles : list str)
  : list str * nat * list str :=
  match lines with
  | [] => (job_titles, i, [])
  | raw :: rest =>
      if Nat.ltb i 10 then
        let next_line := strip raw in
        if negb (truthy next_line) then collect_titles (S i) rest job_titles
        else if any_in contact_indicators (lower next_line)
        then (job_titles, i, lines)
        else if is_section_start next_line then (job_titles, i, lines)
        else
          let clean_title := remove_stars next_line in
          if truthy clean_title && Nat.ltb 5 (List.length clean_title)
          then collect_titles (S i) rest (job_titles ++ [clean_title])
          else collect_titles (S i) rest job_titles
      else (job_titles, i, lines)
  end.

(** The loop that collects the contact items. *)
Fixpoint collect_contacts (i : nat) (lines : list str)
         (contact_items : list str) : list str * nat * list str :=
  match lines with
  | [] => (contact_items, i, [])
  | raw :: rest =>
      if Nat.ltb i 20 then
        let contact_line := strip raw in
        if negb (truthy contact_line)
        then collect_contacts (S i) rest contact_items
        else if is_section_start contact_line then (contact_items, i, lines)
        else
          let clean_contact := remove_stars contact_line in
          if truthy clean_contact
             && any_in contact_indicators (lower clean_contact)
          then collect_contacts (S i) rest (contact_items ++ [clean_contact])
          else collect_contacts (S i) rest contact_items
      else (contact_items, i, lines)
  end.

(** The header block built once a name is found, followed by the lines
    left, which the last loop copies as they are. *)
Definition build_header (name : str) (i : nat) (lines : list str)
  : list str :=
  let '(job_titles, i, lines) := collect_titles i lines [] in
  let '(contact_items, i, lines) := collect_contacts i lines [] in
  [py "# " ++ name]
  ++ match job_titles with
     | [] => []
     | _ :: _ => [py "## " ++ join (py " | ") job_titles]
     end
  ++ match contact_items with
     | [] => []
     | _ :: _ => [join (py " | ") contact_items]
     end
  ++ [[]]
  ++ lines.

(** The main loop of [_restructure_header], from index [i] on, with the
    copy of the lines left once [header_processed] is set. *)
Fixpoint restructure_loop (i : nat) (lines : list str) : list str :=
  match lines with
  | [] => []
  | raw :: rest =>
      let line := strip raw in
      if Nat.eqb i 0
         || (Nat.ltb i 5
             && (contains (py "Dr.") line
                 || any_in (map py ["Anthony"; "Anyanwu"]%string) line))
      then
        let name := strip (replace (py "**") [] line) in
        if contains (py "Dr.") name then build_header name (S i) rest
        else line :: restructure_loop (S i) rest
      else if is_section_start line then line :: rest
      else line :: restructure_loop (S i) rest
  end.

Definition _restructure_header (text : str) : str :=
  join [nl] (restructure_loop 0 (split_chr nl text)).

End WithUnicode.

(** *** The other passes of [clean_markdown_text] *)

(** [l[-1].strip() == ''] for a non-empty [l]; [false] for the empty
    list, where the code has tested its length first. *)
Definition last_is_blank (l : list str) : bool :=
  match rev l with
  | [] => false
  | x :: _ => str_eqb (strip x) []
  end.

(** The loop of [_optimize_for_page_length].  The test of the length of
    a long bullet has an empty body and is left out. *)
Fixpoint optimize_loop (lines : list str) (optimized_lines : list str)
  : list str :=
  match lines with
  | [] => optimized_lines
  | line :: rest =>
      if str_eqb (strip line) []
         && Nat.ltb 0 (List.length optimized_lines)
         && last_is_blank optimized_lines
      then optimize_loop rest optimized_lines
      else
        let line :=
          if startswith (py "- ") line || startswith (py "* ") line
          then strip line else line in
        optimize_loop rest (optimized_lines ++ [line])
  end.

Definition _optimize_for_page_length (text : str) : str :=
  join [nl] (optimize_loop (split_chr nl text) []).

Definition project_names : list str :=
  map py ["NzubeGlaucoDetect"; "NzubeCare"; "Vivian AI";
          "Multi-Agent Healthcare"]%string.

Definition role_keywords : list str :=
  map py ["Engineer"; "Tech:"; "Developer"; "Lead"; "AI"; "Python"]%string.

Section MorePasses.
Context {U : Unicode} {F : Fuzz}.

(** The loop of [_fix_certification_formatting], from index [i] on.
    [skip] says that the line at [i] was joined to the entry before it
    and is passed over. *)
Fixpoint certification_loop (in_certifications skip : bool)
         (lines : list str) : list str :=
  match lines with
  | [] => []
  | raw :: rest =>
      if skip then certification_loop in_certifications false rest
      else
        let line := strip raw in
        if contains (py "CERTIFICATIONS") (upper line)
           || contains (py "## CERTIFICATIONS") line
        then raw :: certification_loop true false rest
        else
          let in_certifications :=
            if in_certifications
               && (startswith (py "## ") line
                   || existsb (str_eqb (upper line))
                        (map py ["EDUCATION"; "ACHIEVEMENTS";
                                 "REFERENCES"]%string))
            then false else in_certifications in
          if in_certifications && truthy line then
            if startswith (py "- ") line || startswith (py "* ") line then
              match rest with
              | next :: _ =>
                  let next_line := strip next in
                  if truthy next_line
                     && negb (startswith (py "-") next_line)
                     && negb (startswith (py "*") next_line)
                     && negb (startswith (py "##") next_line)
                  then (line ++ py " - " ++ next_line)
                       :: certification_loop in_certifications true rest
                  else line :: certification_loop in_certifications false rest
              | [] => line :: certification_loop in_certifications false rest
              end
            else raw :: certification_loop in_certifications false rest
          else raw :: certification_loop in_certifications false rest
  end.

Definition _fix_certification_formatting (text : str) : str :=
  join [nl] (certification_loop false false (split_chr nl text)).

(** Where [_remove_duplicate_content_aggressive] stands in its nested
    loops: in the main loop, in the loop over the role and technology
    lines after a project title (with the lines it keeps), or in the
    loop that collects the content of the project (with the lines
    collected). *)
Inductive scan_mode :=
| Main
| RoleTech (role_tech_lines : list str)
| Content (all_content_lines : list str).

(** The test that ends the collection of the content of a project. *)
Definition ends_project (current_line : str) : bool :=
  startswith (py "##") current_line
  || any_in project_names current_line
  || startswith (py "EDUCATION") (upper current_line)
  || startswith (py "CERTIFICATIONS") (upper current_line)
  || startswith (py "ACHIEVEMENTS") (upper current_line).

(** The loops of [_remove_duplicate_content_aggressive], from index [i]
    on.  A line that ends an inner loop is looked at again by the loop
    around it, so one line can pass through the three tests. *)
Fixpoint aggressive_loop (mode : scan_mode) (lines : list str) : list str :=
  match lines with
  | [] =>
      match mode with
      | Main => []
      | RoleTech role_tech_lines =>
          role_tech_lines ++ _deduplicate_project_content [] ++ [[]]
      | Content all_content_lines =>
          _deduplicate_project_content all_content_lines ++ [[]]
      end
  | raw :: rest =>
      let main :=
        if any_in project_names (strip raw)
        then raw :: aggressive_loop (RoleTech []) rest
        else raw :: aggressive_loop Main rest in
      let content all_content_lines :=
        if ends_project (strip raw)
        then _deduplicate_project_content all_content_lines ++ [[]] ++ main
        else aggressive_loop (Content (all_content_lines ++ [raw])) rest in
      match mode with
      | Main => main
      | RoleTech role_tech_lines =>
          if truthy (strip raw)
             && negb (startswith (py "*") (strip raw))
             && negb (startswith (py "-") (strip raw))
          then
            if any_in role_keywords (strip raw)
            then aggressive_loop (RoleTech (role_tech_lines ++ [raw])) rest
            else aggressive_loop (RoleTech role_tech_lines) rest
          else role_tech_lines ++ content []
      | Content all_content_lines => content all_content_lines
      end
  end.

Definition _remove_duplicate_content_aggressive (text : str) : str :=
  join [nl] (aggressive_loop Main (split_chr nl text)).

End MorePasses.

End AdvancedFileGeneratorV2.

(* ================================================================== *)
(** ** Reference instances of the parameters                           *)
(* ================================================================== *)

(** A database for the examples: no decimal digit outside ASCII, and
    case mappings that change the ASCII letters of a string and leave
    its other characters alone, as Python does for the characters
    without case (the bullet, the dashes).  On ASCII text every database
    gives the same results, the code asking it nothing there. *)
Definition basic_unicode : Unicode :=
  {| uni_isdecimal := fun _ => false;
     uni_upper := map ascii_upper;
     uni_lower := map ascii_lower |}.

(** One row of the table of longest common subsequences of [a] and the
    prefixes of [b]: [prev] is the row of the prefix of [a] before [x],
    [left] the entry just computed. *)
Fixpoint lcs_row (x : char) (b : str) (prev : list nat) (left : nat)
  : list nat :=
  match b, prev with
  | y :: b', up_left :: ((up :: _) as prev') =>
      let v := if N.eqb x y then S up_left else Nat.max up left in
      v :: lcs_row x b' prev' v
  | _, _ => []
  end.

Definition lcs (a b : str) : nat :=
  last (fold_left (fun prev x => 0 :: lcs_row x b prev 0) a
                  (repeat 0 (S (List.length b)))) 0.

(** A reference similarity, used where an example needs a score: the
    ratio [fuzz.ratio] computes, [2 * M / T] in percent for [M] matched
    characters out of [T] in both strings, rounded to the nearest
    integer (to the even one at a half); [100] for equal strings and [0]
    when one of two different strings is empty. *)
Definition indel_ratio (a b : str) : Z :=
  if str_eqb a b then 100%Z
  else match a, b with
       | [], _ | _, [] => 0%Z
       | _, _ =>
           let t := Z.of_nat (List.length a + List.length b) in
           let m := (200 * Z.of_nat (lcs a b))%Z in
           let q := (m / t)%Z in
           let r := (m mod t)%Z in
           if (2 * r <? t)%Z then q
           else if (t <? 2 * r)%Z then (q + 1)%Z
           else if Z.even q then q else (q + 1)%Z
       end.

Definition indel_fuzz : Fuzz := {| ratio := indel_ratio |}.

(* ================================================================== *)
(** ** Vocabulary of the properties                                    *)
(* ================================================================== *)

(** The characters of a text other than the space. *)
Definition non_space (s : str) : str :=
  filter (fun c => negb (N.eqb c space)) s.

(** A lowercase letter directly followed by an uppercase one. *)
Fixpoint has_camel (s : str) : bool :=
  match s with
  | [] => false
  | a :: t =>
      match t with
      | d :: _ => (is_lower a && is_upper d) || has_camel t
      | [] => false
      end
  end.

Section PartitionerVocabulary.
Context {U : Unicode}.
Import FileGenerator.

(** The buckets the scan of [_parse_resume_sections] closes, in order,
    each with the name it is stored under: [name] and [content] are
    those of the open bucket. *)
Fixpoint buckets (name : str) (content : list str) (lines : list str)
  : list (str * list str) :=
  match lines with
  | [] => [(name, content)]
  | line :: rest =>
      match detect_header line with
      | Some matched_section =>
          (name, content) :: buckets matched_section [] rest
      | None => buckets name (content ++ [line]) rest
      end
  end.

(** Storing one closed bucket, as [save_section] does. *)
Definition store_bucket (d : dict) (b : str * list str) : dict :=
  save_section {| sections := d; current_section := fst b;
                  current_content := snd b; found_first_section := true |}.

Definition is_content_line (line : str) : bool :=
  match detect_header line with Some _ => false | None => true end.

End PartitionerVocabulary.

(** The blocks [group_blocks] makes are not empty and have no blank
    line. *)
Definition solid (block : list str) : Prop :=
  block <> [] /\ Forall (fun l => strip l <> []) block.

(** [r] is a run of consecutive characters of [s]. *)
Definition infix (r s : str) : Prop := exists a b, s = a ++ r ++ b.

(** The name [_restructure_header] reads off a line: the line trimmed,
    without its [**], trimmed again. *)
Definition cleaned_name (line : str) : str :=
  strip (replace (py "**") [] (strip line)).

(** A line without white space at its ends. *)
Definition trimmed (line : str) : Prop := strip line = line.

(** Two blank lines in a row. *)
Definition blank_pair (l : list str) : Prop :=
  exists l1 l2, l = l1 ++ [] :: [] :: l2.

Section BucketVocabulary.
Context {U : Unicode}.
Import FileGenerator.

(** The content a bucket is stored with. *)
Definition clean_bucket (b : str * list str) : str :=
  if str_eqb (fst b) (py "header") then _clean_header_content (snd b)
  else _clean_section_content (snd b) (fst b).

(** The buckets that hold a line. *)
Definition filled (bs : list (str * list str)) : list (str * list str) :=
  filter (fun b => match snd b with [] => false | _ :: _ => true end) bs.

(** The lines [_parse_resume_sections] scans. *)
Definition scanned_lines (resume_text : str) : list str :=
  prepare_lines
    (normalize_newlines 0
       (replace [cr] [nl] (replace [cr; nl] [nl] resume_text))).

End BucketVocabulary.

(** Two strings that differ at a place both have. *)
Fixpoint diverge (b a : str) : bool :=
  match b, a with
  | x :: b', y :: a' => negb (N.eqb x y) || diverge b' a'
  | _, _ => false
  end.

(** No alternative of a section of the table can be taken for a header
    of a section before it: it differs from each of their alternatives
    at a place both have.  [before] holds the sections passed. *)
Fixpoint unshadowed (before table : list (str * list str)) : bool :=
  match table with
  | [] => true
  | (name, alts) :: r =>
      forallb (fun a =>
                 forallb (fun e => forallb (fun b => diverge b a) (snd e))
                         before)
              alts
      && unshadowed (before ++ [(name, alts)]) r
  end.

(** The lines of a list that are not empty. *)
Definition non_blank (l : list str) : list str := filter truthy l.

(** Two lines in a row that hold nothing but white space. *)
Definition white_pair (l : list str) : Prop :=
  exists l1 a b l2, l = l1 ++ a :: b :: l2 /\ strip a = [] /\ strip b = [].

(** A line the compaction of blank lines leaves as it is. *)
Definition settled (line : str) : Prop :=
  startswith (py "- ") line || startswith (py "* ") line = true ->
  strip line = line.

(** A line of a list: blank, or behind one of the four markers. *)
Definition listed (l : str) : Prop :=
  l = [] \/ FileGenerator.starts_any FileGenerator.bullets4 l = true.

(** A line as an item of a list: the line itself when it begins with a
    list marker, the line behind the bullet and a space when it does
    not. *)
Definition marked (l : str) : str :=
  if FileGenerator.starts_any FileGenerator.bullets4 l then l
  else bullet :: space :: l.

(** A line of a summary: blank, or longer than ten characters. *)
Definition substantial (l : str) : Prop := l = [] \/ 10 < List.length l.

(** What stands before the first occurrence of [m] in [s]: all of [s]
    when [m] is not in it. *)
Fixpoint before_first (m s : str) : str :=
  match s with
  | [] => []
  | c :: t => if startswith m s then [] else c :: before_first m t
  end.

(** What follows the first occurrence of [m] in [s]: nothing when [m]
    is not in it. *)
Fixpoint after_first (m s : str) : str :=
  match s with
  | [] => []
  | _ :: t =>
      if startswith m s then skipn (List.length m) s else after_first m t
  end.

(** What stands between the first occurrence of [m] in [s] and the
    next one: after the first occurrence, up to the end of [s] when
    there is no other. *)
Definition between (m s : str) : str := before_first m (after_first m s).

(** The text the newest stripper is to return, said with the
    occurrences of its three markers. *)
Definition stripped (text : str) : str :=
  if contains preamble_short text then
    let t := strip (between preamble_short text) in
    let t :=
      if contains AdvancedFileGeneratorV2.closing_marker t
      then strip (before_first AdvancedFileGeneratorV2.closing_marker t)
      else t in
    if contains AdvancedFileGeneratorV2.preamble_rest t
    then strip (between AdvancedFileGeneratorV2.preamble_rest t)
    else t
  else text.

(** The text the two older strippers are to return. *)
Definition stripped_older (text : str) : str :=
  if contains preamble_full text then strip (between preamble_full text)
  else text.

(** The first character of [m] is nowhere in [a]. *)
Definition head_free (m a : str) : Prop :=
  match m with
  | [] => False
  | x :: _ => existsb (N.eqb x) a = false
  end.

(** No occurrence of [m] can overlap another one: its first character
    is nowhere else in it. *)
Definition unbordered (m : str) : Prop := head_free m (tl m).

(** A string that is not empty and neither begins nor ends with white
    space. *)
Definition solid_word (m : str) : Prop :=
  (exists c r, m = c :: r /\ is_space c = false)
  /\ (exists c r, rev m = c :: r /\ is_space c = false).

(* ================================================================== *)
(** ** Properties                                                      *)
(* ================================================================== *)

(** *** Lists of characters *)

Lemma str_eqb_eq (a b : str) : str_eqb a b = true <-> a = b.
Proof.
  revert b; induction a as [|x a IH]; intros [|y b]; simpl.
  - tauto.
  - split; discriminate.
  - split; discriminate.
  - rewrite andb_true_iff, N.eqb_eq, IH. split.
    + intros [-> ->]; reflexivity.
    + intros E; injection E; auto.
Qed.

Lemma str_eqb_refl (a : str) : str_eqb a a = true.
Proof. apply str_eqb_eq; reflexivity. Qed.

Lemma str_eqb_neq (a b : str) : str_eqb a b = false <-> a <> b.
Proof.
  destruct (str_eqb a b) eqn:E.
  - apply str_eqb_eq in E. split; [discriminate | congruence].
  - split; auto. intros _ H. apply str_eqb_eq in H. congruence.
Qed.

Lemma truthy_nil (s : str) : truthy s = false <-> s = [].
Proof.
  unfold truthy. rewrite negb_false_iff. apply str_eqb_eq.
Qed.

Lemma truthy_cons (s : str) : truthy s = true <-> s <> [].
Proof.
  unfold truthy. rewrite negb_true_iff. apply str_eqb_neq.
Qed.

(** Induction over a list by the length of its suffixes, for the
    functions that read two or three characters ahead. *)
Lemma str_length_ind (P : str -> Prop) :
  (forall s, (forall t, List.length t < List.length s -> P t) -> P s) ->
  forall s, P s.
Proof.
  intros H s.
  assert (G : forall n t, List.length t < n -> P t).
  { induction n as [|n IH]; intros t Ht; [lia|].
    apply H. intros u Hu. apply IH. lia. }
  apply (G (S (List.length s))). lia.
Qed.

(** *** The rewrite rules of the jamming repair *)

Lemma non_space_app (a b : str) :
  non_space (a ++ b) = non_space a ++ non_space b.
Proof. apply filter_app. Qed.

Lemma sub3_step p1 c p2 ins a b d rest :
  sub3 p1 c p2 ins (a :: b :: d :: rest) =
  if p1 a && N.eqb b c && p2 d
  then a :: ins ++ d :: sub3 p1 c p2 ins rest
  else a :: sub3 p1 c p2 ins (b :: d :: rest).
Proof. reflexivity. Qed.

Lemma sub2_step p1 p2 ins a d rest :
  sub2 p1 p2 ins (a :: d :: rest) =
  if p1 a && p2 d
  then a :: ins ++ d :: sub2 p1 p2 ins rest
  else a :: sub2 p1 p2 ins (d :: rest).
Proof. reflexivity. Qed.

Lemma sub3_non_space p1 c p2 ins s :
  non_space ins = [c] -> non_space (sub3 p1 c p2 ins s) = non_space s.
Proof.
  intros Hins. induction s as [s IH] using str_length_ind.
  destruct s as [|a [|b [|d rest]]]; try reflexivity.
  rewrite sub3_step. destruct (p1 a && N.eqb b c && p2 d) eqn:E.
  - apply andb_true_iff in E as [E _]. apply andb_true_iff in E as [_ E].
    apply N.eqb_eq in E. subst b.
    change (a :: ins ++ d :: sub3 p1 c p2 ins rest)
      with ([a] ++ ins ++ [d] ++ sub3 p1 c p2 ins rest).
    change (a :: c :: d :: rest) with ([a] ++ [c] ++ [d] ++ rest).
    rewrite !non_space_app, Hins, IH by (simpl; lia).
    f_equal. f_equal.
    assert (Hc : non_space [c] = [c]).
    { unfold non_space in *. simpl.
      destruct (negb (N.eqb c space)) eqn:Ec; [reflexivity|].
      apply negb_false_iff, N.eqb_eq in Ec. subst c.
      clear -Hins. exfalso.
      assert (In space (filter (fun c => negb (N.eqb c space)) ins))
        by (rewrite Hins; left; reflexivity).
      apply filter_In in H as [_ H]. rewrite N.eqb_refl in H. discriminate. }
    rewrite Hc. reflexivity.
  - change (a :: sub3 p1 c p2 ins (b :: d :: rest))
      with ([a] ++ sub3 p1 c p2 ins (b :: d :: rest)).
    change (a :: b :: d :: rest) with ([a] ++ b :: d :: rest).
    rewrite !non_space_app, IH by (simpl; lia). reflexivity.
Qed.

Lemma sub2_non_space p1 p2 ins s :
  non_space ins = [] -> non_space (sub2 p1 p2 ins s) = non_space s.
Proof.
  intros Hins. induction s as [s IH] using str_length_ind.
  destruct s as [|a [|d rest]]; try reflexivity.
  rewrite sub2_step. destruct (p1 a && p2 d).
  - change (a :: ins ++ d :: sub2 p1 p2 ins rest)
      with ([a] ++ ins ++ [d] ++ sub2 p1 p2 ins rest).
    change (a :: d :: rest) with ([a] ++ [d] ++ rest).
    rewrite !non_space_app, Hins, IH by (simpl; lia). reflexivity.
  - change (a :: sub2 p1 p2 ins (d :: rest))
      with ([a] ++ sub2 p1 p2 ins (d :: rest)).
    change (a :: d :: rest) with ([a] ++ d :: rest).
    rewrite !non_space_app, IH by (simpl; lia). reflexivity.
Qed.

Lemma collapse_spaces_non_space s :
  non_space (collapse_spaces s) = non_space s.
Proof.
  induction s as [|a t IH]; [reflexivity|].
  destruct t as [|b t']; [reflexivity|].
  change (collapse_spaces (a :: b :: t'))
    with (if N.eqb a space && N.eqb b space then collapse_spaces (b :: t')
          else a :: collapse_spaces (b :: t')).
  destruct (N.eqb a space && N.eqb b space) eqn:E.
  - rewrite IH. apply andb_true_iff in E as [E _].
    unfold non_space at 2. simpl filter. rewrite E. reflexivity.
  - unfold non_space in *. simpl filter in *. rewrite IH. reflexivity.
Qed.

Lemma has_camel_cons a d s :
  has_camel (a :: d :: s) = (is_lower a && is_upper d) || has_camel (d :: s).
Proof. reflexivity. Qed.

Lemma upper_not_lower d : is_upper d = true -> is_lower d = false.
Proof.
  unfold is_upper, is_lower. intros H.
  apply andb_true_iff in H as [_ H]. apply N.leb_le in H.
  apply andb_false_iff. left. apply N.leb_gt. lia.
Qed.

Lemma sub2_head p1 p2 ins a s :
  exists r, sub2 p1 p2 ins (a :: s) = a :: r.
Proof.
  destruct s as [|d rest]; simpl; [eauto|].
  destruct (p1 a && p2 d); eauto.
Qed.

Lemma camel_split_no_camel s :
  has_camel (sub2 is_lower is_upper [space] s) = false.
Proof.
  induction s as [s IH] using str_length_ind.
  destruct s as [|a [|d rest]]; try reflexivity.
  rewrite sub2_step. destruct (is_lower a && is_upper d) eqn:E.
  - apply andb_true_iff in E as [_ Hd].
    change (a :: [space] ++ d :: sub2 is_lower is_upper [space] rest)
      with (a :: space :: d :: sub2 is_lower is_upper [space] rest).
    rewrite !has_camel_cons.
    replace (is_upper space) with false by reflexivity.
    replace (is_lower space) with false by reflexivity.
    rewrite andb_false_r. simpl orb.
    destruct rest as [|e rest']; [reflexivity|].
    destruct (sub2_head is_lower is_upper [space] e rest') as [r Hr].
    assert (H := IH (e :: rest') ltac:(simpl; lia)).
    rewrite Hr in *.
    rewrite (upper_not_lower _ Hd). simpl. exact H.
  - destruct (sub2_head is_lower is_upper [space] d rest) as [r Hr].
    assert (H := IH (d :: rest) ltac:(simpl; lia)).
    rewrite Hr in *. rewrite has_camel_cons, E. simpl. exact H.
Qed.

Lemma collapse_spaces_head a s :
  exists r, collapse_spaces (a :: s) = a :: r.
Proof.
  revert a. induction s as [|b t IH]; intros a; [simpl; eauto|].
  change (collapse_spaces (a :: b :: t))
    with (if N.eqb a space && N.eqb b space then collapse_spaces (b :: t)
          else a :: collapse_spaces (b :: t)).
  destruct (N.eqb a space && N.eqb b space) eqn:E; [|eauto].
  apply andb_true_iff in E as [Ea Eb].
  apply N.eqb_eq in Ea, Eb. subst. apply IH.
Qed.

Lemma collapse_spaces_no_camel s :
  has_camel s = false -> has_camel (collapse_spaces s) = false.
Proof.
  induction s as [|a t IH]; [reflexivity|].
  destruct t as [|b t']; [reflexivity|].
  rewrite has_camel_cons. intros H.
  apply orb_false_iff in H as [Hab Ht].
  change (collapse_spaces (a :: b :: t'))
    with (if N.eqb a space && N.eqb b space then collapse_spaces (b :: t')
          else a :: collapse_spaces (b :: t')).
  destruct (N.eqb a space && N.eqb b space); [auto|].
  destruct (collapse_spaces_head b t') as [r Hr].
  specialize (IH Ht). rewrite Hr in *.
  rewrite has_camel_cons, Hab. exact IH.
Qed.

Section JammingRepair.
Context {U : Unicode}.
Import TextProcessor.

(** X3.  The rule for mixed case puts its space exactly between a
    lowercase letter and the uppercase letter after it: the text before
    the pair and the text after it are rewritten on their own. *)
Lemma camel_fix_inserts (pre post : str) (a b : char) :
  is_lower a = true -> is_upper b = true ->
  camel_fix (pre ++ a :: b :: post)
  = camel_fix (pre ++ [a]) ++ space :: b :: camel_fix post.
Proof.
  intros Ha Hb. unfold camel_fix.
  induction pre as [pre IH] using str_length_ind.
  destruct pre as [|x [|y pre']].
  - simpl app at 1 2. rewrite sub2_step, Ha, Hb. reflexivity.
  - change ([x] ++ a :: b :: post) with (x :: a :: b :: post).
    change ([x] ++ [a]) with (x :: a :: []).
    rewrite (sub2_step _ _ _ x a (b :: post)), (sub2_step _ _ _ x a []).
    assert (Hu : is_upper a = false).
    { unfold is_lower, is_upper in *.
      apply andb_true_iff in Ha as [Ha _]. apply N.leb_le in Ha.
      apply andb_false_iff. right. apply N.leb_gt. lia. }
    rewrite Hu, andb_false_r.
    pose proof (IH [] ltac:(simpl; lia)) as H0. simpl app in H0.
    rewrite H0. reflexivity.
  - change ((x :: y :: pre') ++ a :: b :: post)
      with (x :: y :: (pre' ++ a :: b :: post)).
    change ((x :: y :: pre') ++ [a]) with (x :: y :: (pre' ++ [a])).
    rewrite (sub2_step _ _ _ x y (pre' ++ a :: b :: post)),
      (sub2_step _ _ _ x y (pre' ++ [a])).
    destruct (is_lower x && is_upper y).
    + rewrite (IH pre' ltac:(simpl; lia)).
      rewrite <- !app_comm_cons, <- app_assoc. reflexivity.
    + change (y :: pre' ++ a :: b :: post)
        with ((y :: pre') ++ a :: b :: post).
      rewrite (IH (y :: pre') ltac:(simpl; lia)). reflexivity.
Qed.

(** C10.  Whatever the input, the jamming repair leaves no lowercase
    letter directly followed by an uppercase one: its rule for mixed case
    separates every such pair by a space, and the pass changes nothing
    but spaces.  So ["JavaScript"] becomes ["Java Script"]. *)
Theorem fix_jamming_splits_mixed_case (text : str) :
  has_camel (_fix_jamming_issues text) = false
  /\ non_space (_fix_jamming_issues text) = non_space text
  /\ _fix_jamming_issues (py "JavaScript") = py "Java Script".
Proof.
  split; [|split].
  - unfold _fix_jamming_issues. cbv zeta.
    apply collapse_spaces_no_camel. apply camel_split_no_camel.
  - unfold _fix_jamming_issues, comma_fix, period_fix, pipe_fix, colon_fix,
      number_fix, percent_fix, camel_fix. cbv zeta.
    rewrite collapse_spaces_non_space.
    rewrite sub2_non_space by reflexivity.
    rewrite sub3_non_space by reflexivity.
    rewrite sub2_non_space by reflexivity.
    rewrite !sub3_non_space by reflexivity.
    reflexivity.
  - vm_compute. reflexivity.
Qed.

(** C1.  The repair is not idempotent: on ["a,b,c"] the rule for commas
    uses the letter [b] as the end of its first match, so the comma
    after it is repaired by a second pass only.  The fallback
    [_basic_formatting_fixes] has the same rules and the same
    behaviour. *)
Theorem fix_jamming_second_pass_differs :
  _fix_jamming_issues (py "a,b,c") = py "a, b,c"
  /\ _fix_jamming_issues (_fix_jamming_issues (py "a,b,c")) = py "a, b, c"
  /\ FileGenerator._basic_formatting_fixes (py "a,b,c") = py "a, b,c"
  /\ FileGenerator._basic_formatting_fixes
       (FileGenerator._basic_formatting_fixes (py "a,b,c")) = py "a, b, c".
Proof. repeat apply conj; vm_compute; reflexivity. Qed.

(** The rules of the repair, and those of the fallback of the file
    generator, rewrite five of the six examples of the specification.
    The pipe of ["Engineer|555"] stands between a letter and a digit,
    and the rule for the pipe wants a letter on both sides: the rules
    leave it, and it is the last step of the processor,
    [_final_cleanup], that spaces it. *)
Lemma repair_rules_examples :
  (_fix_jamming_issues (py "Python,Java") = py "Python, Java"
   /\ _fix_jamming_issues (py "development.Specializes")
      = py "development. Specializes"
   /\ _fix_jamming_issues (py "Languages:Python") = py "Languages: Python"
   /\ _fix_jamming_issues (py "5years") = py "5 years"
   /\ _fix_jamming_issues (py "40%improvement") = py "40% improvement")
  /\ (FileGenerator._basic_formatting_fixes (py "Python,Java")
      = py "Python, Java"
      /\ FileGenerator._basic_formatting_fixes (py "development.Specializes")
         = py "development. Specializes"
      /\ FileGenerator._basic_formatting_fixes (py "Languages:Python")
         = py "Languages: Python"
      /\ FileGenerator._basic_formatting_fixes (py "5years") = py "5 years"
      /\ FileGenerator._basic_formatting_fixes (py "40%improvement")
         = py "40% improvement")
  /\ _fix_jamming_issues (py "Engineer|555") = py "Engineer|555"
  /\ FileGenerator._basic_formatting_fixes (py "Engineer|555")
     = py "Engineer|555"
  /\ _final_cleanup (_fix_jamming_issues (py "Engineer|555"))
     = py "Engineer | 555".
Proof. repeat apply conj; vm_compute; reflexivity. Qed.

End JammingRepair.

Section Partitioner.
Context {U : Unicode}.
Import FileGenerator.

(** The scan itself loses no line: the buckets it closes hold, between
    them and in order, every line that is not a header, each once. *)
Lemma buckets_cover name content lines :
  List.concat (map snd (buckets name content lines))
  = content ++ filter is_content_line lines.
Proof.
  revert name content. induction lines as [|line rest IH]; intros name content.
  - simpl. rewrite !app_nil_r. reflexivity.
  - simpl. unfold is_content_line at 1.
    destruct (detect_header line) as [m|].
    + simpl. rewrite IH. reflexivity.
    + rewrite IH, <- app_assoc. reflexivity.
Qed.

Lemma save_section_flag d k c f1 f2 :
  save_section {| sections := d; current_section := k;
                  current_content := c; found_first_section := f1 |}
  = save_section {| sections := d; current_section := k;
                    current_content := c; found_first_section := f2 |}.
Proof. reflexivity. Qed.

(** The result of the partitioner is what storing the closed buckets one
    after the other gives; a bucket is lost only when a later one is
    stored under its name. *)
Lemma parse_loop_buckets lines st :
  save_section (fold_left parse_step lines st)
  = fold_left store_bucket
      (buckets (current_section st) (current_content st) lines)
      (sections st).
Proof.
  revert st. induction lines as [|line rest IH]; intros st.
  - simpl. unfold store_bucket. simpl. destruct st; reflexivity.
  - simpl. rewrite IH. unfold parse_step.
    destruct (detect_header line) as [m|].
    + simpl. unfold store_bucket at 2. simpl. destruct st; reflexivity.
    + destruct (negb (found_first_section st)); reflexivity.
Qed.

(** C5.  For the empty string the partitioner raises nothing (it is a
    total function) and returns no section, but its result is not empty:
    the one line of the empty text, a blank one, makes the header bucket
    a non-empty list, and the bucket is stored with the empty string for
    content. *)
Theorem parse_empty_text :
  _parse_resume_sections [] = [(py "header", [])].
Proof. vm_compute. reflexivity. Qed.

(** C2.  When two headers name the same section, the second bucket is
    stored over the first: the line ["Python"], which the scan had put
    in a bucket of its own, is in no bucket of the result. *)
Theorem parse_repeated_section :
  buckets (py "header") []
    (prepare_lines (py "SKILLS\nPython\nTECHNICAL SKILLS\nJava"))
  = [(py "header", []); (py "skills", [py "Python"]);
     (py "skills", [py "Java"])]
  /\ _parse_resume_sections (py "SKILLS\nPython\nTECHNICAL SKILLS\nJava")
     = [(py "skills", py "Java")].
Proof. apply conj; vm_compute; reflexivity. Qed.

End Partitioner.

Section Deduplication.
Context {U : Unicode} {F : Fuzz}.
Import AdvancedFileGeneratorV2.

Lemma find_duplicate_length block unique updated :
  find_duplicate block unique = Some updated ->
  List.length updated = List.length unique.
Proof.
  revert updated. induction unique as [|e r IH]; intros updated; simpl.
  - discriminate.
  - destruct (Z.ltb 80 (similarity block e)).
    + destruct (has_bullets block && negb (has_bullets e));
        [|destruct (has_bullets e && negb (has_bullets block))];
        intros H; injection H as <-; reflexivity.
    + destruct (find_duplicate block r) as [u|]; simpl; [|discriminate].
      intros H; injection H as <-. simpl. f_equal. apply IH. reflexivity.
Qed.

Lemma dedup_step_length unique block :
  List.length (dedup_step unique block) <= S (List.length unique).
Proof.
  unfold dedup_step. destruct (negb (truthy (block_text block))); [lia|].
  destruct (find_duplicate block unique) as [u|] eqn:E.
  - rewrite (find_duplicate_length _ _ E). lia.
  - rewrite length_app. simpl. lia.
Qed.

Lemma fold_dedup_length blocks unique :
  List.length (fold_left dedup_step blocks unique)
  <= List.length unique + List.length blocks.
Proof.
  revert unique. induction blocks as [|b r IH]; intros unique; simpl.
  - lia.
  - specialize (IH (dedup_step unique b)).
    pose proof (dedup_step_length unique b). lia.
Qed.

(** With one block kept and a similar block coming, one block is kept,
    and it is one of the two. *)
Lemma dedup_step_single e block :
  (80 < similarity block e)%Z ->
  dedup_step [e] block = [e] \/ dedup_step [e] block = [block].
Proof.
  intros H. apply Z.ltb_lt in H. unfold dedup_step.
  destruct (negb (truthy (block_text block))); [left; reflexivity|].
  simpl. rewrite H.
  destruct (has_bullets block && negb (has_bullets e));
    [right; reflexivity|].
  destruct (has_bullets e && negb (has_bullets block)); left; reflexivity.
Qed.

Lemma fold_dedup_single blocks e :
  In e blocks ->
  (forall b1 b2, In b1 blocks -> In b2 blocks -> (80 < similarity b1 b2)%Z) ->
  forall rest, incl rest blocks ->
  exists x, In x blocks /\ fold_left dedup_step rest [e] = [x].
Proof.
  intros He Hsim rest. revert e He.
  induction rest as [|b r IH]; intros e He Hincl; simpl.
  - eauto.
  - assert (Hb : In b blocks) by (apply Hincl; left; reflexivity).
    assert (Hr : incl r blocks) by (intros x Hx; apply Hincl; right; exact Hx).
    destruct (dedup_step_single e b (Hsim b e Hb He)) as [-> | ->]; auto.
Qed.

Lemma group_blocks_solid lines current :
  Forall (fun l => strip l <> []) current ->
  Forall solid (group_blocks lines current).
Proof.
  revert current. induction lines as [|l r IH]; intros current Hc; simpl.
  - destruct current; constructor; [|constructor].
    split; [discriminate | exact Hc].
  - destruct (str_eqb (strip l) []) eqn:E.
    + destruct current as [|c cs].
      * apply IH. constructor.
      * constructor; [split; [discriminate | exact Hc] |].
        apply IH. constructor.
    + apply IH. apply Forall_app. split; [exact Hc|].
      constructor; [|constructor]. apply str_eqb_neq. exact E.
Qed.

Lemma join_head_nonempty sep x r : x <> [] -> join sep (x :: r) <> [].
Proof.
  intros Hx. simpl. destruct r; [exact Hx|].
  destruct x; [congruence | discriminate].
Qed.

Lemma solid_block_text block : solid block -> truthy (block_text block) = true.
Proof.
  intros [Hne Hall]. apply truthy_cons. unfold block_text.
  destruct block as [|l r]; [congruence|].
  inversion Hall as [|? ? Hl Hr]; subst.
  simpl. assert (T : truthy (strip l) = true) by (apply truthy_cons; exact Hl).
  rewrite T. simpl map. apply join_head_nonempty. exact Hl.
Qed.

(** C7.  The deduplicator keeps at most as many blocks as it was given.
    It keeps exactly one when there is a block at all and every two
    blocks score above 80: the comparison is strict, a pair that scores
    exactly 80 is not a pair of duplicates. *)
Theorem dedup_keeps_at_most (content_lines : list str) :
  let content_blocks := group_blocks content_lines [] in
  List.length (unique_blocks_of content_blocks) <= List.length content_blocks
  /\ (content_blocks <> [] ->
      (forall b1 b2, In b1 content_blocks -> In b2 content_blocks ->
                     (80 < similarity b1 b2)%Z) ->
      List.length (unique_blocks_of content_blocks) = 1).
Proof.
  intros content_blocks. split.
  - unfold unique_blocks_of.
    pose proof (fold_dedup_length content_blocks []). simpl in *. lia.
  - intros Hne Hsim.
    pose proof (group_blocks_solid content_lines (current := []) (Forall_nil _))
      as Hsolid.
    fold content_blocks in Hsolid.
    destruct content_blocks as [|b r] eqn:E; [congruence|].
    unfold unique_blocks_of. simpl fold_left.
    assert (Hb : dedup_step [] b = [b]).
    { unfold dedup_step. inversion Hsolid; subst.
      rewrite solid_block_text by assumption. reflexivity. }
    rewrite Hb.
    destruct (fold_dedup_single (blocks := b :: r) b (or_introl eq_refl) Hsim
                (rest := r)) as [x [_ Hx]].
    { intros y Hy; right; exact Hy. }
    rewrite Hx. reflexivity.
Qed.

End Deduplication.

(** Witness of C7: two copies of one block. *)
Lemma dedup_keeps_at_most_witness :
  List.length
    (@AdvancedFileGeneratorV2.unique_blocks_of basic_unicode indel_fuzz
       (AdvancedFileGeneratorV2.group_blocks
          [py "Built a web crawler"; []; py "Built a web crawler"] []))
  = 1.
Proof.
  pose proof (@dedup_keeps_at_most basic_unicode indel_fuzz
                [py "Built a web crawler"; []; py "Built a web crawler"]) as H.
  cbv zeta in H. destruct H as [_ H]. apply H.
  - vm_compute. discriminate.
  - intros b1 b2 H1 H2. vm_compute in H1, H2.
    destruct H1 as [<- | [<- | []]]; destruct H2 as [<- | [<- | []]];
      vm_compute; reflexivity.
Defined.

(** Counterexample to C7 as stated: two blocks that score exactly 80,
    each scoring 100 with itself, are both kept. *)
Lemma dedup_threshold_is_strict :
  let content_blocks :=
    AdvancedFileGeneratorV2.group_blocks [py "abcde"; []; py "abcdf"] [] in
  content_blocks <> []
  /\ (forall b1 b2, In b1 content_blocks -> In b2 content_blocks ->
        (80 <= @AdvancedFileGeneratorV2.similarity basic_unicode indel_fuzz
                 b1 b2)%Z)
  /\ List.length
       (@AdvancedFileGeneratorV2.unique_blocks_of basic_unicode indel_fuzz
          content_blocks) = 2.
Proof.
  cbv zeta. repeat apply conj.
  - vm_compute. discriminate.
  - intros b1 b2 H1 H2. vm_compute in H1, H2.
    destruct H1 as [<- | [<- | []]]; destruct H2 as [<- | [<- | []]];
      vm_compute; discriminate.
  - vm_compute. reflexivity.
Qed.

Section BulletPreference.
Context {U : Unicode} {F : Fuzz}.
Import AdvancedFileGeneratorV2.

Lemma group_blocks_app block rest current :
  Forall (fun l => strip l <> []) block ->
  group_blocks (block ++ rest) current = group_blocks rest (current ++ block).
Proof.
  revert current. induction block as [|l r IH]; intros current H; simpl.
  - rewrite app_nil_r. reflexivity.
  - inversion H as [|? ? Hl Hr]; subst.
    apply str_eqb_neq in Hl. rewrite Hl.
    rewrite IH by assumption. rewrite <- app_assoc. reflexivity.
Qed.

Lemma group_blocks_two p q :
  solid p -> solid q -> group_blocks (p ++ [[]] ++ q) [] = [p; q].
Proof.
  intros [Hp Hpl] [Hq Hql].
  rewrite group_blocks_app by assumption. simpl app.
  change (group_blocks ([] :: q) p)
    with (match p with
          | [] => group_blocks q []
          | _ :: _ => p :: group_blocks q []
          end).
  destruct p as [|x p']; [congruence|].
  f_equal.
  pose proof (@group_blocks_app q [] [] Hql) as H. rewrite app_nil_r in H.
  rewrite H. simpl. destruct q; [congruence | reflexivity].
Qed.

(** The inner loop stops at the first kept block that scores above 80
    against the scanned block; of these two the one with the bullets
    stays, the kept one when both or neither have bullets. *)
Lemma find_duplicate_first block existing_block (earlier later : list (list str)) :
  Forall (fun kept => (similarity block kept <= 80)%Z) earlier ->
  (80 < similarity block existing_block)%Z ->
  find_duplicate block (earlier ++ existing_block :: later)
  = Some (earlier
          ++ (if has_bullets block && negb (has_bullets existing_block)
              then block else existing_block) :: later).
Proof.
  intros He Hs. induction He as [|kept r Hk _ IH].
  - cbn [app find_duplicate]. apply Z.ltb_lt in Hs. rewrite Hs.
    destruct (has_bullets block && negb (has_bullets existing_block));
      [|destruct (has_bullets existing_block && negb (has_bullets block))];
      reflexivity.
  - cbn [app find_duplicate]. apply Z.ltb_ge in Hk. rewrite Hk, IH.
    reflexivity.
Qed.

(** C3.  Of two blocks that score above 80, one with a line that starts
    with [*] or [-] and one without, the deduplicator keeps the one with
    the bullets, whichever comes first, when the two are all there is.
    Among more blocks the scanned block is set against the kept blocks
    in their order, and the first that scores above 80 against it is the
    one that counts: the bulleted block takes the place of the prose
    block, and the prose block is dropped for the bulleted one, when no
    kept block before them scores above 80 against the scanned block.
    The markers are [*] and [-]: a line that starts with the bullet
    character U+2022 is not a bulleted line for the deduplicator. *)
Theorem dedup_prefers_bullets (prose bulleted : list str)
        (earlier later : list (list str)) :
  solid prose -> solid bulleted ->
  has_bullets prose = false -> has_bullets bulleted = true ->
  (80 < similarity bulleted prose)%Z ->
  (80 < similarity prose bulleted)%Z ->
  (_deduplicate_project_content (prose ++ [[]] ++ bulleted) = bulleted ++ [[]]
   /\ _deduplicate_project_content (bulleted ++ [[]] ++ prose)
      = bulleted ++ [[]])
  /\ (Forall (fun kept => (similarity bulleted kept <= 80)%Z) earlier ->
      dedup_step (earlier ++ prose :: later) bulleted
      = earlier ++ bulleted :: later)
  /\ (Forall (fun kept => (similarity prose kept <= 80)%Z) earlier ->
      dedup_step (earlier ++ bulleted :: later) prose
      = earlier ++ bulleted :: later).
Proof.
  intros Hp Hq Bp Bq S1 S2.
  pose proof (solid_block_text Hp) as Tp.
  pose proof (solid_block_text Hq) as Tq.
  repeat apply conj.
  - apply Z.ltb_lt in S1.
    unfold _deduplicate_project_content.
    rewrite (group_blocks_two Hp Hq).
    destruct (prose ++ [[]] ++ bulleted) eqn:E.
    { destruct prose; [destruct Hp; congruence | discriminate]. }
    unfold unique_blocks_of. simpl fold_left.
    unfold dedup_step at 2. rewrite Tp. simpl.
    unfold dedup_step. rewrite Tq. simpl. rewrite S1, Bp, Bq. simpl.
    rewrite app_nil_r. reflexivity.
  - apply Z.ltb_lt in S2.
    unfold _deduplicate_project_content.
    rewrite (group_blocks_two Hq Hp).
    destruct (bulleted ++ [[]] ++ prose) eqn:E.
    { destruct bulleted; [destruct Hq; congruence | discriminate]. }
    unfold unique_blocks_of. simpl fold_left.
    unfold dedup_step at 2. rewrite Tq. simpl.
    unfold dedup_step. rewrite Tp. simpl. rewrite S2, Bp, Bq. simpl.
    rewrite app_nil_r. reflexivity.
  - intros He. unfold dedup_step. rewrite Tq. cbn [negb].
    rewrite (@find_duplicate_first _ _ _ later He S1), Bp, Bq. reflexivity.
  - intros He. unfold dedup_step. rewrite Tp. cbn [negb].
    rewrite (@find_duplicate_first _ _ _ later He S2), Bp, Bq. reflexivity.
Qed.

End BulletPreference.

Lemma solid_singleton (l : str) : strip l <> [] -> solid [l].
Proof.
  intros H. split; [discriminate|]. constructor; [exact H | constructor].
Qed.

(** Witness of C3: a sentence, and the same sentence as a list item,
    alone and after a block of another kind. *)
Lemma dedup_prefers_bullets_witness :
  (@AdvancedFileGeneratorV2._deduplicate_project_content
     basic_unicode indel_fuzz
     ([py "Built a web crawler"] ++ [[]] ++ [py "* Built a web crawler"])
   = [py "* Built a web crawler"] ++ [[]]
   /\ @AdvancedFileGeneratorV2._deduplicate_project_content
        basic_unicode indel_fuzz
        ([py "* Built a web crawler"] ++ [[]] ++ [py "Built a web crawler"])
      = [py "* Built a web crawler"] ++ [[]])
  /\ @AdvancedFileGeneratorV2.dedup_step basic_unicode indel_fuzz
       ([[py "Led a team of five"]] ++ [py "Built a web crawler"] :: [])
       [py "* Built a web crawler"]
     = [[py "Led a team of five"]] ++ [py "* Built a web crawler"] :: []
  /\ @AdvancedFileGeneratorV2.dedup_step basic_unicode indel_fuzz
       ([[py "Led a team of five"]] ++ [py "* Built a web crawler"] :: [])
       [py "Built a web crawler"]
     = [[py "Led a team of five"]] ++ [py "* Built a web crawler"] :: [].
Proof.
  assert (H := @dedup_prefers_bullets basic_unicode indel_fuzz
                 [py "Built a web crawler"] [py "* Built a web crawler"]
                 [[py "Led a team of five"]] []).
  assert (S1 : solid [py "Built a web crawler"])
    by (apply solid_singleton; vm_compute; discriminate).
  assert (S2 : solid [py "* Built a web crawler"])
    by (apply solid_singleton; vm_compute; discriminate).
  specialize (H S1 S2 eq_refl eq_refl eq_refl eq_refl).
  destruct H as (H1 & H2 & H3).
  repeat apply conj.
  - apply H1.
  - apply H1.
  - apply H2. repeat constructor. vm_compute. discriminate.
  - apply H3. repeat constructor. vm_compute. discriminate.
Defined.

(** Counterexample to C3 as stated.  A sentence and the same sentence
    behind the bullet character U+2022 score 95; the sentence comes
    first and is the block that is kept.  And among three blocks, a list
    item about an app, a sentence about a crawler and that sentence as a
    list item, the last is dropped and the sentence stays: the last
    scores 95 against the sentence, but the item about the app is the
    first kept block to score above 80 against it, and both have
    bullets. *)
Lemma dedup_bullet_preference_fails :
  (let prose := [py "Built a web crawler"] in
   let bulleted := [bullet :: py " Built a web crawler"] in
   @AdvancedFileGeneratorV2.similarity basic_unicode indel_fuzz bulleted prose
   = 95%Z
   /\ @AdvancedFileGeneratorV2._deduplicate_project_content
        basic_unicode indel_fuzz (prose ++ [[]] ++ bulleted)
      = prose ++ [[]])
  /\ (let other := [py "* Built the web crawler app"] in
      let prose := [py "Built a web crawler"] in
      let bulleted := [py "* Built a web crawler"] in
      @AdvancedFileGeneratorV2.similarity basic_unicode indel_fuzz
        bulleted prose = 95%Z
      /\ @AdvancedFileGeneratorV2.similarity basic_unicode indel_fuzz
           bulleted other = 83%Z
      /\ @AdvancedFileGeneratorV2.similarity basic_unicode indel_fuzz
           prose other = 78%Z
      /\ AdvancedFileGeneratorV2.has_bullets prose = false
      /\ AdvancedFileGeneratorV2.has_bullets bulleted = true
      /\ @AdvancedFileGeneratorV2._deduplicate_project_content
           basic_unicode indel_fuzz
           (other ++ [[]] ++ prose ++ [[]] ++ bulleted)
         = other ++ [[]] ++ prose ++ [[]]).
Proof. cbv zeta. repeat apply conj; vm_compute; reflexivity. Qed.

(** *** Searching and splitting *)



Lemma startswith_iff p s : startswith p s = true <-> exists t, s = p ++ t.
Proof.
  revert s. induction p as [|x p IH]; intros s; simpl.
  - split; eauto.
  - destruct s as [|y s].
    + split; [discriminate | intros [t H]; discriminate].
    + rewrite andb_true_iff, N.eqb_eq, IH. split.
      * intros [-> [t ->]]. eauto.
      * intros [t H]. injection H as -> ->. eauto.
Qed.

Lemma contains_iff p s : contains p s = true <-> infix p s.
Proof.
  unfold infix. induction s as [|c s IH]; simpl.
  - rewrite orb_false_r, startswith_iff. split.
    + intros [t H]. exists [], t. exact H.
    + intros [a [b H]]. destruct a; [eauto|discriminate].
  - rewrite orb_true_iff, startswith_iff, IH. split.
    + intros [[t H] | [a [b H]]].
      * exists [], t. exact H.
      * exists (c :: a), b. rewrite H. reflexivity.
    + intros [a [b H]]. destruct a as [|x a].
      * left. eauto.
      * right. injection H as _ H. eauto.
Qed.

Lemma infix_refl s : infix s s.
Proof. exists [], []. rewrite app_nil_r. reflexivity. Qed.

Lemma infix_trans r s t : infix r s -> infix s t -> infix r t.
Proof.
  intros [a [b ->]] [c [d ->]]. exists (c ++ a), (b ++ d).
  rewrite <- !app_assoc. reflexivity.
Qed.

Lemma contains_infix p r s :
  infix r s -> contains p s = false -> contains p r = false.
Proof.
  intros Hrs Hs. destruct (contains p r) eqn:E; [|reflexivity].
  apply contains_iff in E. pose proof (infix_trans E Hrs) as H.
  apply contains_iff in H. congruence.
Qed.

Lemma dropwhile_suffix f s : exists a, s = a ++ dropwhile f s.
Proof.
  induction s as [|c s [a IH]]; simpl.
  - exists []. reflexivity.
  - destruct (f c).
    + exists (c :: a). simpl. f_equal. exact IH.
    + exists []. reflexivity.
Qed.

Lemma strip_infix s : infix (strip s) s.
Proof.
  unfold strip, rstrip, lstrip.
  destruct (dropwhile_suffix is_space s) as [a Ha].
  destruct (dropwhile_suffix is_space (rev (dropwhile is_space s))) as [b Hb].
  apply (f_equal (@rev char)) in Hb. rewrite rev_involutive, rev_app_distr in Hb.
  exists a, (rev b). rewrite <- Hb. exact Ha.
Qed.

Lemma split_aux_skip sep x post :
  split_aux sep (List.length x) (x ++ post) = split_aux sep 0 post.
Proof.
  induction x as [|c x IH]; simpl; [reflexivity | exact IH].
Qed.

Lemma split_step sep c t :
  split sep (c :: t) =
  if startswith sep (c :: t) then [] :: split_aux sep (List.length sep - 1) t
  else match split sep t with
       | h :: r => (c :: h) :: r
       | [] => [[c]]
       end.
Proof. reflexivity. Qed.

Lemma contains_nil sep : sep <> [] -> contains sep [] = false.
Proof. destruct sep; [congruence | reflexivity]. Qed.

(** The first piece of a split is a prefix of the string and holds no
    separator. *)
Lemma split_head sep s :
  sep <> [] ->
  exists h tl rest,
    split sep s = h :: tl /\ s = h ++ rest /\ contains sep h = false.
Proof.
  intros Hsep. induction s as [|c t (h & tl & rest & Hs & Ht & Hc)].
  - exists [], [], []. repeat apply conj; auto using contains_nil.
  - rewrite split_step. destruct (startswith sep (c :: t)) eqn:E.
    + exists [], (split_aux sep (List.length sep - 1) t), (c :: t).
      repeat apply conj; auto using contains_nil.
    + rewrite Hs. exists (c :: h), tl, rest. repeat apply conj; auto.
      * simpl. f_equal. exact Ht.
      * simpl contains. rewrite Hc, orb_false_r.
        destruct (startswith sep (c :: h)) eqn:E'; [|reflexivity].
        apply startswith_iff in E' as [u Hu].
        assert (startswith sep (c :: t) = true).
        { apply startswith_iff. exists (u ++ rest).
          rewrite app_assoc, <- Hu, Ht. reflexivity. }
        congruence.
Qed.

(** A string without the separator is its own single piece. *)
Lemma split_none sep s :
  sep <> [] -> contains sep s = false -> split sep s = [s].
Proof.
  intros Hsep. induction s as [|c t IH]; intros H; [reflexivity|].
  simpl contains in H. apply orb_false_iff in H as [H1 H2].
  rewrite split_step, H1, (IH H2). reflexivity.
Qed.

(** A string with the separator splits at its first occurrence. *)
Lemma split_first sep s :
  sep <> [] -> contains sep s = true ->
  exists pre post,
    s = pre ++ sep ++ post /\ split sep s = pre :: split sep post
    /\ contains sep pre = false.
Proof.
  intros Hsep. induction s as [|c t IH]; intros H.
  - rewrite contains_nil in H by assumption. discriminate.
  - rewrite split_step. destruct (startswith sep (c :: t)) eqn:E.
    + pose proof E as E'. apply startswith_iff in E' as [post Hpost].
      exists [], post. repeat apply conj; auto using contains_nil.
      f_equal. destruct sep as [|x sep']; [congruence|].
      injection Hpost as -> ->.
      replace (List.length (x :: sep') - 1) with (List.length sep')
        by (simpl; lia).
      apply split_aux_skip.
    + simpl contains in H. rewrite E in H. simpl in H.
      destruct (IH H) as (pre & post & Ht & Hs & Hc).
      exists (c :: pre), post. rewrite Hs. repeat apply conj; auto.
      * simpl. f_equal. exact Ht.
      * simpl contains. rewrite Hc, orb_false_r.
        destruct (startswith sep (c :: pre)) eqn:E'; [|reflexivity].
        apply startswith_iff in E' as [u Hu].
        assert (startswith sep (c :: t) = true).
        { apply startswith_iff. exists (u ++ sep ++ post).
          rewrite app_assoc, <- Hu, Ht. reflexivity. }
        congruence.
Qed.

(** With the separator in the string, the second piece exists: it is a
    prefix of what follows the first occurrence. *)
Lemma split_second sep s :
  sep <> [] -> contains sep s = true ->
  exists pre post p1 tl rest,
    s = pre ++ sep ++ post /\ contains sep pre = false
    /\ split sep s = pre :: p1 :: tl /\ post = p1 ++ rest
    /\ contains sep p1 = false.
Proof.
  intros Hsep H. destruct (@split_first sep s Hsep H) as (pre & post & Hs & Hsp & Hc).
  destruct (@split_head sep post Hsep) as (p1 & tl & rest & H1 & H2 & H3).
  exists pre, post, p1, tl, rest. rewrite Hsp, H1. auto.
Qed.

(** The pieces of a split, joined by the separator, are the string. *)
Lemma join_split sep s : sep <> [] -> join sep (split sep s) = s.
Proof.
  intros Hsep. induction s as [s IH] using str_length_ind.
  destruct (contains sep s) eqn:E.
  - destruct (@split_first sep s Hsep E) as (pre & post & Hs & Hsp & _).
    rewrite Hsp. destruct (@split_head sep post Hsep) as (h & tl & _ & Hh & _).
    rewrite Hh. change (join sep (pre :: h :: tl))
      with (pre ++ sep ++ join sep (h :: tl)).
    rewrite <- Hh, IH, <- Hs; [reflexivity|].
    rewrite Hs, !length_app. destruct sep; [congruence | simpl; lia].
  - rewrite split_none by assumption. reflexivity.
Qed.

(** *** The preamble removal *)

Lemma preamble_short_not_nil : preamble_short <> [].
Proof. vm_compute. discriminate. Qed.

Lemma preamble_full_not_nil : preamble_full <> [].
Proof. vm_compute. discriminate. Qed.

Lemma closing_marker_not_nil : AdvancedFileGeneratorV2.closing_marker <> [].
Proof. vm_compute. discriminate. Qed.

Lemma preamble_rest_not_nil : AdvancedFileGeneratorV2.preamble_rest <> [].
Proof. vm_compute. discriminate. Qed.

Lemma prefix_infix h rest : infix h (h ++ rest).
Proof. exists [], rest. reflexivity. Qed.

(** The full sentence of the preamble begins with the short one. *)
Lemma contains_full_short text :
  contains preamble_full text = true -> contains preamble_short text = true.
Proof.
  intros H. apply contains_iff. apply contains_iff in H.
  refine (infix_trans _ H).
  exists [], (py " that will generate perfect files:"). vm_compute. reflexivity.
Qed.

(** *** The header *)

Lemma split_chr_step c t :
  split_chr nl (c :: t) =
  if N.eqb c nl then [] :: split_chr nl t
  else match split_chr nl t with
       | h :: r => (c :: h) :: r
       | [] => [[c]]
       end.
Proof. reflexivity. Qed.

Lemma split_chr_not_nil s : split_chr nl s <> [].
Proof.
  induction s as [|c t IH]; [discriminate|].
  rewrite split_chr_step. destruct (N.eqb c nl); [discriminate|].
  destruct (split_chr nl t); discriminate.
Qed.

(** The lines of a text, joined by line feeds, are the text. *)
Lemma join_split_chr s : join [nl] (split_chr nl s) = s.
Proof.
  induction s as [|c t IH]; [reflexivity|].
  rewrite split_chr_step. destruct (N.eqb c nl) eqn:E.
  - apply N.eqb_eq in E. subst c.
    pose proof (split_chr_not_nil t) as Hne.
    destruct (split_chr nl t) as [|h r]; [congruence|].
    change (join [nl] ([] :: h :: r)) with ([] ++ [nl] ++ join [nl] (h :: r)).
    rewrite IH. reflexivity.
  - pose proof (split_chr_not_nil t) as Hne.
    destruct (split_chr nl t) as [|h r]; [congruence|].
    destruct r as [|h' r'].
    + simpl in *. congruence.
    + change (join [nl] ((c :: h) :: h' :: r'))
        with (c :: (h ++ [nl] ++ join [nl] (h' :: r'))).
      change (join [nl] (h :: h' :: r'))
        with (h ++ [nl] ++ join [nl] (h' :: r')) in IH.
      rewrite IH. reflexivity.
Qed.

Lemma contains_not_nil p s : p <> [] -> contains p s = true -> s <> [].
Proof.
  intros Hp H ->. rewrite contains_nil in H by assumption. discriminate.
Qed.

Section Header.
Context {U : Unicode}.
Import AdvancedFileGeneratorV2.

Lemma restructure_loop_step i raw rest :
  restructure_loop i (raw :: rest) =
  if Nat.eqb i 0
     || (Nat.ltb i 5
         && (contains (py "Dr.") (strip raw)
             || any_in (map py ["Anthony"; "Anyanwu"]%string) (strip raw)))
  then
    if contains (py "Dr.") (cleaned_name raw)
    then build_header (cleaned_name raw) (S i) rest
    else strip raw :: restructure_loop (S i) rest
  else if is_section_start (strip raw) then strip raw :: rest
  else strip raw :: restructure_loop (S i) rest.
Proof. reflexivity. Qed.

Lemma restructure_loop_passes i lines :
  Forall trimmed lines ->
  Forall (fun l => contains (py "Dr.") (cleaned_name l) = false) lines ->
  restructure_loop i lines = lines.
Proof.
  revert i. induction lines as [|raw rest IH]; intros i Ht Hd; [reflexivity|].
  inversion Ht as [|? ? Hraw Hrest]; subst.
  inversion Hd as [|? ? Dr Drest]; subst.
  unfold trimmed in Hraw.
  rewrite restructure_loop_step, Dr, Hraw.
  rewrite (IH (S i) Hrest Drest).
  destruct (Nat.eqb i 0
            || Nat.ltb i 5
               && (contains (py "Dr.") raw
                   || any_in (map py ["Anthony"; "Anyanwu"]%string) raw));
    [reflexivity|].
  destruct (is_section_start raw); reflexivity.
Qed.

Lemma build_header_first name i lines :
  exists tail, join [nl] (build_header name i lines)
               = py "# " ++ name ++ nl :: tail.
Proof.
  unfold build_header.
  destruct (collect_titles i lines []) as [[job_titles i1] lines1].
  destruct (collect_contacts i1 lines1 []) as [[contact_items i2] lines2].
  destruct job_titles as [|j js]; destruct contact_items as [|c cs];
    eexists; cbn [app join]; rewrite <- app_assoc; reflexivity.
Qed.

Lemma clean_header_loop_step x r :
  FileGenerator.clean_header_loop (x :: r) =
  if truthy (strip x) then
    if existsb (str_eqb (strip x)) FileGenerator.standalone_titles
    then FileGenerator.clean_header_loop r
    else strip x :: FileGenerator.clean_header_loop r
  else FileGenerator.clean_header_loop r.
Proof. reflexivity. Qed.

Lemma clean_header_loop_first content_lines l :
  In l content_lines -> strip l <> [] ->
  ~ In (strip l) FileGenerator.standalone_titles ->
  exists name tail,
    FileGenerator.clean_header_loop content_lines = name :: tail
    /\ name <> [].
Proof.
  induction content_lines as [|x r IH]; intros Hin Hl Ht; [contradiction|].
  rewrite clean_header_loop_step. destruct (truthy (strip x)) eqn:Tx.
  - destruct (existsb (str_eqb (strip x)) FileGenerator.standalone_titles)
      eqn:Ex.
    + destruct Hin as [-> | Hin]; [|exact (IH Hin Hl Ht)].
      exfalso. apply Ht. apply existsb_exists in Ex as [t [Hint Heq]].
      apply str_eqb_eq in Heq. subst. exact Hint.
    + exists (strip x), (FileGenerator.clean_header_loop r).
      split; [reflexivity|]. apply truthy_cons. exact Tx.
  - destruct Hin as [-> | Hin]; [|exact (IH Hin Hl Ht)].
    apply truthy_nil in Tx. congruence.
Qed.

Lemma build_header_cons name i lines :
  exists tail, tail <> []
               /\ build_header name i lines = (py "# " ++ name) :: tail.
Proof.
  unfold build_header.
  destruct (collect_titles i lines []) as [[job_titles i1] lines1].
  destruct (collect_contacts i1 lines1 []) as [[contact_items i2] lines2].
  destruct job_titles as [|j js]; destruct contact_items as [|c cs];
    eexists; (split; [|cbn [app]; reflexivity]); discriminate.
Qed.

(** The lines the loop goes over before it finds a name are copied
    trimmed. *)
Lemma restructure_loop_skips i (skipped lines : list str) :
  Forall (fun l => contains (py "Dr.") (cleaned_name l) = false
                   /\ is_section_start (strip l) = false) skipped ->
  restructure_loop i (skipped ++ lines)
  = map strip skipped ++ restructure_loop (i + List.length skipped) lines.
Proof.
  intros H. revert i. induction H as [|raw r [Hd Hs] _ IH]; intros i.
  - simpl. rewrite Nat.add_0_r. reflexivity.
  - cbn [app map List.length]. rewrite restructure_loop_step, Hd, Hs.
    rewrite IH. replace (S i + List.length r) with (i + S (List.length r))
      by lia.
    destruct (Nat.eqb i 0
              || Nat.ltb i 5
                 && (contains (py "Dr.") (strip raw)
                     || any_in (map py ["Anthony"; "Anyanwu"]%string)
                               (strip raw))); reflexivity.
Qed.

(** Without a name among the lines the loop still looks at, the lines
    come back in order: trimmed up to some line, as they were from
    there on. *)
Lemma restructure_loop_no_name i (lines : list str) :
  Forall (fun l => contains (py "Dr.") (cleaned_name l) = false)
         (firstn (5 - i) lines) ->
  exists n,
    restructure_loop i lines = map strip (firstn n lines) ++ skipn n lines.
Proof.
  revert i. induction lines as [|raw rest IH]; intros i H.
  - exists 0. reflexivity.
  - rewrite restructure_loop_step.
    destruct (Nat.eqb i 0
              || Nat.ltb i 5
                 && (contains (py "Dr.") (strip raw)
                     || any_in (map py ["Anthony"; "Anyanwu"]%string)
                               (strip raw))) eqn:C.
    + assert (Hi : i < 5).
      { apply orb_true_iff in C as [C | C].
        - apply Nat.eqb_eq in C. lia.
        - apply andb_true_iff in C as [C _]. apply Nat.ltb_lt in C. exact C. }
      destruct (5 - i) as [|k] eqn:K; [lia|].
      cbn [firstn] in H. inversion H as [|? ? Hraw Hrest]; subst.
      rewrite Hraw.
      destruct (IH (S i)) as [n Hn].
      { replace (5 - S i) with k by lia. exact Hrest. }
      exists (S n). rewrite Hn. reflexivity.
    + destruct (is_section_start (strip raw)).
      * exists 1. reflexivity.
      * destruct (IH (S i)) as [n Hn].
        { destruct (5 - i) as [|k] eqn:K.
          - replace (5 - S i) with 0 by lia. constructor.
          - cbn [firstn] in H. inversion H as [|? ? Hraw Hrest]; subst.
            replace (5 - S i) with k by lia. exact Hrest. }
        exists (S n). rewrite Hn. reflexivity.
Qed.

Lemma clean_header_loop_skips (skipped lines : list str) :
  Forall (fun l => strip l = []
                   \/ In (strip l) FileGenerator.standalone_titles) skipped ->
  FileGenerator.clean_header_loop (skipped ++ lines)
  = FileGenerator.clean_header_loop lines.
Proof.
  induction 1 as [|x r Hx _ IH]; [reflexivity|].
  cbn [app]. rewrite clean_header_loop_step, IH.
  destruct (truthy (strip x)) eqn:T; [|reflexivity].
  destruct Hx as [Hx | Hx].
  - rewrite Hx in T. discriminate.
  - destruct (existsb (str_eqb (strip x)) FileGenerator.standalone_titles)
      eqn:E; [reflexivity|].
    assert (E' : existsb (str_eqb (strip x)) FileGenerator.standalone_titles
                 = true).
    { apply existsb_exists. exists (strip x). split; [exact Hx|].
      apply str_eqb_refl. }
    congruence.
Qed.

(** C6.  The header restructurer looks for the name among the first
    five lines.  A line is the name when, trimmed, without its [**] and
    trimmed again, it contains ["Dr."]; from the second line on the
    trimmed line itself must hold ["Dr."], ["Anthony"] or ["Anyanwu"],
    and the lines before it, which are copied trimmed, must not open a
    section.  The header block then begins with the line [# name], and
    the name is not empty.  When none of the first five lines is such a
    name no header block is built: the lines come back in their order,
    trimmed up to some line and as they were from there on, so that a
    text whose lines have no white space at their ends comes back as it
    is.  In the first generator the header that is stored begins with
    the first line of the bucket that is neither blank nor one of the
    titles dropped when they stand alone, trimmed, and goes on with the
    lines after it. *)
Theorem header_has_name :
  (forall text first rest,
      split_chr nl text = first :: rest ->
      contains (py "Dr.") (cleaned_name first) = true ->
      cleaned_name first <> []
      /\ exists tail,
           _restructure_header text
           = py "# " ++ cleaned_name first ++ nl :: tail)
  /\ (forall text skipped line rest,
         split_chr nl text = skipped ++ line :: rest ->
         List.length skipped < 5 ->
         Forall (fun l => contains (py "Dr.") (cleaned_name l) = false
                          /\ is_section_start (strip l) = false) skipped ->
         skipped = []
         \/ contains (py "Dr.") (strip line)
            || any_in (map py ["Anthony"; "Anyanwu"]%string) (strip line)
            = true ->
         contains (py "Dr.") (cleaned_name line) = true ->
         cleaned_name line <> []
         /\ exists tail,
              tail <> []
              /\ _restructure_header text
                 = join [nl] (map strip skipped
                              ++ (py "# " ++ cleaned_name line) :: tail))
  /\ (forall text,
         Forall (fun l => contains (py "Dr.") (cleaned_name l) = false)
                (firstn 5 (split_chr nl text)) ->
         (exists n,
            _restructure_header text
            = join [nl] (map strip (firstn n (split_chr nl text))
                         ++ skipn n (split_chr nl text)))
         /\ (Forall trimmed (split_chr nl text) ->
             _restructure_header text = text))
  /\ (forall skipped line rest,
         Forall (fun l => strip l = []
                          \/ In (strip l) FileGenerator.standalone_titles)
                skipped ->
         strip line <> [] ->
         ~ In (strip line) FileGenerator.standalone_titles ->
         FileGenerator._clean_header_content (skipped ++ line :: rest)
         = join [nl] (strip line :: FileGenerator.clean_header_loop rest)).
Proof.
  repeat apply conj.
  - intros text first rest Hs Hd. split.
    + apply (@contains_not_nil (py "Dr.")); [discriminate | exact Hd].
    + unfold _restructure_header. rewrite Hs.
      rewrite restructure_loop_step. simpl orb. cbv iota. rewrite Hd.
      apply build_header_first.
  - intros text skipped line rest Hs Hlen Hsk Hlooks Hd. split.
    + apply (@contains_not_nil (py "Dr.")); [discriminate | exact Hd].
    + unfold _restructure_header. rewrite Hs.
      rewrite (restructure_loop_skips 0 (line :: rest) Hsk).
      rewrite restructure_loop_step, Hd. cbn [Nat.add].
      assert (C : Nat.eqb (List.length skipped) 0
                  || Nat.ltb (List.length skipped) 5
                     && (contains (py "Dr.") (strip line)
                         || any_in (map py ["Anthony"; "Anyanwu"]%string)
                                   (strip line)) = true).
      { destruct Hlooks as [-> | Hl]; [reflexivity|].
        apply Nat.ltb_lt in Hlen. rewrite Hlen, Hl. apply orb_true_r. }
      rewrite C.
      destruct (build_header_cons (cleaned_name line)
                  (S (List.length skipped)) rest) as (tail & Hne & Hb).
      exists tail. split; [exact Hne|]. rewrite Hb. reflexivity.
  - intros text Hd.
    destruct (restructure_loop_no_name 0 (split_chr nl text) Hd) as [n Hn].
    split.
    + exists n. unfold _restructure_header. rewrite Hn. reflexivity.
    + intros Ht. unfold _restructure_header. rewrite Hn.
      assert (E : map strip (firstn n (split_chr nl text))
                  = firstn n (split_chr nl text)).
      { rewrite <- (map_id (firstn n (split_chr nl text))) at 2.
        apply map_ext_in. intros l Hl. rewrite Forall_forall in Ht.
        apply Ht. rewrite <- (firstn_skipn n (split_chr nl text)).
        apply in_or_app. left. exact Hl. }
      rewrite E, firstn_skipn. apply join_split_chr.
  - intros skipped line rest Hsk Hl Ht.
    unfold FileGenerator._clean_header_content.
    destruct (skipped ++ line :: rest) eqn:E.
    { destruct skipped; discriminate. }
    rewrite <- E, (clean_header_loop_skips (line :: rest) Hsk).
    rewrite clean_header_loop_step.
    apply truthy_cons in Hl. rewrite Hl.
    destruct (existsb (str_eqb (strip line)) FileGenerator.standalone_titles)
      eqn:Ex; [|reflexivity].
    exfalso. apply Ht. apply existsb_exists in Ex as [t [Hint Heq]].
    apply str_eqb_eq in Heq. subst. exact Hint.
Qed.

End Header.

(** Witness of C6. *)
Lemma header_has_name_witness :
  (cleaned_name (py "**Dr. Jane Doe**") <> []
   /\ exists tail,
        @AdvancedFileGeneratorV2._restructure_header basic_unicode
          (py "**Dr. Jane Doe**\nAI Engineer\njane@x.com")
        = py "# " ++ cleaned_name (py "**Dr. Jane Doe**") ++ nl :: tail)
  /\ (cleaned_name (py " **Dr. Jane Doe** ") <> []
      /\ exists tail,
           tail <> []
           /\ @AdvancedFileGeneratorV2._restructure_header basic_unicode
                (py " Curriculum vitae \n **Dr. Jane Doe** \nAI Engineer")
              = join [nl] (map strip [py " Curriculum vitae "]
                           ++ (py "# " ++ cleaned_name (py " **Dr. Jane Doe** "))
                              :: tail))
  /\ ((exists n,
         @AdvancedFileGeneratorV2._restructure_header basic_unicode
           (py " Jane Doe \nAI Engineer")
         = join [nl]
             (map strip (firstn n (split_chr nl (py " Jane Doe \nAI Engineer")))
              ++ skipn n (split_chr nl (py " Jane Doe \nAI Engineer"))))
      /\ @AdvancedFileGeneratorV2._restructure_header basic_unicode
           (py "Jane Doe\nAI Engineer") = py "Jane Doe\nAI Engineer")
  /\ FileGenerator._clean_header_content
       ([py "Dr."; []] ++ py " Jane Doe " :: [py "jane@x.com"])
     = join [nl] (strip (py " Jane Doe ")
                  :: FileGenerator.clean_header_loop [py "jane@x.com"]).
Proof.
  destruct (@header_has_name basic_unicode) as (H1 & H2 & H3 & H4).
  assert (W2 : Forall (fun l => contains (py "Dr.") (cleaned_name l) = false
                               /\ @AdvancedFileGeneratorV2.is_section_start
                                    basic_unicode (strip l) = false)
                      [py " Curriculum vitae "]).
  { constructor; [|constructor]. split; vm_compute; reflexivity. }
  assert (L2 : List.length [py " Curriculum vitae "] < 5) by (simpl; lia).
  repeat apply conj.
  - apply (H1 (py "**Dr. Jane Doe**\nAI Engineer\njane@x.com")
              (py "**Dr. Jane Doe**") [py "AI Engineer"; py "jane@x.com"]);
      vm_compute; reflexivity.
  - apply (H1 (py "**Dr. Jane Doe**\nAI Engineer\njane@x.com")
              (py "**Dr. Jane Doe**") [py "AI Engineer"; py "jane@x.com"]);
      vm_compute; reflexivity.
  - apply (H2 (py " Curriculum vitae \n **Dr. Jane Doe** \nAI Engineer")
              [py " Curriculum vitae "] (py " **Dr. Jane Doe** ")
              [py "AI Engineer"] eq_refl L2 W2 (or_intror eq_refl) eq_refl).
  - apply (H2 (py " Curriculum vitae \n **Dr. Jane Doe** \nAI Engineer")
              [py " Curriculum vitae "] (py " **Dr. Jane Doe** ")
              [py "AI Engineer"] eq_refl L2 W2 (or_intror eq_refl) eq_refl).
  - apply (H3 (py " Jane Doe \nAI Engineer")).
    constructor; [vm_compute; reflexivity|].
    constructor; [vm_compute; reflexivity | constructor].
  - apply (H3 (py "Jane Doe\nAI Engineer")).
    + constructor; [vm_compute; reflexivity|].
      constructor; [vm_compute; reflexivity | constructor].
    + constructor; [vm_compute; reflexivity|].
      constructor; [vm_compute; reflexivity | constructor].
  - apply (H4 [py "Dr."; []] (py " Jane Doe ") [py "jane@x.com"]).
    + constructor; [right; vm_compute; left; reflexivity|].
      constructor; [left; reflexivity | constructor].
    + vm_compute. discriminate.
    + vm_compute. intros [H | [H | [H | [H | []]]]]; discriminate.
Defined.

(** Counterexample to C6 as stated.  The text begins with the line
    ["Jane Doe"], before the first section header, and gets no header
    block and no name: it is returned unchanged.  A text with nothing
    but a blank line before the header is not returned unchanged: the
    blank line loses its white space.  In the first generator a header
    made of the line ["Dr."] is stored empty. *)
Lemma header_without_name :
  (let text := py "Jane Doe\nAI Engineer\njane@x.com\nPROFESSIONAL SUMMARY\nExperienced engineer." in
   @AdvancedFileGeneratorV2._restructure_header basic_unicode text = text
   /\ startswith (py "# ")
        (@AdvancedFileGeneratorV2._restructure_header basic_unicode text)
      = false)
  /\ @AdvancedFileGeneratorV2._restructure_header basic_unicode
       (py "  \nPROFESSIONAL SUMMARY") = py "\nPROFESSIONAL SUMMARY"
  /\ @FileGenerator._parse_resume_sections basic_unicode
       (py "Dr.\nSKILLS\nPython")
     = [(py "header", []); (py "skills", py "Python")].
Proof. cbv zeta. repeat apply conj; vm_compute; reflexivity. Qed.

(** *** The threshold *)

(** The constructor raises for the empty output directory, and builds
    the generator for a directory with a plain name. *)
Lemma init_output_dir :
  AdvancedFileGeneratorV2.init
    [(py "output_dir", AdvancedFileGeneratorV2.VStr [])] = None
  /\ AdvancedFileGeneratorV2.init
       [(py "output_dir", AdvancedFileGeneratorV2.VStr (py "out"))]
     = Some {| AdvancedFileGeneratorV2.output_dir := py "out";
               AdvancedFileGeneratorV2.pdf_options :=
                 AdvancedFileGeneratorV2.default_pdf_options |}.
Proof. apply conj; vm_compute; reflexivity. Qed.

Lemma bind_output_dir_unknown kwargs bound k v :
  In (k, v) kwargs -> k <> py "output_dir" ->
  AdvancedFileGeneratorV2.bind_output_dir kwargs bound = None.
Proof.
  revert bound. induction kwargs as [|[k' v'] r IH]; intros bound Hin Hk;
    [contradiction|].
  cbn [AdvancedFileGeneratorV2.bind_output_dir].
  destruct (str_eqb k' (py "output_dir")) eqn:E; [|reflexivity].
  destruct Hin as [H | Hin].
  - injection H as -> ->. apply str_eqb_eq in E. congruence.
  - destruct bound; [reflexivity|]. apply IH; assumption.
Qed.

Section Threshold.
Context {U : Unicode} {F : Fuzz}.
Import AdvancedFileGeneratorV2.

(** C9.  The generator has no threshold to configure.  Its constructor
    knows the one option [output_dir]: a call that names
    [similarity_threshold] is refused whatever the value, in or out of
    the range.  The duplicate test is the fixed comparison with 80: of
    two blocks, one is kept exactly when the second scores above 80
    against the first. *)
Theorem threshold_is_not_an_option
        (kwargs : list (str * value)) (v : value) (p q : list str) :
  In (py "similarity_threshold", v) kwargs ->
  solid p -> solid q ->
  init kwargs = None
  /\ init [] = Some {| output_dir := py "outputs";
                       pdf_options := default_pdf_options |}
  /\ (List.length (unique_blocks_of [p; q]) = 1
      <-> (80 < similarity q p)%Z).
Proof.
  intros Hin Hp Hq. repeat apply conj.
  - unfold init.
    rewrite (@bind_output_dir_unknown kwargs None _ _ Hin); [reflexivity|].
    vm_compute. discriminate.
  - reflexivity.
  - unfold unique_blocks_of. simpl fold_left.
    unfold dedup_step at 2. rewrite (solid_block_text Hp). simpl.
    unfold dedup_step. rewrite (solid_block_text Hq). simpl.
    destruct (Z.ltb 80 (similarity q p)) eqn:E.
    + apply Z.ltb_lt in E. intros _. exact E.
    + simpl. discriminate.
  - unfold unique_blocks_of. simpl fold_left.
    unfold dedup_step at 2. rewrite (solid_block_text Hp). simpl.
    unfold dedup_step. rewrite (solid_block_text Hq). simpl.
    intros E. apply Z.ltb_lt in E. rewrite E.
    destruct (has_bullets q && negb (has_bullets p));
      [|destruct (has_bullets p && negb (has_bullets q))]; reflexivity.
Qed.

End Threshold.

(** Witness of C9. *)
Lemma threshold_is_not_an_option_witness :
  AdvancedFileGeneratorV2.init
    [(py "output_dir", AdvancedFileGeneratorV2.VStr (py "out"));
     (py "similarity_threshold", AdvancedFileGeneratorV2.VInt 90)] = None
  /\ AdvancedFileGeneratorV2.init []
     = Some {| AdvancedFileGeneratorV2.output_dir := py "outputs";
               AdvancedFileGeneratorV2.pdf_options :=
                 AdvancedFileGeneratorV2.default_pdf_options |}
  /\ (List.length
        (@AdvancedFileGeneratorV2.unique_blocks_of basic_unicode indel_fuzz
           [[py "abcde"]; [py "abcdf"]]) = 1
      <-> (80 < @AdvancedFileGeneratorV2.similarity basic_unicode indel_fuzz
                  [py "abcdf"] [py "abcde"])%Z).
Proof.
  apply (@threshold_is_not_an_option basic_unicode indel_fuzz
           [(py "output_dir", AdvancedFileGeneratorV2.VStr (py "out"));
            (py "similarity_threshold", AdvancedFileGeneratorV2.VInt 90)]
           (AdvancedFileGeneratorV2.VInt 90)).
  - right. left. reflexivity.
  - apply solid_singleton. vm_compute. discriminate.
  - apply solid_singleton. vm_compute. discriminate.
Defined.

(** Counterexample to C9 as stated: a threshold of 50, inside the
    range, is not taken as configuration but refused, just as one of
    150 is. *)
Lemma threshold_in_range_refused :
  AdvancedFileGeneratorV2.init
    [(py "similarity_threshold", AdvancedFileGeneratorV2.VInt 50)] = None
  /\ AdvancedFileGeneratorV2.init
       [(py "similarity_threshold", AdvancedFileGeneratorV2.VInt 150)] = None.
Proof. apply conj; vm_compute; reflexivity. Qed.

(* ================================================================== *)
(** ** Further properties of the passes                                *)
(* ================================================================== *)

(** *** The jamming repair and its fallback *)

Lemma collapse_spaces_no_double s :
  contains [space; space] (collapse_spaces s) = false.
Proof.
  induction s as [|a t IH]; [reflexivity|].
  destruct t as [|b t'].
  - simpl. rewrite andb_false_r. reflexivity.
  - change (collapse_spaces (a :: b :: t'))
      with (if N.eqb a space && N.eqb b space then collapse_spaces (b :: t')
            else a :: collapse_spaces (b :: t')).
    destruct (N.eqb a space && N.eqb b space) eqn:E; [exact IH|].
    destruct (collapse_spaces_head b t') as [r Hr]. rewrite Hr in *.
    change (contains [space; space] (a :: b :: r))
      with ((N.eqb space a && (N.eqb space b && true))
            || contains [space; space] (b :: r)).
    rewrite IH, andb_true_r, (N.eqb_sym space a), (N.eqb_sym space b), E.
    reflexivity.
Qed.

Section MoreJamming.
Context {U : Unicode}.
Import TextProcessor.

(** X1.  Whatever the text, the repaired text has no two spaces in a
    row. *)
Theorem fix_jamming_no_double_space (text : str) :
  contains (py "  ") (_fix_jamming_issues text) = false.
Proof.
  unfold _fix_jamming_issues. cbv zeta. apply collapse_spaces_no_double.
Qed.

(** X2.  The fallback of the file generator changes a text by putting
    spaces in and in no other way: without its spaces the text is what
    it was. *)
Theorem basic_fixes_only_add_spaces (text : str) :
  non_space (FileGenerator._basic_formatting_fixes text) = non_space text.
Proof.
  unfold FileGenerator._basic_formatting_fixes. cbv zeta.
  rewrite sub3_non_space by reflexivity.
  rewrite sub2_non_space by reflexivity.
  rewrite !sub3_non_space by reflexivity.
  reflexivity.
Qed.

End MoreJamming.

(** Witness of the rule for mixed case (X3). *)
Lemma camel_fix_inserts_witness :
  @TextProcessor.camel_fix
    (py "use" ++ N_of_ascii "a" :: N_of_ascii "S" :: py "cript")
  = TextProcessor.camel_fix (py "use" ++ [N_of_ascii "a"])
    ++ space :: N_of_ascii "S" :: TextProcessor.camel_fix (py "cript").
Proof.
  apply camel_fix_inserts; vm_compute; reflexivity.
Defined.



(** *** Lines *)

Lemma split_chr_no_nl s : Forall (fun l => ~ In nl l) (split_chr nl s).
Proof.
  induction s as [|c t IH]; [repeat constructor; auto|].
  rewrite split_chr_step. destruct (N.eqb c nl) eqn:E.
  - constructor; auto.
  - destruct (split_chr nl t) as [|h r]; [repeat constructor|].
    + intros [H | []]. subst. rewrite N.eqb_refl in E. discriminate.
    + inversion IH; subst. constructor; auto.
      intros [H | H]; [|auto]. subst. rewrite N.eqb_refl in E. discriminate.
Qed.

Lemma split_chr_plain x : ~ In nl x -> split_chr nl x = [x].
Proof.
  induction x as [|c t IH]; intros H; [reflexivity|].
  rewrite split_chr_step.
  destruct (N.eqb c nl) eqn:E.
  - apply N.eqb_eq in E. subst. exfalso. apply H. left. reflexivity.
  - rewrite IH; [reflexivity|]. intros Hin. apply H. right. exact Hin.
Qed.

Lemma split_chr_app x rest :
  ~ In nl x -> split_chr nl (x ++ nl :: rest) = x :: split_chr nl rest.
Proof.
  induction x as [|c t IH]; intros H.
  - simpl app. rewrite split_chr_step, N.eqb_refl. reflexivity.
  - simpl app. rewrite split_chr_step.
    destruct (N.eqb c nl) eqn:E.
    + apply N.eqb_eq in E. subst. exfalso. apply H. left. reflexivity.
    + rewrite IH; [reflexivity|]. intros Hin. apply H. right. exact Hin.
Qed.

(** Lines without a line feed, joined and split again, are the lines. *)
Lemma split_chr_join (l : list str) :
  l <> [] -> Forall (fun x => ~ In nl x) l ->
  split_chr nl (join [nl] l) = l.
Proof.
  induction l as [|x r IH]; intros Hne Hall; [congruence|].
  inversion Hall as [|? ? Hx Hr]; subst.
  destruct r as [|y r'].
  - simpl. apply split_chr_plain. exact Hx.
  - change (join [nl] (x :: y :: r')) with (x ++ nl :: join [nl] (y :: r')).
    rewrite split_chr_app by exact Hx. rewrite IH; [reflexivity | discriminate | exact Hr].
Qed.

Lemma strip_In c s : In c (strip s) -> In c s.
Proof.
  destruct (strip_infix s) as [a [b H]]. intros Hin.
  rewrite H. apply in_or_app. right. apply in_or_app. left. exact Hin.
Qed.

(** *** The final cleanup of the text processor *)

Lemma normalize_pipes_In c after_pipe pending s :
  In c (TextProcessor.normalize_pipes after_pipe pending s) ->
  In c pending \/ In c s \/ In c (py " | ").
Proof.
  revert after_pipe pending. induction s as [|x t IH]; intros after_pipe pending.
  - simpl. auto.
  - cbn [TextProcessor.normalize_pipes].
    destruct (N.eqb x 124%N).
    + intros H. apply in_app_or in H as [H | H]; [auto|].
      apply IH in H as [[] | [H | H]]; auto. right. left. right. exact H.
    + destruct (is_space x).
      * destruct after_pipe; intros H; apply IH in H as [H | [H | H]]; auto.
        -- contradiction.
        -- right. left. right. exact H.
        -- apply in_app_or in H as [H | [H | []]]; auto.
           right. left. left. exact H.
        -- right. left. right. exact H.
      * intros H. apply in_app_or in H as [H | [H | H]]; auto.
        -- right. left. left. exact H.
        -- apply IH in H as [[] | [H | H]]; auto. right. left. right. exact H.
Qed.

Lemma normalize_pipes_not_nil pending s :
  pending <> [] \/ s <> [] ->
  TextProcessor.normalize_pipes false pending s <> [].
Proof.
  revert pending. induction s as [|x t IH]; intros pending H.
  - simpl. destruct H; congruence.
  - cbn [TextProcessor.normalize_pipes].
    destruct (N.eqb x 124%N); [discriminate|].
    destruct (is_space x).
    + apply IH. left. destruct pending; discriminate.
    + destruct pending; discriminate.
Qed.

Lemma final_cleanup_loop_step n line rest :
  TextProcessor.final_cleanup_loop n (line :: rest) =
  if str_eqb (strip line) [] then
    if Nat.leb (S n) 1
    then [] :: TextProcessor.final_cleanup_loop (S n) rest
    else TextProcessor.final_cleanup_loop (S n) rest
  else TextProcessor.normalize_pipes false [] (strip line)
       :: TextProcessor.final_cleanup_loop 0 rest.
Proof. reflexivity. Qed.

Lemma not_blank_pair_cons x l :
  ~ blank_pair l -> (x = [] -> hd [nl] l <> []) -> ~ blank_pair (x :: l).
Proof.
  intros Hl Hx [l1 [l2 H]]. destruct l1 as [|y l1].
  - injection H as -> ->. apply Hx; reflexivity.
  - injection H as -> ->. apply Hl. exists l1, l2. reflexivity.
Qed.

Lemma final_cleanup_loop_shape n lines :
  ~ blank_pair (TextProcessor.final_cleanup_loop n lines)
  /\ (1 <= n -> hd [nl] (TextProcessor.final_cleanup_loop n lines) <> []).
Proof.
  revert n. induction lines as [|line rest IH]; intros n.
  - split.
    + intros [l1 [l2 H]]. destruct l1; discriminate.
    + discriminate.
  - rewrite final_cleanup_loop_step. destruct (str_eqb (strip line) []) eqn:E.
    + destruct n as [|n]; simpl Nat.leb; cbv iota.
      * split; [|lia]. apply not_blank_pair_cons; [apply IH|].
        intros _. apply IH. lia.
      * split; [apply IH|]. intros _. apply IH. lia.
    + apply str_eqb_neq in E.
      assert (Hne : TextProcessor.normalize_pipes false [] (strip line) <> [])
        by (apply normalize_pipes_not_nil; auto).
      split.
      * apply not_blank_pair_cons; [apply IH | congruence].
      * intros _. exact Hne.
Qed.

Lemma final_cleanup_loop_no_nl n lines :
  Forall (fun l => ~ In nl l) lines ->
  Forall (fun l => ~ In nl l) (TextProcessor.final_cleanup_loop n lines).
Proof.
  revert n. induction lines as [|line rest IH]; intros n H; [constructor|].
  inversion H as [|? ? Hl Hr]; subst.
  rewrite final_cleanup_loop_step. destruct (str_eqb (strip line) []).
  - destruct (Nat.leb (S n) 1); [constructor|]; auto.
  - constructor; [|auto]. intros Hin.
    apply normalize_pipes_In in Hin as [[] | [Hin | Hin]].
    + apply Hl. apply strip_In. exact Hin.
    + vm_compute in Hin. destruct Hin as [Hin | [Hin | [Hin | []]]];
        discriminate.
Qed.

Lemma pop_leading_blank_suffix l :
  exists a, l = a ++ TextProcessor.pop_leading_blank l
            /\ Forall (fun x => x = []) a.
Proof.
  induction l as [|x r (a & Ha & Hall)]; [exists []; auto|].
  simpl. destruct (str_eqb x []) eqn:E.
  - apply str_eqb_eq in E. subst.
    exists ([] :: a). split; [simpl; f_equal; exact Ha | constructor; auto].
  - exists []. auto.
Qed.

Lemma pop_leading_blank_hd l :
  hd [nl] (TextProcessor.pop_leading_blank l) <> [].
Proof.
  induction l as [|x r IH]; [discriminate|].
  simpl. destruct (str_eqb x []) eqn:E; [exact IH|].
  apply str_eqb_neq in E. exact E.
Qed.

Lemma blank_pair_app a l : blank_pair l -> blank_pair (a ++ l).
Proof.
  intros [l1 [l2 ->]]. exists (a ++ l1), l2. rewrite <- app_assoc. reflexivity.
Qed.

Lemma blank_pair_rev l : blank_pair (rev l) -> blank_pair l.
Proof.
  intros [l1 [l2 H]]. apply (f_equal (@rev str)) in H.
  rewrite rev_involutive in H. exists (rev l2), (rev l1).
  rewrite H. rewrite rev_app_distr. simpl. rewrite <- !app_assoc. reflexivity.
Qed.

(** X4.  The text the final cleanup returns is empty, or it neither
    begins nor ends with a blank line; in both cases it has no two blank
    lines in a row. *)
Theorem final_cleanup_blank_lines (text : str) :
  let out := split_chr nl (TextProcessor._final_cleanup text) in
  ~ blank_pair out
  /\ (out = [[]] \/ (hd [] out <> [] /\ last out [] <> [])).
Proof.
  unfold TextProcessor._final_cleanup. cbv zeta.
  set (l0 := TextProcessor.final_cleanup_loop 0 (split_chr nl text)).
  set (l1 := TextProcessor.pop_leading_blank l0).
  set (l2 := TextProcessor.pop_trailing_blank l1).
  assert (N0 : Forall (fun l => ~ In nl l) l0)
    by (apply final_cleanup_loop_no_nl, split_chr_no_nl).
  assert (B0 : ~ blank_pair l0) by apply final_cleanup_loop_shape.
  destruct (pop_leading_blank_suffix l0) as (a & Ha & _). fold l1 in Ha.
  assert (N1 : Forall (fun l => ~ In nl l) l1)
    by (rewrite Ha in N0; apply Forall_app in N0; tauto).
  assert (B1 : ~ blank_pair l1)
    by (intros H; apply B0; rewrite Ha; apply blank_pair_app; exact H).
  assert (H1 : hd [nl] l1 <> []) by apply pop_leading_blank_hd.
  destruct (pop_leading_blank_suffix (rev l1)) as (b & Hb & _).
  assert (E2 : l1 = l2 ++ rev b).
  { unfold l2, TextProcessor.pop_trailing_blank.
    rewrite <- rev_app_distr, <- Hb, rev_involutive. reflexivity. }
  assert (N2 : Forall (fun l => ~ In nl l) l2).
  { rewrite E2 in N1. apply Forall_app in N1. tauto. }
  assert (B2 : ~ blank_pair l2).
  { intros [x [y H]]. apply B1. rewrite E2, H. exists x, (y ++ rev b).
    rewrite <- app_assoc. reflexivity. }
  assert (L2 : hd [nl] (rev l2) <> []).
  { unfold l2, TextProcessor.pop_trailing_blank. rewrite rev_involutive.
    apply pop_leading_blank_hd. }
  destruct l2 as [|x r] eqn:El2.
  - split; [|left; reflexivity].
    intros [u [v H]]. simpl in H. destruct u as [|? [|? ?]]; discriminate.
  - rewrite split_chr_join by (auto; discriminate).
    split; [exact B2|]. right. split.
    + simpl. rewrite E2 in H1. simpl in H1. exact H1.
    + destruct (rev (x :: r)) as [|z w] eqn:Er.
      * apply (f_equal (@rev str)) in Er. rewrite rev_involutive in Er.
        discriminate.
      * simpl in L2. apply (f_equal (@rev str)) in Er.
        rewrite rev_involutive in Er. rewrite Er. simpl.
        rewrite last_last. exact L2.
Qed.



(** *** The dictionary of sections *)

Section Dictionary.
Import FileGenerator.

Lemma dict_get_set_same d k v : dict_get (dict_set d k v) k = Some v.
Proof.
  induction d as [|[k' v'] r IH]; simpl.
  - rewrite str_eqb_refl. reflexivity.
  - destruct (str_eqb k' k) eqn:E; simpl; rewrite E; auto.
Qed.

Lemma dict_get_set_other d k v k' :
  k' <> k -> dict_get (dict_set d k v) k' = dict_get d k'.
Proof.
  intros Hk. induction d as [|[k0 v0] r IH]; simpl.
  - destruct (str_eqb k k') eqn:E; [|reflexivity].
    apply str_eqb_eq in E. congruence.
  - destruct (str_eqb k0 k) eqn:E; simpl.
    + apply str_eqb_eq in E. subst.
      destruct (str_eqb k k') eqn:E'; [|reflexivity].
      apply str_eqb_eq in E'. congruence.
    + rewrite IH. reflexivity.
Qed.

Lemma dict_set_keys d k v :
  map fst (dict_set d k v) = map fst d
  \/ (~ In k (map fst d) /\ map fst (dict_set d k v) = map fst d ++ [k]).
Proof.
  induction d as [|[k0 v0] r IH]; simpl.
  - right. auto.
  - destruct (str_eqb k0 k) eqn:E; simpl; [left; reflexivity|].
    apply str_eqb_neq in E.
    destruct IH as [-> | [Hn ->]]; [left; reflexivity|].
    right. split; [|reflexivity]. intros [H | H]; auto.
Qed.

Lemma dict_set_NoDup d k v :
  NoDup (map fst d) -> NoDup (map fst (dict_set d k v)).
Proof.
  intros H. destruct (dict_set_keys d k v) as [-> | [Hn ->]]; [exact H|].
  apply NoDup_app; [exact H | repeat constructor; auto |].
  intros x Hx [<- | []]. exact (Hn Hx).
Qed.

Lemma dict_set_keys_incl d k v x :
  In x (map fst (dict_set d k v)) -> x = k \/ In x (map fst d).
Proof.
  destruct (dict_set_keys d k v) as [-> | [_ ->]]; [auto|].
  intros H. apply in_app_or in H as [H | [H | []]]; auto.
Qed.

End Dictionary.

Section StoredBuckets.
Context {U : Unicode}.
Import FileGenerator.

Lemma store_bucket_eq d b :
  store_bucket d b =
  match snd b with
  | [] => d
  | _ :: _ => dict_set d (fst b) (clean_bucket b)
  end.
Proof.
  unfold store_bucket, save_section, clean_bucket.
  cbn [sections current_section current_content].
  destruct (snd b); [reflexivity|].
  destruct (str_eqb (fst b) (py "header")) eqn:E; [|reflexivity].
  apply str_eqb_eq in E. rewrite E. reflexivity.
Qed.

Lemma parse_as_buckets (resume_text : str) :
  _parse_resume_sections resume_text
  = fold_left store_bucket
      (buckets (py "header") [] (scanned_lines resume_text)) [].
Proof.
  unfold _parse_resume_sections, scanned_lines. cbv zeta.
  rewrite parse_loop_buckets. reflexivity.
Qed.

Lemma fold_store_other bs d k :
  (forall c, In (k, c) bs -> c = []) ->
  dict_get (fold_left store_bucket bs d) k = dict_get d k.
Proof.
  revert d. induction bs as [|[k' c'] r IH]; intros d H; [reflexivity|].
  simpl fold_left. rewrite IH by (intros c Hc; apply H; right; exact Hc).
  rewrite store_bucket_eq. simpl.
  destruct c' as [|x c']; [reflexivity|].
  apply dict_get_set_other. intros ->.
  specialize (H (x :: c') (or_introl eq_refl)). discriminate.
Qed.

Lemma fold_store_found bs d k c :
  NoDup (map fst (filled bs)) -> In (k, c) bs -> c <> [] ->
  dict_get (fold_left store_bucket bs d) k = Some (clean_bucket (k, c)).
Proof.
  revert d. induction bs as [|[k' c'] r IH]; intros d Hnd Hin Hc;
    [contradiction|].
  simpl fold_left. destruct Hin as [H | Hin].
  - injection H as -> ->.
    destruct c as [|x c0]; [congruence|].
    simpl in Hnd. inversion Hnd as [|? ? Hnot _]; subst.
    rewrite fold_store_other.
    + rewrite store_bucket_eq. simpl. apply dict_get_set_same.
    + intros c1 H1. destruct c1 as [|y c1]; [reflexivity|].
      exfalso. apply Hnot.
      change k with (fst (k, y :: c1)). apply in_map.
      apply filter_In. split; [exact H1 | reflexivity].
  - apply IH; auto. simpl in Hnd.
    destruct c'; [exact Hnd|]. inversion Hnd; assumption.
Qed.

Lemma fold_store_keys bs d :
  NoDup (map fst d) ->
  NoDup (map fst (fold_left store_bucket bs d))
  /\ forall x, In x (map fst (fold_left store_bucket bs d)) ->
               In x (map fst d) \/ In x (map fst bs).
Proof.
  revert d. induction bs as [|[k c] r IH]; intros d Hd; [simpl; auto|].
  simpl fold_left.
  assert (Hd' : NoDup (map fst (store_bucket d (k, c)))).
  { rewrite store_bucket_eq. simpl. destruct c; [exact Hd|].
    apply dict_set_NoDup. exact Hd. }
  destruct (IH _ Hd') as [H1 H2]. split; [exact H1|].
  intros x Hx. apply H2 in Hx as [Hx | Hx]; [|right; right; exact Hx].
  rewrite store_bucket_eq in Hx. simpl in Hx. destruct c; [auto|].
  apply dict_set_keys_incl in Hx as [-> | Hx]; [right; left; reflexivity|auto].
Qed.

Lemma match_section_name table s m :
  match_section table s = Some m -> In m (map fst table).
Proof.
  induction table as [|[n p] r IH]; simpl; [discriminate|].
  destruct (re_match p s); [|auto].
  intros H. injection H as ->. left. reflexivity.
Qed.

Lemma buckets_names name content lines x :
  In x (map fst (buckets name content lines)) ->
  x = name \/ In x (map fst section_patterns).
Proof.
  revert name content. induction lines as [|l r IH]; intros name content.
  - simpl. intros [H | []]; auto.
  - simpl. destruct (detect_header l) as [m|] eqn:E; [|apply IH].
    simpl. intros [H | H]; [auto|].
    apply IH in H as [-> | H]; [|auto]. right.
    unfold detect_header in E. destruct (truthy (strip l)); [|discriminate].
    apply (match_section_name _ _ E).
Qed.

(** X5.  The sections the partitioner returns have different names, and
    each name is [header] or a name of the table of patterns. *)
Theorem parse_keys (resume_text : str) :
  let result := _parse_resume_sections resume_text in
  NoDup (map fst result)
  /\ forall k, In k (map fst result) ->
               k = py "header" \/ In k (map fst section_patterns).
Proof.
  cbv zeta. rewrite parse_as_buckets.
  destruct (fold_store_keys
              (buckets (py "header") [] (scanned_lines resume_text)) []
              (NoDup_nil _)) as [H1 H2].
  split; [exact H1|]. intros k Hk.
  apply H2 in Hk as [[] | Hk]. apply (buckets_names _ _ _ _ Hk).
Qed.

(** X6.  The scan of the partitioner puts every line that is not a
    header in one bucket, in order; and when no two buckets with lines
    have the same name, every such bucket is in the result, under its
    name and with its cleaned content. *)
Theorem parse_complete (resume_text : str) :
  let bs := buckets (py "header") [] (scanned_lines resume_text) in
  List.concat (map snd bs)
  = filter is_content_line (scanned_lines resume_text)
  /\ (NoDup (map fst (filled bs)) ->
      forall k c, In (k, c) bs -> c <> [] ->
        dict_get (_parse_resume_sections resume_text) k
        = Some (clean_bucket (k, c))).
Proof.
  cbv zeta. split.
  - rewrite buckets_cover. reflexivity.
  - intros Hnd k c Hin Hc. rewrite parse_as_buckets.
    apply fold_store_found; assumption.
Qed.

End StoredBuckets.

(** Witness of X6. *)
Lemma parse_complete_witness :
  FileGenerator.dict_get
    (@FileGenerator._parse_resume_sections basic_unicode
       (py "Jane Doe\nSKILLS\nPython\nEDUCATION\nBSc"))
    (py "skills")
  = Some (@clean_bucket basic_unicode (py "skills", [py "Python"])).
Proof.
  apply (proj2 (@parse_complete basic_unicode
                  (py "Jane Doe\nSKILLS\nPython\nEDUCATION\nBSc"))).
  - vm_compute. repeat constructor; simpl; intuition discriminate.
  - vm_compute. right. left. reflexivity.
  - discriminate.
Defined.



(** *** The detection of section headers *)

Lemma diverge_startswith b a tail :
  diverge b a = true -> startswith b (a ++ tail) = false.
Proof.
  revert a. induction b as [|x b IH]; intros [|y a]; simpl; try discriminate.
  intros H. apply orb_true_iff in H as [H | H].
  - apply negb_true_iff in H. rewrite H. reflexivity.
  - rewrite (IH _ H). apply andb_false_r.
Qed.

Lemma startswith_app a tail : startswith a (a ++ tail) = true.
Proof. apply startswith_iff. eauto. Qed.

Lemma skipn_app_length (a tail : str) : skipn (List.length a) (a ++ tail) = tail.
Proof. induction a; simpl; auto. Qed.

Section HeaderDetection.
Import FileGenerator.

Lemma re_match_own alts a tail :
  In a alts -> header_tail tail = true -> re_match alts (a ++ tail) = true.
Proof.
  intros Hin Ht. unfold re_match. apply existsb_exists. exists a.
  split; [exact Hin|]. rewrite startswith_app, skipn_app_length, Ht.
  reflexivity.
Qed.

Lemma re_match_diverge alts a tail :
  forallb (fun b => diverge b a) alts = true ->
  re_match alts (a ++ tail) = false.
Proof.
  intros H. unfold re_match.
  induction alts as [|b r IH]; [reflexivity|].
  simpl in *. apply andb_true_iff in H as [H1 H2].
  rewrite (diverge_startswith _ _ _ H1), IH by exact H2. reflexivity.
Qed.

Lemma match_section_skip before table a tail :
  forallb (fun e => forallb (fun b => diverge b a) (snd e)) before = true ->
  match_section (before ++ table) (a ++ tail) = match_section table (a ++ tail).
Proof.
  induction before as [|[n bs] r IH]; intros H; [reflexivity|].
  simpl in *. apply andb_true_iff in H as [H1 H2].
  rewrite (re_match_diverge _ _ _ H1). apply IH. exact H2.
Qed.

Lemma unshadowed_found before table name alts a tail :
  unshadowed before table = true ->
  In (name, alts) table -> In a alts -> header_tail tail = true ->
  match_section (before ++ table) (a ++ tail) = Some name.
Proof.
  revert before. induction table as [|[n bs] r IH]; intros before Hu Hin Ha Ht;
    [contradiction|].
  simpl in Hu. apply andb_true_iff in Hu as [Hu1 Hu2].
  destruct Hin as [H | Hin].
  - injection H as -> ->.
    rewrite forallb_forall in Hu1.
    rewrite (match_section_skip _ _ _ _ (Hu1 a Ha)). simpl.
    rewrite (re_match_own _ _ _ Ha Ht). reflexivity.
  - specialize (IH (before ++ [(n, bs)]) Hu2 Hin Ha Ht).
    rewrite <- app_assoc in IH. exact IH.
Qed.

(** X7.  A line is taken for the header of a section as soon as, in
    upper case and trimmed, it is one of the alternatives of that
    section followed by nothing more than white space and one colon: no
    section earlier in the table takes it. *)
Theorem detect_header_of_table
        {U : Unicode} (line name a tail : str) (alts : list str) :
  In (name, alts) section_patterns -> In a alts ->
  strip line <> [] ->
  strip (upper line) = a ++ tail -> header_tail tail = true ->
  detect_header line = Some name.
Proof.
  intros Hin Ha Hl Hu Ht. unfold detect_header.
  apply truthy_cons in Hl. rewrite Hl, Hu.
  apply (unshadowed_found [] section_patterns name alts a tail);
    [vm_compute; reflexivity | assumption ..].
Qed.

End HeaderDetection.

(** Witness of X7. *)
Lemma detect_header_of_table_witness :
  @FileGenerator.detect_header basic_unicode (py "  Technical Skills :")
  = Some (py "skills").
Proof.
  apply (@detect_header_of_table basic_unicode (py "  Technical Skills :")
           (py "skills") (py "TECHNICAL SKILLS") (py " :")
           (map py ["SKILLS"; "TECHNICAL SKILLS"; "CORE COMPETENCIES";
                    "TECHNOLOGIES"; "CORE TECHNICAL SKILLS";
                    "TECHNICAL COMPETENCIES"]%string)).
  - right. left. reflexivity.
  - right. left. reflexivity.
  - vm_compute. discriminate.
  - vm_compute. reflexivity.
  - vm_compute. reflexivity.
Defined.



(** *** The content of a section *)

Lemma non_blank_app a b : non_blank (a ++ b) = non_blank a ++ non_blank b.
Proof. apply filter_app. Qed.

Lemma non_blank_snoc_blank l : non_blank (l ++ [[]]) = non_blank l.
Proof. rewrite non_blank_app. simpl. apply app_nil_r. Qed.

Lemma non_blank_append_blank l :
  non_blank (FileGenerator.append_blank l) = non_blank l.
Proof.
  unfold FileGenerator.append_blank.
  destruct (FileGenerator.last_not_blank l); [apply non_blank_snoc_blank|].
  reflexivity.
Qed.

Lemma non_blank_snoc l x : truthy x = true -> non_blank (l ++ [x]) = non_blank l ++ [x].
Proof. intros H. rewrite non_blank_app. simpl. rewrite H. reflexivity. Qed.

Lemma non_blank_squeeze n l :
  non_blank (FileGenerator.squeeze_blank n l) = non_blank l.
Proof.
  unfold non_blank.
  revert n. induction l as [|x r IH]; intros n; [reflexivity|].
  cbn [FileGenerator.squeeze_blank]. destruct (str_eqb x []) eqn:E.
  - apply str_eqb_eq in E. subst.
    destruct (Nat.leb (S n) 1); simpl; apply IH.
  - assert (T : truthy x = true) by (unfold truthy; rewrite E; reflexivity).
    simpl. rewrite T, IH. reflexivity.
Qed.

Lemma non_blank_all_blank a : Forall (fun x => x = []) a -> non_blank a = [].
Proof.
  induction 1 as [|x r Hx _ IH]; [reflexivity|]. subst. simpl. exact IH.
Qed.

Lemma non_blank_rev l : non_blank (rev l) = rev (non_blank l).
Proof.
  induction l as [|x r IH]; [reflexivity|].
  simpl rev. rewrite non_blank_app, IH. simpl.
  destruct (truthy x); simpl; [reflexivity | apply app_nil_r].
Qed.

Lemma non_blank_pop_leading l :
  non_blank (TextProcessor.pop_leading_blank l) = non_blank l.
Proof.
  destruct (pop_leading_blank_suffix l) as (a & Ha & Hall).
  rewrite Ha at 2. rewrite non_blank_app, (@non_blank_all_blank _ Hall).
  reflexivity.
Qed.

Lemma non_blank_pop_trailing l :
  non_blank (TextProcessor.pop_trailing_blank l) = non_blank l.
Proof.
  unfold TextProcessor.pop_trailing_blank.
  rewrite non_blank_rev, non_blank_pop_leading, non_blank_rev, rev_involutive.
  reflexivity.
Qed.

Lemma non_blank_In x l : In x (non_blank l) <-> In x l /\ x <> [].
Proof.
  unfold non_blank. rewrite filter_In, truthy_cons. reflexivity.
Qed.

Section SectionContent.
Context {U : Unicode}.
Import FileGenerator.

Lemma clean_section_loop_keeps section_type content_lines cleaned_lines :
  str_eqb section_type (py "summary") = false ->
  existsb (str_eqb section_type)
          (map py ["achievements"; "certifications"]%string) = false ->
  non_blank (clean_section_loop section_type content_lines cleaned_lines)
  = non_blank cleaned_lines ++ non_blank (map strip content_lines).
Proof.
  intros Hs Ha. revert cleaned_lines.
  induction content_lines as [|raw rest IH]; intros cleaned_lines.
  - simpl. rewrite app_nil_r. reflexivity.
  - cbn [clean_section_loop]. cbv zeta.
    change (map strip (raw :: rest)) with (strip raw :: map strip rest).
    change (non_blank (strip raw :: map strip rest))
      with (if truthy (strip raw)
            then strip raw :: non_blank (map strip rest)
            else non_blank (map strip rest)).
    destruct (truthy (strip raw)) eqn:T; cbn [negb].
    2:{ rewrite IH, non_blank_append_blank. reflexivity. }
    assert (K : forall l, non_blank (l ++ [strip raw])
                          ++ non_blank (map strip rest)
                          = non_blank l ++ strip raw :: non_blank (map strip rest)).
    { intros l. rewrite (@non_blank_snoc _ _ T), <- app_assoc. reflexivity. }
    destruct (str_eqb section_type (py "skills")).
    { destruct (is_category (strip raw)).
      - destruct rest as [|next rest'].
        + rewrite IH, K, non_blank_append_blank. reflexivity.
        + destruct (truthy (strip next) && is_category (strip next));
            rewrite IH, ?non_blank_snoc_blank, K, non_blank_append_blank;
            reflexivity.
      - rewrite IH, K. reflexivity. }
    destruct (str_eqb section_type (py "experience")).
    { destruct (startswith [black_circle] (strip raw)
                || contains [em_dash] (strip raw)).
      - rewrite IH, K, non_blank_append_blank. reflexivity.
      - destruct (any_in role_words (lower (strip raw))).
        + rewrite IH.
          change (cleaned_lines ++ [strip raw; []])
            with (cleaned_lines ++ [strip raw] ++ [[]]).
          rewrite app_assoc, non_blank_snoc_blank, K. reflexivity.
        + destruct (starts_any bullets3 (strip raw)); rewrite IH, K;
            reflexivity. }
    rewrite Hs.
    destruct (existsb (str_eqb section_type)
                (map py ["achievements"; "certifications"; "projects"]%string)).
    { rewrite Ha. cbv iota.
      destruct (true && negb (starts_any bullets4 (strip raw)));
        destruct (startswith [black_circle] (strip raw)
                  || str_eqb section_type (py "projects")
                     && Nat.ltb 30 (List.length (strip raw)));
        rewrite IH, K, ?non_blank_append_blank; reflexivity. }
    destruct (str_eqb section_type (py "education")).
    { destruct (any_in education_words (lower (strip raw)));
        rewrite IH, K, ?non_blank_append_blank; reflexivity. }
    rewrite IH, K. reflexivity.
Qed.

(** X8.  For a section that is neither the summary nor a list of
    achievements or certifications, the formatter keeps every line that
    is not blank, trimmed and in order, and adds or drops only blank
    lines. *)
Theorem clean_section_keeps_lines (content_lines : list str) (section_type : str) :
  section_type <> py "summary" ->
  section_type <> py "achievements" ->
  section_type <> py "certifications" ->
  Forall (fun l => ~ In nl l) content_lines ->
  non_blank (split_chr nl (_clean_section_content content_lines section_type))
  = non_blank (map strip content_lines).
Proof.
  intros H1 H2 H3 Hnl.
  apply str_eqb_neq in H1, H2, H3.
  assert (Ha : existsb (str_eqb section_type)
                 (map py ["achievements"; "certifications"]%string) = false).
  { cbn [map existsb]. rewrite H2, H3. reflexivity. }
  unfold _clean_section_content.
  destruct content_lines as [|c0 cs] eqn:Ec; [reflexivity|]. rewrite <- Ec in *.
  cbv zeta.
  set (F := TextProcessor.pop_trailing_blank
              (squeeze_blank 0 (clean_section_loop section_type content_lines []))).
  assert (HF : non_blank F = non_blank (map strip content_lines)).
  { unfold F. rewrite non_blank_pop_trailing, non_blank_squeeze.
    rewrite clean_section_loop_keeps by assumption. reflexivity. }
  destruct F as [|x r] eqn:EF.
  - simpl. rewrite <- HF. reflexivity.
  - rewrite split_chr_join; [exact HF | discriminate |].
    apply Forall_forall. intros y Hy Hin.
    assert (Hne : y <> []) by (intros ->; contradiction).
    assert (Hy' : In y (non_blank (x :: r))) by (apply non_blank_In; auto).
    rewrite HF in Hy'. apply non_blank_In in Hy' as [Hy' _].
    apply in_map_iff in Hy' as [raw [<- Hraw]].
    rewrite Forall_forall in Hnl. apply (Hnl raw Hraw).
    apply strip_In. exact Hin.
Qed.

End SectionContent.

(** Witness of X8. *)
Lemma clean_section_keeps_lines_witness :
  non_blank
    (split_chr nl
       (@FileGenerator._clean_section_content basic_unicode
          [py "Languages: Python"; py "  Tools: Git "; []; py "Docker"]
          (py "skills")))
  = non_blank (map strip
                 [py "Languages: Python"; py "  Tools: Git "; []; py "Docker"]).
Proof.
  apply (@clean_section_keeps_lines basic_unicode).
  - vm_compute. discriminate.
  - vm_compute. discriminate.
  - vm_compute. discriminate.
  - repeat constructor; vm_compute; intuition discriminate.
Defined.

(** *** More on the duplicate blocks *)

Section MoreDeduplication.
Context {U : Unicode} {F : Fuzz}.
Import AdvancedFileGeneratorV2.

Lemma group_blocks_concat lines current :
  List.concat (group_blocks lines current)
  = current ++ filter (fun l => negb (str_eqb (strip l) [])) lines.
Proof.
  revert current. induction lines as [|l r IH]; intros current.
  - simpl. destruct current; simpl; rewrite ?app_nil_r; reflexivity.
  - simpl. destruct (str_eqb (strip l) []); simpl.
    + destruct current as [|c cs]; [apply IH|].
      simpl. rewrite IH. reflexivity.
    + rewrite IH, <- app_assoc. reflexivity.
Qed.

(** X9.  The grouping into blocks loses no line: the blocks hold, in
    order, the lines that are not blank. *)
Theorem group_blocks_cover (content_lines : list str) :
  List.concat (group_blocks content_lines [])
  = filter (fun l => negb (str_eqb (strip l) [])) content_lines.
Proof. apply group_blocks_concat. Qed.

Lemma find_duplicate_incl block unique updated x :
  find_duplicate block unique = Some updated ->
  In x updated -> x = block \/ In x unique.
Proof.
  revert updated. induction unique as [|e r IH]; intros updated; simpl;
    [discriminate|].
  destruct (Z.ltb 80 (similarity block e)).
  - destruct (has_bullets block && negb (has_bullets e));
      [|destruct (has_bullets e && negb (has_bullets block))];
      intros H; injection H as <-; simpl; intuition.
  - destruct (find_duplicate block r) as [u|]; simpl; [|discriminate].
    intros H; injection H as <-. intros [<- | Hx]; [auto|].
    destruct (IH u eq_refl Hx); auto.
Qed.

Lemma dedup_step_incl unique block x :
  In x (dedup_step unique block) -> x = block \/ In x unique.
Proof.
  unfold dedup_step. destruct (negb (truthy (block_text block))); [auto|].
  destruct (find_duplicate block unique) as [u|] eqn:E.
  - intros H. eapply find_duplicate_incl; eauto.
  - intros H. apply in_app_or in H as [H | [H | []]]; auto.
Qed.

Lemma fold_dedup_incl blocks unique x :
  In x (fold_left dedup_step blocks unique) -> In x unique \/ In x blocks.
Proof.
  revert unique. induction blocks as [|b r IH]; intros unique; simpl; [auto|].
  intros H. apply IH in H as [H | H]; [|auto].
  apply dedup_step_incl in H as [-> | H]; auto.
Qed.

(** X10.  Every block the deduplicator keeps is one of the blocks it
    was given, whole: blocks are dropped, never merged or rewritten. *)
Theorem dedup_keeps_raw_blocks (content_lines block : list str) :
  In block (unique_blocks_of (group_blocks content_lines [])) ->
  In block (group_blocks content_lines []).
Proof.
  intros H. apply fold_dedup_incl in H as [[] | H]. exact H.
Qed.

Lemma find_duplicate_none block unique :
  Forall (fun e => (similarity block e <= 80)%Z) unique ->
  find_duplicate block unique = None.
Proof.
  induction 1 as [|e r He _ IH]; [reflexivity|].
  simpl. apply Z.ltb_ge in He. rewrite He, IH. reflexivity.
Qed.

Lemma fold_dedup_all_kept blocks unique :
  Forall solid blocks ->
  Forall (fun b => Forall (fun e => (similarity b e <= 80)%Z) unique) blocks ->
  ForallOrdPairs (fun e b => (similarity b e <= 80)%Z) blocks ->
  fold_left dedup_step blocks unique = unique ++ blocks.
Proof.
  revert unique. induction blocks as [|b r IH]; intros unique Hs Hu Hp.
  - simpl. rewrite app_nil_r. reflexivity.
  - inversion Hs as [|? ? Hb Hr]; subst.
    inversion Hu as [|? ? Hbu Hru]; subst.
    inversion Hp as [|? ? Hbr Hrr]; subst.
    simpl fold_left.
    assert (E : dedup_step unique b = unique ++ [b]).
    { unfold dedup_step. rewrite (solid_block_text Hb). simpl.
      rewrite find_duplicate_none by exact Hbu. reflexivity. }
    rewrite E, IH.
    + rewrite <- app_assoc. reflexivity.
    + exact Hr.
    + apply Forall_forall. intros x Hx. apply Forall_app. split.
      * exact (proj1 (Forall_forall _ _) Hru x Hx).
      * constructor; [|constructor].
        exact (proj1 (Forall_forall _ _) Hbr x Hx).
    + exact Hrr.
Qed.

(** X11.  When no block scores above 80 against a block before it, the
    deduplicator keeps all the blocks, in their order. *)
Theorem dedup_keeps_distinct_blocks (content_lines : list str) :
  ForallOrdPairs (fun e b => (similarity b e <= 80)%Z)
                 (group_blocks content_lines []) ->
  unique_blocks_of (group_blocks content_lines [])
  = group_blocks content_lines [].
Proof.
  intros H. unfold unique_blocks_of.
  rewrite fold_dedup_all_kept; auto.
  - apply group_blocks_solid. constructor.
  - apply Forall_forall. intros; constructor.
Qed.

Lemma group_flatten (unique : list (list str)) :
  Forall solid unique -> group_blocks (flatten_blocks unique) [] = unique.
Proof.
  induction 1 as [|b r Hb _ IH]; [reflexivity|].
  unfold flatten_blocks in *. simpl flat_map.
  rewrite <- app_assoc. destruct Hb as [Hne Hall].
  rewrite group_blocks_app by exact Hall. simpl app.
  change (group_blocks ([] :: flat_map (fun block => block ++ [[]]) r) b)
    with (match b with
          | [] => group_blocks (flat_map (fun block => block ++ [[]]) r) []
          | _ :: _ =>
              b :: group_blocks (flat_map (fun block => block ++ [[]]) r) []
          end).
  destruct b; [congruence|]. rewrite IH. reflexivity.
Qed.

(** X12.  The lines the deduplicator returns, grouped into blocks again,
    are the blocks it kept: each kept block comes back whole, closed by
    one blank line. *)
Theorem dedup_result_blocks (content_lines : list str) :
  group_blocks (_deduplicate_project_content content_lines) []
  = unique_blocks_of (group_blocks content_lines []).
Proof.
  unfold _deduplicate_project_content.
  destruct content_lines as [|l r] eqn:E; [reflexivity|]. rewrite <- E.
  apply group_flatten. apply Forall_forall. intros b Hb.
  apply fold_dedup_incl in Hb as [[] | Hb].
  pose proof (group_blocks_solid content_lines (current := []) (Forall_nil _))
    as Hs.
  rewrite Forall_forall in Hs. apply Hs. exact Hb.
Qed.

End MoreDeduplication.

(** Witness of X10. *)
Lemma dedup_keeps_raw_blocks_witness :
  In [py "* Built a web crawler"]
     (AdvancedFileGeneratorV2.group_blocks
        [py "Built a web crawler"; []; py "* Built a web crawler"] []).
Proof.
  apply (@dedup_keeps_raw_blocks basic_unicode indel_fuzz).
  vm_compute. left. reflexivity.
Defined.

(** Witness of X11. *)
Lemma dedup_keeps_distinct_blocks_witness :
  @AdvancedFileGeneratorV2.unique_blocks_of basic_unicode indel_fuzz
    (AdvancedFileGeneratorV2.group_blocks
       [py "Built a web crawler"; []; py "Led a team of five"] [])
  = AdvancedFileGeneratorV2.group_blocks
      [py "Built a web crawler"; []; py "Led a team of five"] [].
Proof.
  apply (@dedup_keeps_distinct_blocks basic_unicode indel_fuzz).
  vm_compute AdvancedFileGeneratorV2.group_blocks.
  constructor; [|constructor; constructor].
  constructor; [|constructor]. vm_compute. discriminate.
Defined.

(** *** More on the header *)

Section MoreHeader.
Context {U : Unicode}.
Import AdvancedFileGeneratorV2.

Lemma collect_titles_suffix i lines job_titles :
  exists skipped,
    lines = skipped ++ snd (collect_titles i lines job_titles).
Proof.
  revert i job_titles. induction lines as [|raw rest IH]; intros i job_titles.
  - exists []. reflexivity.
  - cbn [collect_titles]. destruct (Nat.ltb i 10); [|exists []; reflexivity].
    cbv zeta. destruct (negb (truthy (strip raw))).
    { destruct (IH (S i) job_titles) as [s Hs]. exists (raw :: s).
      simpl. f_equal. exact Hs. }
    destruct (any_in contact_indicators (lower (strip raw)));
      [exists []; reflexivity|].
    destruct (is_section_start (strip raw)); [exists []; reflexivity|].
    destruct (truthy (remove_stars (strip raw))
              && Nat.ltb 5 (List.length (remove_stars (strip raw)))).
    + destruct (IH (S i) (job_titles ++ [remove_stars (strip raw)])) as [s Hs].
      exists (raw :: s). simpl. f_equal. exact Hs.
    + destruct (IH (S i) job_titles) as [s Hs]. exists (raw :: s).
      simpl. f_equal. exact Hs.
Qed.

Lemma collect_contacts_suffix i lines contact_items :
  exists skipped,
    lines = skipped ++ snd (collect_contacts i lines contact_items).
Proof.
  revert i contact_items. induction lines as [|raw rest IH];
    intros i contact_items.
  - exists []. reflexivity.
  - cbn [collect_contacts]. destruct (Nat.ltb i 20); [|exists []; reflexivity].
    cbv zeta. destruct (negb (truthy (strip raw))).
    { destruct (IH (S i) contact_items) as [s Hs]. exists (raw :: s).
      simpl. f_equal. exact Hs. }
    destruct (is_section_start (strip raw)); [exists []; reflexivity|].
    destruct (truthy (remove_stars (strip raw))
              && any_in contact_indicators (lower (remove_stars (strip raw)))).
    + destruct (IH (S i) (contact_items ++ [remove_stars (strip raw)]))
        as [s Hs].
      exists (raw :: s). simpl. f_equal. exact Hs.
    + destruct (IH (S i) contact_items) as [s Hs]. exists (raw :: s).
      simpl. f_equal. exact Hs.
Qed.

Lemma build_header_shape name i lines :
  exists header skipped remaining,
    build_header name i lines = header ++ [[]] ++ remaining
    /\ hd [] header = py "# " ++ name
    /\ 1 <= List.length header <= 3
    /\ lines = skipped ++ remaining.
Proof.
  unfold build_header.
  destruct (collect_titles_suffix i lines []) as [s1 H1].
  destruct (collect_titles i lines []) as [[job_titles i1] lines1].
  simpl in H1.
  destruct (collect_contacts_suffix i1 lines1 []) as [s2 H2].
  destruct (collect_contacts i1 lines1 []) as [[contact_items i2] lines2].
  simpl in H2.
  exists ([py "# " ++ name]
          ++ match job_titles with
             | [] => []
             | _ :: _ => [py "## " ++ join (py " | ") job_titles]
             end
          ++ match contact_items with
             | [] => []
             | _ :: _ => [join (py " | ") contact_items]
             end),
         (s1 ++ s2), lines2.
  repeat apply conj.
  - rewrite <- !app_assoc. reflexivity.
  - reflexivity.
  - simpl. lia.
  - destruct job_titles; destruct contact_items; simpl; lia.
  - rewrite H1, H2, <- app_assoc. reflexivity.
Qed.

(** X13.  When the first line of the text, trimmed, with every [**]
    taken out and trimmed again, contains ["Dr."], the restructured text
    is a header of one to three lines, the first being [# ] followed by
    that cleaned line, then one blank line, then lines of the text as
    they were: all the lines from some line on.  Only [**] is taken out
    of the name: a [#] or a single [*] stays in it. *)
Theorem restructured_header_shape (text first : str) (rest : list str) :
  split_chr nl text = first :: rest ->
  contains (py "Dr.") (cleaned_name first) = true ->
  exists header skipped remaining,
    _restructure_header text = join [nl] (header ++ [[]] ++ remaining)
    /\ hd [] header = py "# " ++ cleaned_name first
    /\ 1 <= List.length header <= 3
    /\ rest = skipped ++ remaining.
Proof.
  intros Hs Hd. unfold _restructure_header. rewrite Hs.
  rewrite restructure_loop_step. simpl orb. cbv iota. rewrite Hd.
  destruct (build_header_shape (cleaned_name first) 1 rest)
    as (header & skipped & remaining & H1 & H2 & H3 & H4).
  exists header, skipped, remaining. rewrite H1. auto.
Qed.

End MoreHeader.

(** Witness of X13. *)
Lemma restructured_header_shape_witness :
  exists header skipped remaining,
    @AdvancedFileGeneratorV2._restructure_header basic_unicode
      (py "Dr. Jane Doe\nAI Engineer\njane@x.com\nPROFESSIONAL SUMMARY\nText")
    = join [nl] (header ++ [[]] ++ remaining)
    /\ hd [] header = py "# " ++ cleaned_name (py "Dr. Jane Doe")
    /\ 1 <= List.length header <= 3
    /\ [py "AI Engineer"; py "jane@x.com"; py "PROFESSIONAL SUMMARY"; py "Text"]
       = skipped ++ remaining.
Proof.
  apply (@restructured_header_shape basic_unicode); vm_compute; reflexivity.
Defined.



(** *** Trimming *)

Lemma dropwhile_app_stop f l c :
  f c = false -> dropwhile f (l ++ [c]) = dropwhile f l ++ [c].
Proof.
  intros H. induction l as [|x r IH]; simpl.
  - rewrite H. reflexivity.
  - destruct (f x); [exact IH | reflexivity].
Qed.

Lemma dropwhile_idem f s : dropwhile f (dropwhile f s) = dropwhile f s.
Proof.
  induction s as [|c t IH]; [reflexivity|].
  simpl. destruct (f c) eqn:E; [exact IH|]. simpl. rewrite E. reflexivity.
Qed.

Lemma rstrip_cons c t : is_space c = false -> rstrip (c :: t) = c :: rstrip t.
Proof.
  intros H. unfold rstrip. simpl rev.
  rewrite dropwhile_app_stop by exact H. rewrite rev_app_distr. reflexivity.
Qed.

Lemma strip_cons c t : is_space c = false -> strip (c :: t) = c :: rstrip t.
Proof.
  intros H. unfold strip, lstrip. simpl. rewrite H. apply rstrip_cons. exact H.
Qed.

Lemma rstrip_idem s : rstrip (rstrip s) = rstrip s.
Proof.
  unfold rstrip. rewrite rev_involutive, dropwhile_idem. reflexivity.
Qed.

Lemma dropwhile_head f s :
  match dropwhile f s with [] => True | c :: _ => f c = false end.
Proof.
  induction s as [|c t IH]; simpl; [exact I|].
  destruct (f c) eqn:E; [exact IH | exact E].
Qed.

(** Trimming a trimmed string changes nothing. *)
Lemma strip_idem s : strip (strip s) = strip s.
Proof.
  change (strip s) with (rstrip (dropwhile is_space s)).
  pose proof (dropwhile_head is_space s) as H.
  destruct (dropwhile is_space s) as [|c t]; [reflexivity|].
  rewrite rstrip_cons by exact H. rewrite strip_cons by exact H.
  rewrite rstrip_idem. reflexivity.
Qed.

Lemma startswith_strip_not_nil p c line :
  is_space c = false -> startswith (c :: p) line = true -> strip line <> [].
Proof.
  intros Hc H. apply startswith_iff in H as [t ->]. simpl app.
  rewrite strip_cons by exact Hc. discriminate.
Qed.

(** *** The compaction of blank lines *)

Section Optimize.
Import AdvancedFileGeneratorV2.

Lemma last_is_blank_snoc l x : last_is_blank (l ++ [x]) = str_eqb (strip x) [].
Proof. unfold last_is_blank. rewrite rev_app_distr. reflexivity. Qed.

Lemma optimize_loop_step line rest optimized_lines :
  optimize_loop (line :: rest) optimized_lines =
  if str_eqb (strip line) []
     && Nat.ltb 0 (List.length optimized_lines)
     && last_is_blank optimized_lines
  then optimize_loop rest optimized_lines
  else optimize_loop rest
         (optimized_lines
          ++ [if startswith (py "- ") line || startswith (py "* ") line
              then strip line else line]).
Proof. reflexivity. Qed.

Lemma is_bullet_not_blank line :
  startswith (py "- ") line || startswith (py "* ") line = true ->
  strip line <> [].
Proof.
  intros H. apply orb_true_iff in H as [H | H];
    refine (@startswith_strip_not_nil _ _ _ _ H); reflexivity.
Qed.

Lemma white_pair_snoc l x :
  ~ white_pair l ->
  (str_eqb (strip x) [] && Nat.ltb 0 (List.length l) && last_is_blank l = false) ->
  ~ white_pair (l ++ [x]).
Proof.
  intros Hl Hx (l1 & a & b & l2 & E & Ha & Hb).
  destruct l2 as [|c l3].
  - assert (E' : l ++ [x] = (l1 ++ [a]) ++ [b])
      by (rewrite E, <- app_assoc; reflexivity).
    apply app_inj_tail in E' as [-> ->].
    rewrite length_app, last_is_blank_snoc in Hx. simpl in Hx.
    apply str_eqb_eq in Ha, Hb. rewrite Ha, Hb in Hx.
    replace (Nat.ltb 0 (List.length l1 + 1)) with true in Hx; [discriminate|].
    symmetry. apply Nat.ltb_lt. lia.
  - destruct (@exists_last _ (c :: l3) ltac:(discriminate)) as (m & z & Hm).
    rewrite Hm in E.
    assert (E' : l ++ [x] = (l1 ++ a :: b :: m) ++ [z])
      by (rewrite E, <- app_assoc; reflexivity).
    apply app_inj_tail in E' as [-> _].
    apply Hl. exists l1, a, b, m. auto.
Qed.

Lemma optimize_loop_no_white_pair lines optimized_lines :
  ~ white_pair optimized_lines ->
  ~ white_pair (optimize_loop lines optimized_lines).
Proof.
  revert optimized_lines. induction lines as [|line rest IH];
    intros optimized_lines H; [exact H|].
  rewrite optimize_loop_step.
  destruct (str_eqb (strip line) []
            && Nat.ltb 0 (List.length optimized_lines)
            && last_is_blank optimized_lines) eqn:E; [apply IH; exact H|].
  apply IH. apply white_pair_snoc; [exact H|].
  destruct (startswith (py "- ") line || startswith (py "* ") line) eqn:B;
    [|exact E].
  apply is_bullet_not_blank in B. rewrite strip_idem.
  apply str_eqb_neq in B. rewrite B. reflexivity.
Qed.



Lemma optimize_loop_settled lines optimized_lines :
  Forall settled optimized_lines ->
  Forall settled (optimize_loop lines optimized_lines).
Proof.
  revert optimized_lines. induction lines as [|line rest IH];
    intros optimized_lines H; [exact H|].
  rewrite optimize_loop_step.
  destruct (str_eqb (strip line) []
            && Nat.ltb 0 (List.length optimized_lines)
            && last_is_blank optimized_lines); [apply IH; exact H|].
  apply IH. apply Forall_app. split; [exact H|].
  constructor; [|constructor].
  destruct (startswith (py "- ") line || startswith (py "* ") line) eqn:B.
  - intros _. apply strip_idem.
  - intros B'. congruence.
Qed.

Lemma optimize_loop_no_nl (lines optimized_lines : list str) :
  Forall (fun l => ~ In nl l) lines ->
  Forall (fun l => ~ In nl l) optimized_lines ->
  Forall (fun l => ~ In nl l) (optimize_loop lines optimized_lines).
Proof.
  revert optimized_lines. induction lines as [|line rest IH];
    intros optimized_lines Hl H; [exact H|].
  inversion Hl as [|? ? Hline Hrest]; subst.
  rewrite optimize_loop_step.
  destruct (str_eqb (strip line) []
            && Nat.ltb 0 (List.length optimized_lines)
            && last_is_blank optimized_lines);
    [apply IH; [exact Hrest | exact H]|].
  apply IH; [exact Hrest|]. apply Forall_app. split; [exact H|].
  constructor; [|constructor].
  destruct (startswith (py "- ") line || startswith (py "* ") line);
    [|exact Hline].
  intros Hin. apply Hline. apply strip_In. exact Hin.
Qed.

Lemma optimize_loop_grows lines optimized_lines :
  exists more, optimize_loop lines optimized_lines = optimized_lines ++ more.
Proof.
  revert optimized_lines. induction lines as [|line rest IH];
    intros optimized_lines.
  - exists []. simpl. rewrite app_nil_r. reflexivity.
  - rewrite optimize_loop_step.
    destruct (str_eqb (strip line) []
              && Nat.ltb 0 (List.length optimized_lines)
              && last_is_blank optimized_lines); [apply IH|].
    destruct (IH (optimized_lines
                  ++ [if startswith (py "- ") line || startswith (py "* ") line
                      then strip line else line])) as [m Hm].
    rewrite Hm, <- app_assoc. eauto.
Qed.

Lemma optimize_loop_fixed lines optimized_lines :
  ~ white_pair (optimized_lines ++ lines) ->
  Forall settled lines ->
  optimize_loop lines optimized_lines = optimized_lines ++ lines.
Proof.
  revert optimized_lines. induction lines as [|line rest IH];
    intros optimized_lines Hw Hs.
  - simpl. rewrite app_nil_r. reflexivity.
  - inversion Hs as [|? ? Hline Hrest]; subst.
    rewrite optimize_loop_step.
    destruct (str_eqb (strip line) []
              && Nat.ltb 0 (List.length optimized_lines)
              && last_is_blank optimized_lines) eqn:E.
    + exfalso. apply Hw.
      apply andb_true_iff in E as [E E3]. apply andb_true_iff in E as [E1 E2].
      apply str_eqb_eq in E1.
      destruct (@exists_last _ optimized_lines) as (m & z & ->).
      { intros ->. discriminate. }
      rewrite last_is_blank_snoc in E3. apply str_eqb_eq in E3.
      exists m, z, line, rest. rewrite <- app_assoc. auto.
    + assert (B : (if startswith (py "- ") line || startswith (py "* ") line
                   then strip line else line) = line).
      { destruct (startswith (py "- ") line || startswith (py "* ") line) eqn:B;
          [apply Hline; exact B | reflexivity]. }
      rewrite B, IH; [rewrite <- app_assoc; reflexivity | | exact Hrest].
      rewrite <- app_assoc. exact Hw.
Qed.

(** X14.  The compaction of blank lines leaves no two lines of white
    space in a row, and compacting a second time changes nothing. *)
Theorem optimize_is_idempotent (text : str) :
  ~ white_pair (split_chr nl (_optimize_for_page_length text))
  /\ _optimize_for_page_length (_optimize_for_page_length text)
     = _optimize_for_page_length text.
Proof.
  unfold _optimize_for_page_length.
  set (L := optimize_loop (split_chr nl text) []).
  assert (HL : split_chr nl (join [nl] L) = L).
  { apply split_chr_join.
    - unfold L. pose proof (split_chr_not_nil text) as Hne.
      destruct (split_chr nl text) as [|l0 r]; [congruence|].
      rewrite optimize_loop_step. rewrite andb_false_r. cbn [andb].
      destruct (optimize_loop_grows r
                  ([] ++ [if startswith (py "- ") l0 || startswith (py "* ") l0
                          then strip l0 else l0])) as [m ->].
      discriminate.
    - apply optimize_loop_no_nl; [apply split_chr_no_nl | constructor]. }
  assert (W : ~ white_pair L).
  { apply optimize_loop_no_white_pair.
    intros (l1 & a & b & l2 & E & _). destruct l1; discriminate. }
  rewrite HL. split; [exact W|].
  f_equal. apply (@optimize_loop_fixed L []); [exact W|].
  apply optimize_loop_settled. constructor.
Qed.

End Optimize.

(** *** Passes that leave a text alone *)

Section LeftAlone.
Context {U : Unicode} {F : Fuzz}.
Import AdvancedFileGeneratorV2.

Lemma aggressive_loop_main raw rest :
  aggressive_loop Main (raw :: rest) =
  if any_in project_names (strip raw)
  then raw :: aggressive_loop (RoleTech []) rest
  else raw :: aggressive_loop Main rest.
Proof. reflexivity. Qed.

Lemma aggressive_loop_prefix (before rest : list str) :
  Forall (fun l => any_in project_names (strip l) = false) before ->
  aggressive_loop Main (before ++ rest) = before ++ aggressive_loop Main rest.
Proof.
  induction 1 as [|l r Hl _ IH]; [reflexivity|].
  simpl app. rewrite aggressive_loop_main, Hl, IH. reflexivity.
Qed.

(** X15.  The removal of duplicates changes nothing in a text that
    names none of the tracked projects. *)
Theorem aggressive_removal_without_projects (text : str) :
  Forall (fun l => any_in project_names (strip l) = false)
         (split_chr nl text) ->
  _remove_duplicate_content_aggressive text = text.
Proof.
  intros H. unfold _remove_duplicate_content_aggressive.
  pose proof (@aggressive_loop_prefix (split_chr nl text) [] H) as E.
  rewrite app_nil_r in E. rewrite E. simpl. rewrite app_nil_r.
  apply join_split_chr.
Qed.

Lemma certification_loop_step raw rest :
  contains (py "CERTIFICATIONS") (upper (strip raw)) = false ->
  contains (py "## CERTIFICATIONS") (strip raw) = false ->
  certification_loop false false (raw :: rest)
  = raw :: certification_loop false false rest.
Proof.
  intros H1 H2. cbn [certification_loop]. cbv zeta. rewrite H1, H2.
  reflexivity.
Qed.

Lemma certification_loop_plain (lines : list str) :
  Forall (fun l => contains (py "CERTIFICATIONS") (upper (strip l)) = false
                   /\ contains (py "## CERTIFICATIONS") (strip l) = false)
         lines ->
  certification_loop false false lines = lines.
Proof.
  induction 1 as [|l r [H1 H2] _ IH]; [reflexivity|].
  rewrite (@certification_loop_step l r H1 H2), IH. reflexivity.
Qed.

Lemma certification_loop_length in_certifications skip (lines : list str) :
  List.length (certification_loop in_certifications skip lines)
  <= List.length lines.
Proof.
  revert in_certifications skip.
  induction lines as [|raw rest IH]; intros in_certifications skip;
    [simpl; lia|].
  cbn [certification_loop]. cbv zeta.
  destruct skip.
  { specialize (IH in_certifications false). simpl. lia. }
  destruct (contains (py "CERTIFICATIONS") (upper (strip raw))
            || contains (py "## CERTIFICATIONS") (strip raw)).
  { specialize (IH true false). simpl. lia. }
  set (flag := if in_certifications && _ then false else in_certifications).
  destruct (flag && truthy (strip raw)).
  - destruct (startswith (py "- ") (strip raw)
              || startswith (py "* ") (strip raw)).
    + destruct rest as [|next rest'].
      * simpl. lia.
      * destruct (truthy (strip next)
                  && negb (startswith (py "-") (strip next))
                  && negb (startswith (py "*") (strip next))
                  && negb (startswith (py "##") (strip next))).
        -- specialize (IH flag true). simpl in *. lia.
        -- specialize (IH flag false). simpl in *. lia.
    + specialize (IH flag false). simpl. lia.
  - specialize (IH flag false). simpl. lia.
Qed.

(** X16.  The formatting of certifications never adds a line, and it
    changes nothing in a text that has no line with the word
    CERTIFICATIONS. *)
Theorem certification_formatting_without_section (text : str) :
  List.length (split_chr nl text)
  >= List.length (certification_loop false false (split_chr nl text))
  /\ (Forall (fun l =>
                contains (py "CERTIFICATIONS") (upper (strip l)) = false
                /\ contains (py "## CERTIFICATIONS") (strip l) = false)
             (split_chr nl text) ->
      _fix_certification_formatting text = text).
Proof.
  split.
  - apply certification_loop_length.
  - intros H. unfold _fix_certification_formatting.
    rewrite certification_loop_plain by exact H. apply join_split_chr.
Qed.

End LeftAlone.

(** Witness of X15. *)
Lemma aggressive_removal_without_projects_witness :
  @AdvancedFileGeneratorV2._remove_duplicate_content_aggressive
    basic_unicode indel_fuzz (py "Acme Corp\n* built a crawler\n\n* built a crawler")
  = py "Acme Corp\n* built a crawler\n\n* built a crawler".
Proof.
  apply (@aggressive_removal_without_projects basic_unicode indel_fuzz).
  vm_compute. repeat constructor.
Defined.

(** Witness of X16. *)
Lemma certification_formatting_without_section_witness :
  @AdvancedFileGeneratorV2._fix_certification_formatting basic_unicode
    (py "EDUCATION\n- BSc\nUniversity of Lagos")
  = py "EDUCATION\n- BSc\nUniversity of Lagos".
Proof.
  apply (proj2 (@certification_formatting_without_section basic_unicode
                  (py "EDUCATION\n- BSc\nUniversity of Lagos"))).
  vm_compute. repeat constructor.
Defined.

(** *** Lists of achievements and the summary *)

Lemma squeeze_blank_In n l x : In x (FileGenerator.squeeze_blank n l) -> In x l.
Proof.
  revert n. induction l as [|y r IH]; intros n; [auto|].
  cbn [FileGenerator.squeeze_blank]. destruct (str_eqb y []).
  - destruct (Nat.leb (S n) 1); simpl; intros H; [destruct H|]; eauto.
  - simpl. intros [H | H]; eauto.
Qed.

Lemma pop_trailing_blank_In l x :
  In x (TextProcessor.pop_trailing_blank l) -> In x l.
Proof.
  unfold TextProcessor.pop_trailing_blank. intros H.
  apply in_rev in H.
  destruct (pop_leading_blank_suffix (rev l)) as (a & Ha & _).
  apply in_rev. rewrite Ha. apply in_or_app. right. exact H.
Qed.

Lemma append_blank_Forall (P : str -> Prop) l :
  P [] -> Forall P l -> Forall P (FileGenerator.append_blank l).
Proof.
  intros H0 H. unfold FileGenerator.append_blank.
  destruct (FileGenerator.last_not_blank l); [|exact H].
  apply Forall_app. split; [exact H | repeat constructor; exact H0].
Qed.

Section Lists.
Context {U : Unicode}.
Import FileGenerator.



Lemma listed_bullet l : listed (bullet :: space :: l).
Proof. right. reflexivity. Qed.

Lemma clean_section_loop_listed section_type
      (content_lines cleaned_lines : list str) :
  section_type = py "achievements" \/ section_type = py "certifications" ->
  Forall (fun l => ~ In nl l) content_lines ->
  Forall (fun l => listed l /\ ~ In nl l) cleaned_lines ->
  Forall (fun l => listed l /\ ~ In nl l)
         (clean_section_loop section_type content_lines cleaned_lines).
Proof.
  intros Hst Hnl. revert cleaned_lines.
  induction Hnl as [|raw rest Hraw _ IH]; intros cleaned_lines H; [exact H|].
  assert (B : Forall (fun l => listed l /\ ~ In nl l)
                     (append_blank cleaned_lines)).
  { apply append_blank_Forall; [|exact H]. split; [left; reflexivity | auto]. }
  assert (K : forall l x,
             Forall (fun l => listed l /\ ~ In nl l) l ->
             listed x /\ ~ In nl x ->
             Forall (fun l => listed l /\ ~ In nl l) (l ++ [x])).
  { intros l x Hl Hx. apply Forall_app. split; [exact Hl|].
    constructor; [exact Hx | constructor]. }
  assert (Hs : ~ In nl (strip raw))
    by (intros Hin; apply Hraw; apply strip_In; exact Hin).
  assert (L : (fun l => listed l /\ ~ In nl l)
                (if truthy (strip raw)
                    && negb (starts_any bullets4 (strip raw))
                 then bullet :: space :: strip raw else strip raw)).
  { destruct (truthy (strip raw)) eqn:T.
    - destruct (starts_any bullets4 (strip raw)) eqn:S; simpl.
      + split; [right; exact S | exact Hs].
      + split; [apply listed_bullet|].
        intros [E | [E | E]]; [discriminate | discriminate | auto].
    - simpl. split; [left; apply truthy_nil; exact T | exact Hs]. }
  simpl in L.
  destruct Hst as [-> | ->]; cbn [clean_section_loop]; cbv zeta.
  - destruct (negb (truthy (strip raw))); [apply IH; exact B|].
    change (str_eqb (py "achievements") (py "skills")) with false.
    change (str_eqb (py "achievements") (py "experience")) with false.
    change (str_eqb (py "achievements") (py "summary")) with false.
    change (existsb (str_eqb (py "achievements"))
              (map py ["achievements"; "certifications"; "projects"]%string))
      with true.
    change (existsb (str_eqb (py "achievements"))
              (map py ["achievements"; "certifications"]%string)) with true.
    cbv iota.
    apply IH; apply K; [|exact L].
    match goal with
    | |- Forall _ (if ?c then _ else _) => destruct c
    end; assumption.
  - destruct (negb (truthy (strip raw))); [apply IH; exact B|].
    change (str_eqb (py "certifications") (py "skills")) with false.
    change (str_eqb (py "certifications") (py "experience")) with false.
    change (str_eqb (py "certifications") (py "summary")) with false.
    change (existsb (str_eqb (py "certifications"))
              (map py ["achievements"; "certifications"; "projects"]%string))
      with true.
    change (existsb (str_eqb (py "certifications"))
              (map py ["achievements"; "certifications"]%string)) with true.
    cbv iota.
    apply IH; apply K; [|exact L].
    match goal with
    | |- Forall _ (if ?c then _ else _) => destruct c
    end; assumption.
Qed.

Lemma clean_section_loop_substantial (content_lines cleaned_lines : list str) :
  Forall (fun l => ~ In nl l) content_lines ->
  Forall (fun l => substantial l /\ ~ In nl l) cleaned_lines ->
  Forall (fun l => substantial l /\ ~ In nl l)
         (clean_section_loop (py "summary") content_lines cleaned_lines).
Proof.
  intros Hnl. revert cleaned_lines.
  induction Hnl as [|raw rest Hraw _ IH]; intros cleaned_lines H; [exact H|].
  assert (Hs : ~ In nl (strip raw))
    by (intros Hin; apply Hraw; apply strip_In; exact Hin).
  assert (Z : (fun l => substantial l /\ ~ In nl l) [])
    by (split; [left; reflexivity | auto]).
  cbn [clean_section_loop]; cbv zeta.
  destruct (negb (truthy (strip raw))).
  { apply IH. apply append_blank_Forall; [exact Z | exact H]. }
  change (str_eqb (py "summary") (py "skills")) with false.
  change (str_eqb (py "summary") (py "experience")) with false.
  change (str_eqb (py "summary") (py "summary")) with true.
  cbv iota.
  destruct (Nat.ltb 10 (List.length (strip raw))) eqn:E; [|apply IH; exact H].
  apply Nat.ltb_lt in E.
  assert (K : Forall (fun l => substantial l /\ ~ In nl l)
                     (cleaned_lines ++ [strip raw])).
  { apply Forall_app. split; [exact H|].
    constructor; [split; [right; exact E | exact Hs] | constructor]. }
  destruct rest as [|next rest']; [apply IH; exact K|].
  destruct (Nat.ltb 10 (List.length (strip next))
            && negb (endswith (py ".") (strip raw))); apply IH; [|exact K].
  apply Forall_app. split; [exact K|]. constructor; [exact Z | constructor].
Qed.

Lemma content_lines_of (P : str -> Prop) content_lines section_type :
  P [] ->
  Forall (fun l => ~ In nl l) content_lines ->
  (forall x, In x (clean_section_loop section_type content_lines []) ->
             P x /\ ~ In nl x) ->
  Forall P (split_chr nl (_clean_section_content content_lines section_type)).
Proof.
  intros H0 Hnl H. unfold _clean_section_content.
  destruct content_lines as [|c0 cs] eqn:Ec; [repeat constructor; exact H0|].
  rewrite <- Ec in *. cbv zeta.
  set (F := TextProcessor.pop_trailing_blank
              (squeeze_blank 0 (clean_section_loop section_type content_lines []))).
  assert (HF : forall x, In x F -> P x /\ ~ In nl x).
  { intros x Hx. apply H. apply squeeze_blank_In with (n := 0).
    apply pop_trailing_blank_In. exact Hx. }
  destruct F as [|x r] eqn:EF; [repeat constructor; exact H0|].
  rewrite split_chr_join.
  - apply Forall_forall. intros y Hy. apply HF. exact Hy.
  - discriminate.
  - apply Forall_forall. intros y Hy. apply HF. exact Hy.
Qed.

Lemma clean_section_loop_marks section_type
      (content_lines cleaned_lines : list str) :
  section_type = py "achievements" \/ section_type = py "certifications" ->
  non_blank (clean_section_loop section_type content_lines cleaned_lines)
  = non_blank cleaned_lines ++ map marked (non_blank (map strip content_lines)).
Proof.
  intros Hst. revert cleaned_lines.
  induction content_lines as [|raw rest IH]; intros cleaned_lines.
  - simpl. rewrite app_nil_r. reflexivity.
  - change (map strip (raw :: rest)) with (strip raw :: map strip rest).
    change (non_blank (strip raw :: map strip rest))
      with (if truthy (strip raw)
            then strip raw :: non_blank (map strip rest)
            else non_blank (map strip rest)).
    assert (E : clean_section_loop section_type (raw :: rest) cleaned_lines
                = if negb (truthy (strip raw))
                  then clean_section_loop section_type rest
                         (append_blank cleaned_lines)
                  else clean_section_loop section_type rest
                         ((if startswith [black_circle] (marked (strip raw))
                           then append_blank cleaned_lines
                           else cleaned_lines) ++ [marked (strip raw)])).
    { unfold marked.
      destruct Hst as [-> | ->]; cbn [clean_section_loop]; cbv zeta;
        destruct (truthy (strip raw)); cbn [negb]; try reflexivity.
      - change (str_eqb (py "achievements") (py "skills")) with false.
        change (str_eqb (py "achievements") (py "experience")) with false.
        change (str_eqb (py "achievements") (py "summary")) with false.
        change (str_eqb (py "achievements") (py "projects")) with false.
        change (existsb (str_eqb (py "achievements"))
                  (map py ["achievements"; "certifications"; "projects"]%string))
          with true.
        change (existsb (str_eqb (py "achievements"))
                  (map py ["achievements"; "certifications"]%string)) with true.
        cbv iota. rewrite andb_true_l, andb_false_l, orb_false_r.
        destruct (starts_any bullets4 (strip raw)); reflexivity.
      - change (str_eqb (py "certifications") (py "skills")) with false.
        change (str_eqb (py "certifications") (py "experience")) with false.
        change (str_eqb (py "certifications") (py "summary")) with false.
        change (str_eqb (py "certifications") (py "projects")) with false.
        change (existsb (str_eqb (py "certifications"))
                  (map py ["achievements"; "certifications"; "projects"]%string))
          with true.
        change (existsb (str_eqb (py "certifications"))
                  (map py ["achievements"; "certifications"]%string)) with true.
        cbv iota. rewrite andb_true_l, andb_false_l, orb_false_r.
        destruct (starts_any bullets4 (strip raw)); reflexivity. }
    rewrite E. destruct (truthy (strip raw)) eqn:T; cbn [negb].
    + rewrite IH. cbn [map].
      assert (M : truthy (marked (strip raw)) = true).
      { unfold marked. destruct (starts_any bullets4 (strip raw));
          [exact T | reflexivity]. }
      rewrite (@non_blank_snoc _ _ M), <- app_assoc.
      destruct (startswith [black_circle] (marked (strip raw)));
        rewrite ?non_blank_append_blank; reflexivity.
    + rewrite IH, non_blank_append_blank. reflexivity.
Qed.

(** X17.  In a section of achievements or of certifications the lines
    of the formatted content that are not blank are the lines of the
    section that are not blank, trimmed and in order, each as it is when
    it begins with a list marker and behind the bullet when it does not;
    so every line of the content is blank or begins with a list
    marker. *)
Theorem achievements_are_listed (content_lines : list str) (section_type : str) :
  section_type = py "achievements" \/ section_type = py "certifications" ->
  Forall (fun l => ~ In nl l) content_lines ->
  non_blank (split_chr nl (_clean_section_content content_lines section_type))
  = map marked (non_blank (map strip content_lines))
  /\ Forall listed
            (split_chr nl (_clean_section_content content_lines section_type)).
Proof.
  intros Hst Hnl.
  pose proof (clean_section_loop_listed (cleaned_lines := []) Hst Hnl
                (Forall_nil _)) as H.
  rewrite Forall_forall in H.
  split.
  - unfold _clean_section_content.
    destruct content_lines as [|c0 cs] eqn:Ec; [reflexivity|].
    rewrite <- Ec in *. cbv zeta.
    set (F := TextProcessor.pop_trailing_blank
                (squeeze_blank 0
                   (clean_section_loop section_type content_lines []))).
    assert (HF : non_blank F = map marked (non_blank (map strip content_lines))).
    { unfold F. rewrite non_blank_pop_trailing, non_blank_squeeze.
      rewrite clean_section_loop_marks by assumption. reflexivity. }
    assert (HN : forall x, In x F -> ~ In nl x).
    { intros x Hx. apply H. apply squeeze_blank_In with (n := 0).
      apply pop_trailing_blank_In. exact Hx. }
    destruct F as [|x r] eqn:EF.
    + simpl. rewrite <- HF. reflexivity.
    + rewrite split_chr_join; [exact HF | discriminate |].
      apply Forall_forall. exact HN.
  - apply content_lines_of; [left; reflexivity | exact Hnl |].
    intros x Hx. apply H. exact Hx.
Qed.

(** X18.  In the summary no line of ten characters or fewer is left:
    every line of the formatted summary is blank or longer. *)
Theorem summary_lines_are_substantial (content_lines : list str) :
  Forall (fun l => ~ In nl l) content_lines ->
  Forall substantial
         (split_chr nl (_clean_section_content content_lines (py "summary"))).
Proof.
  intros Hnl. apply content_lines_of; [left; reflexivity | exact Hnl |].
  intros x Hx.
  pose proof (clean_section_loop_substantial (cleaned_lines := []) Hnl
                (Forall_nil _)) as H.
  rewrite Forall_forall in H. apply H. exact Hx.
Qed.

End Lists.

(** Witness of X17. *)
Lemma achievements_are_listed_witness :
  non_blank
    (split_chr nl
       (@FileGenerator._clean_section_content basic_unicode
          [py " Best paper award"; []; py "- Dean's list"] (py "achievements")))
  = map marked
        (non_blank (map strip [py " Best paper award"; []; py "- Dean's list"]))
  /\ Forall listed
       (split_chr nl
          (@FileGenerator._clean_section_content basic_unicode
             [py " Best paper award"; []; py "- Dean's list"]
             (py "achievements"))).
Proof.
  apply (@achievements_are_listed basic_unicode).
  - left. reflexivity.
  - repeat constructor; vm_compute; intuition discriminate.
Defined.

(** Witness of X18. *)
Lemma summary_lines_are_substantial_witness :
  Forall substantial
    (split_chr nl
       (@FileGenerator._clean_section_content basic_unicode
          [py "Experienced engineer."; py "Hello"] (py "summary"))).
Proof.
  apply (@summary_lines_are_substantial basic_unicode).
  repeat constructor; vm_compute; intuition discriminate.
Defined.

(** *** The markdown converter *)

Lemma dropwhile_nil_iff f s : dropwhile f s = [] <-> forallb f s = true.
Proof.
  induction s as [|c t IH]; simpl; [tauto|].
  destruct (f c); simpl; [exact IH|]. split; discriminate.
Qed.

Lemma strip_nil_iff s : strip s = [] <-> forallb is_space s = true.
Proof.
  split.
  - intros H. unfold strip, rstrip, lstrip in H.
    apply (f_equal (@rev char)) in H. rewrite rev_involutive in H. simpl in H.
    apply dropwhile_nil_iff in H.
    pose proof (dropwhile_head is_space s) as Hh.
    destruct (dropwhile is_space s) as [|c t] eqn:E.
    + apply dropwhile_nil_iff. exact E.
    + rewrite forallb_forall in H. specialize (H c).
      rewrite H in Hh; [discriminate|]. apply -> in_rev. left. reflexivity.
  - intros H. unfold strip, lstrip.
    apply dropwhile_nil_iff in H. rewrite H. reflexivity.
Qed.

Lemma join_In_chars c (x : str) (l : list str) :
  In x l -> In c x -> In c (join [nl] l).
Proof.
  induction l as [|y r IH]; intros Hx Hc; [contradiction|].
  destruct r as [|z r'].
  - destruct Hx as [-> | []]. exact Hc.
  - change (join [nl] (y :: z :: r')) with (y ++ [nl] ++ join [nl] (z :: r')).
    destruct Hx as [-> | Hx].
    + apply in_or_app. left. exact Hc.
    + apply in_or_app. right. apply in_or_app. right. apply IH; assumption.
Qed.

(** A text with a line that is not blank is not blank. *)
Lemma strip_text_not_nil (t line : str) :
  In line (split_chr nl t) -> strip line <> [] -> strip t <> [].
Proof.
  intros Hin Hl Ht. apply Hl. apply strip_nil_iff.
  apply strip_nil_iff in Ht. rewrite forallb_forall in *.
  intros c Hc. apply Ht. rewrite <- (join_split_chr t).
  apply (join_In_chars c line); assumption.
Qed.

Section Converter.
Context {U : Unicode}.
Import MarkdownConverter.

Lemma split_with_formatting_not_nil text : _split_with_formatting text <> [].
Proof.
  unfold _split_with_formatting.
  destruct (split_loop text 0 []); discriminate.
Qed.

(** The processing of inline formatting raises on every text. *)
Lemma process_inline_formatting_raises text :
  _process_inline_formatting text = None.
Proof.
  unfold _process_inline_formatting.
  pose proof (split_with_formatting_not_nil text) as H.
  destruct (_split_with_formatting text); [congruence | reflexivity].
Qed.

Lemma structured_loop_step raw rest :
  structured_loop (raw :: rest) =
  if negb (truthy (strip raw)) then structured_loop rest
  else match header_match (strip raw) with
       | Some (level, g) =>
           option_map
             (cons {| text := strip g; is_bold := false; is_italic := false;
                      is_header := true; header_level := level;
                      is_bullet := false; indent_level := 0 |})
             (structured_loop rest)
       | None => None
       end.
Proof.
  cbn [structured_loop]. cbv zeta.
  destruct (negb (truthy (strip raw))); [reflexivity|].
  destruct (header_match (strip raw)) as [[level g]|]; [reflexivity|].
  destruct (bullet_match (strip raw));
    [rewrite process_inline_formatting_raises; reflexivity|].
  destruct (numbered_match (strip raw));
    rewrite process_inline_formatting_raises; reflexivity.
Qed.

Lemma structured_loop_raises lines line :
  In line lines -> strip line <> [] -> header_match (strip line) = None ->
  structured_loop lines = None.
Proof.
  intros Hin Hl Hh. induction lines as [|raw rest IH]; [contradiction|].
  rewrite structured_loop_step.
  destruct Hin as [-> | Hin].
  - apply truthy_cons in Hl. rewrite Hl, Hh. reflexivity.
  - rewrite (IH Hin).
    destruct (negb (truthy (strip raw))); [reflexivity|].
    destruct (header_match (strip raw)) as [[level g]|]; reflexivity.
Qed.

(** X19.  The converter gives a text back unchanged, the preamble
    apart, as soon as one of its lines is neither blank nor a markdown
    header: the processing of such a line raises, and the converter
    falls back on the whole text. *)
Theorem converter_falls_back (markdown_text t line : str) :
  remove_prefix markdown_text = Some t ->
  In line (split_chr nl t) ->
  strip line <> [] ->
  header_match (strip line) = None ->
  convert_to_structured_content t = [plain t]
  /\ convert_to_plain_formatted_text markdown_text = t.
Proof.
  intros Hp Hin Hl Hh.
  assert (E : convert_to_structured_content t = [plain t]).
  { unfold convert_to_structured_content.
    rewrite (@structured_loop_raises _ line Hin Hl Hh). reflexivity. }
  split; [exact E|].
  unfold convert_to_plain_formatted_text. rewrite Hp, E.
  cbn [plain_loop plain is_header is_bullet text].
  pose proof (strip_text_not_nil t line Hin Hl) as Ht.
  apply truthy_cons in Ht. rewrite Ht. reflexivity.
Qed.

End Converter.

(** Witness of X19. *)
Lemma converter_falls_back_witness :
  @MarkdownConverter.convert_to_structured_content basic_unicode
    (py "## SKILLS\n* **Python**, Java")
  = [MarkdownConverter.plain (py "## SKILLS\n* **Python**, Java")]
  /\ @MarkdownConverter.convert_to_plain_formatted_text basic_unicode
       (py "## SKILLS\n* **Python**, Java")
     = py "## SKILLS\n* **Python**, Java".
Proof.
  apply (@converter_falls_back basic_unicode
           (py "## SKILLS\n* **Python**, Java")
           (py "## SKILLS\n* **Python**, Java")
           (py "* **Python**, Java")).
  - vm_compute. reflexivity.
  - vm_compute. right. left. reflexivity.
  - vm_compute. discriminate.
  - vm_compute. reflexivity.
Defined.

Section ConverterItems.
Context {U : Unicode}.
Import MarkdownConverter.

Lemma structured_loop_headers lines content :
  structured_loop lines = Some content ->
  Forall (fun item => is_header item = true /\ is_bullet item = false
                      /\ is_bold item = false) content.
Proof.
  revert content. induction lines as [|raw rest IH]; intros content.
  - intros H. injection H as <-. constructor.
  - rewrite structured_loop_step.
    destruct (negb (truthy (strip raw))); [apply IH|].
    destruct (header_match (strip raw)) as [[level g]|]; [|discriminate].
    destruct (structured_loop rest) as [c|]; [|discriminate].
    intros H. injection H as <-. constructor.
    + repeat apply conj; reflexivity.
    + apply IH. reflexivity.
Qed.

(** X20.  The items the converter returns are the one item of its
    fallback, holding the whole text, or they are all headers: no item
    is ever a bullet or bold, since the processing of any line that is
    not a header raises. *)
Theorem converter_items (markdown_text : str) :
  convert_to_structured_content markdown_text = [plain markdown_text]
  \/ Forall (fun item => is_header item = true /\ is_bullet item = false
                         /\ is_bold item = false)
            (convert_to_structured_content markdown_text).
Proof.
  unfold convert_to_structured_content.
  destruct (structured_loop (split_chr nl markdown_text)) as [c|] eqn:E.
  - right. apply structured_loop_headers with (1 := E).
  - left. reflexivity.
Qed.

End ConverterItems.



(** *** The preamble removal, to the character *)

Lemma before_first_none m s : contains m s = false -> before_first m s = s.
Proof.
  induction s as [|c t IH]; [reflexivity|].
  cbn [contains before_first]. intros H.
  apply orb_false_iff in H as [H1 H2]. rewrite H1, (IH H2). reflexivity.
Qed.

Lemma split_aux_skipn m k t : split_aux m k t = split m (skipn k t).
Proof.
  revert t. induction k as [|k IH]; intros t; [reflexivity|].
  destruct t as [|c t]; [reflexivity|]. cbn [split_aux skipn]. apply IH.
Qed.

(** The first piece of a split is what stands before the first
    occurrence of the separator, the other pieces are those of what
    follows it. *)
Lemma split_before_after m s :
  m <> [] -> contains m s = true ->
  split m s = before_first m s :: split m (after_first m s).
Proof.
  intros Hm. induction s as [|c t IH]; intros H.
  - rewrite contains_nil in H by exact Hm. discriminate.
  - rewrite split_step. cbn [before_first after_first].
    destruct (startswith m (c :: t)) eqn:E.
    + f_equal. rewrite split_aux_skipn. f_equal.
      destruct m as [|x m']; [congruence|].
      replace (List.length (x :: m') - 1) with (List.length m')
        by (simpl; lia).
      reflexivity.
    + cbn [contains] in H. rewrite E in H. cbn [orb] in H.
      rewrite (IH H). reflexivity.
Qed.

Lemma split_hd_before m s :
  m <> [] -> exists tl, split m s = before_first m s :: tl.
Proof.
  intros Hm. destruct (contains m s) eqn:E.
  - rewrite split_before_after by assumption. eauto.
  - rewrite split_none, before_first_none by assumption. eauto.
Qed.

Lemma split_second_between m s :
  m <> [] -> contains m s = true ->
  exists tl, split m s = before_first m s :: between m s :: tl.
Proof.
  intros Hm E. rewrite split_before_after by assumption.
  destruct (@split_hd_before m (after_first m s) Hm) as [tl Htl].
  rewrite Htl. eauto.
Qed.

(** What the newest stripper returns, for every text. *)
Lemma remove_prefix_stripped text :
  AdvancedFileGeneratorV2.remove_prefix text = Some (stripped text).
Proof.
  unfold AdvancedFileGeneratorV2.remove_prefix, stripped.
  destruct (contains preamble_short text) eqn:E; [|reflexivity].
  destruct (@split_second_between _ _ preamble_short_not_nil E) as [tl ->].
  cbn [List.length nth_error Nat.ltb Nat.leb]. cbv zeta.
  set (t1 := strip (between preamble_short text)).
  destruct (contains AdvancedFileGeneratorV2.closing_marker t1) eqn:E2.
  - destruct (@split_hd_before _ t1 closing_marker_not_nil) as [tl2 ->].
    cbn [nth_error option_map].
    set (t2 := strip (before_first AdvancedFileGeneratorV2.closing_marker t1)).
    destruct (contains AdvancedFileGeneratorV2.preamble_rest t2) eqn:E3;
      [|reflexivity].
    destruct (@split_second_between _ _ preamble_rest_not_nil E3) as [tl3 ->].
    reflexivity.
  - destruct (contains AdvancedFileGeneratorV2.preamble_rest t1) eqn:E3;
      [|reflexivity].
    destruct (@split_second_between _ _ preamble_rest_not_nil E3) as [tl3 ->].
    reflexivity.
Qed.

(** What the two older strippers return, for every text. *)
Lemma remove_prefix_stripped_older text :
  AdvancedFileGenerator.remove_prefix text = Some (stripped_older text).
Proof.
  unfold AdvancedFileGenerator.remove_prefix, stripped_older.
  destruct (contains preamble_full text) eqn:E.
  - rewrite (contains_full_short _ E).
    destruct (@split_second_between _ _ preamble_full_not_nil E) as [tl ->].
    reflexivity.
  - rewrite (@split_none _ _ preamble_full_not_nil E).
    destruct (contains preamble_short text); reflexivity.
Qed.

(** *** Occurrences *)

Lemma startswith_app_cases p a b :
  startswith p (a ++ b) = true ->
  startswith p a = true
  \/ exists u, u <> [] /\ p = a ++ u /\ startswith u b = true.
Proof.
  revert p. induction a as [|y a IH]; intros p H.
  - destruct p as [|x p]; [left; reflexivity|].
    right. exists (x :: p). repeat apply conj; [discriminate | reflexivity|].
    exact H.
  - destruct p as [|x p]; [left; reflexivity|].
    cbn [app startswith] in *. apply andb_true_iff in H as [Hx H].
    destruct (IH p H) as [H1 | (u & Hu & Hp & Hs)].
    + left. rewrite Hx, H1. reflexivity.
    + right. exists u. apply N.eqb_eq in Hx. subst. auto.
Qed.

Lemma existsb_eqb_false x (a : str) c :
  existsb (N.eqb x) a = false -> In c a -> N.eqb x c = false.
Proof.
  intros H Hin. destruct (N.eqb x c) eqn:E; [|reflexivity].
  assert (existsb (N.eqb x) a = true)
    by (apply existsb_exists; exists c; auto).
  congruence.
Qed.

(** An occurrence of [m] cannot begin in a string that holds nowhere the
    first character of [m]. *)
Lemma contains_app_head_free m a b :
  head_free m a -> contains m (a ++ b) = contains m b.
Proof.
  destruct m as [|x m]; [contradiction|]. cbn [head_free].
  induction a as [|c a IH]; intros H; [reflexivity|].
  cbn [app contains startswith].
  cbn [existsb] in H. apply orb_false_iff in H as [Hc Ha].
  rewrite Hc. cbn [andb orb]. apply IH. exact Ha.
Qed.

Lemma before_first_app_head_free m a b :
  head_free m a -> before_first m (a ++ b) = a ++ before_first m b.
Proof.
  destruct m as [|x m]; [contradiction|]. cbn [head_free].
  induction a as [|c a IH]; intros H; [reflexivity|].
  cbn [app before_first startswith].
  cbn [existsb] in H. apply orb_false_iff in H as [Hc Ha].
  rewrite Hc. cbn [andb]. rewrite (IH Ha). reflexivity.
Qed.

Lemma after_first_head m post :
  m <> [] -> after_first m (m ++ post) = post.
Proof.
  intros Hm. destruct m as [|x m]; [congruence|].
  change ((x :: m) ++ post) with (x :: (m ++ post)).
  cbn [after_first]. change (x :: (m ++ post)) with ((x :: m) ++ post).
  rewrite startswith_app. apply skipn_app_length.
Qed.

Lemma before_first_head m post : before_first m (m ++ post) = [].
Proof.
  destruct (m ++ post) eqn:E; [reflexivity|].
  cbn [before_first]. rewrite <- E, startswith_app. reflexivity.
Qed.

Lemma contains_head m post : contains m (m ++ post) = true.
Proof.
  destruct (m ++ post) eqn:E; cbn [contains]; rewrite <- E, startswith_app;
    reflexivity.
Qed.

(** Where the first occurrence of an unbordered [m] is. *)
Lemma first_occurrence m pre post :
  unbordered m -> contains m pre = false ->
  contains m (pre ++ m ++ post) = true
  /\ before_first m (pre ++ m ++ post) = pre
  /\ after_first m (pre ++ m ++ post) = post.
Proof.
  intros Hu. destruct m as [|x m]; [contradiction|].
  unfold unbordered, head_free in Hu. cbn [tl] in Hu.
  induction pre as [|c pre IH]; intros Hc.
  - change ([] ++ (x :: m) ++ post) with ((x :: m) ++ post).
    rewrite contains_head, before_first_head, after_first_head
      by discriminate.
    auto.
  - cbn [contains] in Hc. apply orb_false_iff in Hc as [Hs Hc].
    destruct (IH Hc) as (I1 & I2 & I3).
    assert (E : startswith (x :: m) ((c :: pre) ++ (x :: m) ++ post) = false).
    { destruct (startswith (x :: m) ((c :: pre) ++ (x :: m) ++ post)) eqn:E;
        [|reflexivity].
      apply startswith_app_cases in E as [E | (u & Hne & Hp & Hsu)];
        [congruence|].
      destruct u as [|z u]; [congruence|].
      change ((x :: m) ++ post) with (x :: (m ++ post)) in Hsu.
      cbn [startswith] in Hsu. apply andb_true_iff in Hsu as [Hz _].
      injection Hp as Hx Hm.
      assert (Hin : In z m) by (rewrite Hm; apply in_or_app; right; left;
                                reflexivity).
      apply N.eqb_eq in Hz. subst z.
      pose proof (@existsb_eqb_false _ _ _ Hu Hin) as F.
      rewrite N.eqb_refl in F. discriminate. }
    change ((c :: pre) ++ (x :: m) ++ post)
      with (c :: (pre ++ (x :: m) ++ post)) in *.
    cbn [contains before_first after_first].
    rewrite E. cbn [orb]. rewrite I1, I2, I3. auto.
Qed.

Lemma before_first_prefix m s : exists rest, s = before_first m s ++ rest.
Proof.
  induction s as [|c t [rest IH]]; [exists []; reflexivity|].
  cbn [before_first]. destruct (startswith m (c :: t)).
  - exists (c :: t). reflexivity.
  - exists rest. cbn [app]. f_equal. exact IH.
Qed.

(** *** Trimming *)

Lemma dropwhile_app f (a b : str) :
  dropwhile f (a ++ b)
  = if forallb f a then dropwhile f b else dropwhile f a ++ b.
Proof.
  induction a as [|c a IH]; [reflexivity|].
  cbn [app dropwhile forallb]. destruct (f c); [exact IH | reflexivity].
Qed.

Lemma forallb_rev f (a : str) : forallb f (rev a) = forallb f a.
Proof.
  induction a as [|c a IH]; [reflexivity|].
  cbn [rev forallb]. rewrite forallb_app, IH. cbn [forallb].
  rewrite andb_true_r. apply andb_comm.
Qed.

Lemma rstrip_app_solid a b :
  (exists c r, rev a = c :: r /\ is_space c = false) ->
  rstrip (a ++ b) = a ++ rstrip b.
Proof.
  intros (c & r & Hr & Hc). unfold rstrip.
  rewrite rev_app_distr, dropwhile_app.
  destruct (forallb is_space (rev b)) eqn:E.
  - rewrite Hr. cbn [dropwhile]. rewrite Hc, <- Hr, rev_involutive.
    assert (E' : dropwhile is_space (rev b) = [])
      by (apply dropwhile_nil_iff; exact E).
    rewrite E'. cbn [rev]. rewrite app_nil_r. reflexivity.
  - rewrite rev_app_distr, rev_involutive. reflexivity.
Qed.

Lemma lstrip_solid a :
  (exists c r, a = c :: r /\ is_space c = false) -> lstrip a = a.
Proof.
  intros (c & r & -> & Hc). unfold lstrip. cbn [dropwhile].
  rewrite Hc. reflexivity.
Qed.

Lemma strip_app_solid a b : solid_word a -> strip (a ++ b) = a ++ rstrip b.
Proof.
  intros [(c & r & Ha & Hc) Hl]. unfold strip.
  rewrite (@lstrip_solid (a ++ b)).
  - apply rstrip_app_solid. exact Hl.
  - exists c, (r ++ b). rewrite Ha. auto.
Qed.

Lemma rstrip_cons_space c t :
  is_space c = true ->
  rstrip (c :: t) = if forallb is_space t then [] else c :: rstrip t.
Proof.
  intros Hc. unfold rstrip. cbn [rev]. rewrite dropwhile_app, forallb_rev.
  destruct (forallb is_space t).
  - cbn [dropwhile]. rewrite Hc. reflexivity.
  - rewrite rev_app_distr. reflexivity.
Qed.

Lemma lstrip_rstrip x : lstrip (rstrip x) = rstrip (lstrip x).
Proof.
  unfold lstrip. induction x as [|c t IH]; [reflexivity|].
  cbn [dropwhile]. destruct (is_space c) eqn:Hc.
  - rewrite rstrip_cons_space by exact Hc.
    destruct (forallb is_space t) eqn:E.
    + assert (E' : dropwhile is_space t = [])
        by (apply dropwhile_nil_iff; exact E).
      rewrite E'. reflexivity.
    + cbn [dropwhile]. rewrite Hc. exact IH.
  - rewrite rstrip_cons by exact Hc. cbn [dropwhile]. rewrite Hc.
    reflexivity.
Qed.

Lemma strip_rstrip x : strip (rstrip x) = strip x.
Proof.
  unfold strip. rewrite lstrip_rstrip, rstrip_idem. reflexivity.
Qed.

Lemma strip_lstrip x : strip (lstrip x) = strip x.
Proof. unfold strip, lstrip. rewrite dropwhile_idem. reflexivity. Qed.

Lemma rstrip_infix x : infix (rstrip x) x.
Proof.
  unfold rstrip.
  destruct (dropwhile_suffix is_space (rev x)) as [a Ha].
  apply (f_equal (@rev char)) in Ha.
  rewrite rev_involutive, rev_app_distr in Ha.
  exists [], (rev a). exact Ha.
Qed.

Lemma lstrip_infix x : infix (lstrip x) x.
Proof.
  unfold lstrip. destruct (dropwhile_suffix is_space x) as [a Ha].
  exists a, []. rewrite app_nil_r. exact Ha.
Qed.

Lemma lstrip_app_solid a b :
  (exists c r, b = c :: r /\ is_space c = false) ->
  lstrip (a ++ b) = lstrip a ++ b.
Proof.
  intros Hb. unfold lstrip. rewrite dropwhile_app.
  destruct (forallb is_space a) eqn:E; [|reflexivity].
  assert (E' : dropwhile is_space a = [])
    by (apply dropwhile_nil_iff; exact E).
  rewrite E'. apply (lstrip_solid Hb).
Qed.

(** *** The markers *)

Lemma preamble_full_split :
  preamble_full
  = preamble_short ++ space :: AdvancedFileGeneratorV2.preamble_rest.
Proof. vm_compute. reflexivity. Qed.

Lemma preamble_short_unbordered : unbordered preamble_short.
Proof. vm_compute. reflexivity. Qed.

Lemma preamble_full_unbordered : unbordered preamble_full.
Proof. vm_compute. reflexivity. Qed.

Lemma closing_marker_unbordered :
  unbordered AdvancedFileGeneratorV2.closing_marker.
Proof. vm_compute. reflexivity. Qed.

Lemma preamble_short_head_free :
  head_free preamble_short (space :: AdvancedFileGeneratorV2.preamble_rest).
Proof. vm_compute. reflexivity. Qed.

Lemma closing_marker_head_free :
  head_free AdvancedFileGeneratorV2.closing_marker
            AdvancedFileGeneratorV2.preamble_rest.
Proof. vm_compute. reflexivity. Qed.

Lemma preamble_rest_solid : solid_word AdvancedFileGeneratorV2.preamble_rest.
Proof.
  split; eexists; eexists; (split; [vm_compute; reflexivity | reflexivity]).
Qed.

Lemma closing_marker_solid :
  solid_word AdvancedFileGeneratorV2.closing_marker.
Proof.
  split; eexists; eexists; (split; [vm_compute; reflexivity | reflexivity]).
Qed.

Lemma strip_space_cons c x : is_space c = true -> strip (c :: x) = strip x.
Proof. intros H. unfold strip, lstrip. cbn [dropwhile]. rewrite H. reflexivity. Qed.

Lemma infix_app_l (a b : str) : infix a (a ++ b).
Proof. exists [], b. reflexivity. Qed.

(** What stands between the marker and the end of the text, when the
    marker is there once. *)
Lemma between_once m pre post :
  unbordered m -> contains m pre = false -> contains m post = false ->
  contains m (pre ++ m ++ post) = true /\ between m (pre ++ m ++ post) = post.
Proof.
  intros Hu Hpre Hpost.
  destruct (@first_occurrence m pre post Hu Hpre) as (H1 & _ & H3).
  split; [exact H1|]. unfold between. rewrite H3.
  apply before_first_none. exact Hpost.
Qed.

Section Tail.
Variables C R : str.
Hypothesis C_unbordered : unbordered C.
Hypothesis C_solid : solid_word C.
Hypothesis C_free : head_free C R.
Hypothesis R_solid : solid_word R.

Let R_not_nil : R <> [].
Proof. destruct R_solid as [(c & q & -> & _) _]. discriminate. Qed.

(** The last two steps of the newest stripper, with [C] for the
    closing marker and [R] for the rest of the sentence of the preamble,
    on a text [r ++ rstrip x]: [r] is nothing, and [x] begins with no
    white space, or [r] is [R]. *)
Lemma stripped_tail (r x : str) :
  (r = [] /\ lstrip x = x) \/ r = R ->
  contains R x = false ->
  (contains C x = false ->
   (let t := r ++ rstrip x in
    let t := if contains C t then strip (before_first C t) else t in
    if contains R t then strip (between R t) else t)
   = strip x)
  /\ (forall x1 b2,
         x = x1 ++ C ++ b2 ->
         contains C x1 = false ->
         (let t := r ++ rstrip x in
          let t := if contains C t then strip (before_first C t) else t in
          if contains R t then strip (between R t) else t)
         = strip x1).
Proof.
  intros Hr HR. cbv zeta.
  assert (Hfree : forall y, contains C (r ++ y) = contains C y).
  { intros y. destruct Hr as [[-> _] | ->]; [reflexivity|].
    apply contains_app_head_free. exact C_free. }
  split.
  - intros HC.
    assert (HC' : contains C (rstrip x) = false).
    { apply (@contains_infix _ _ x); [|exact HC]. apply rstrip_infix. }
    assert (HR' : contains R (rstrip x) = false).
    { apply (@contains_infix _ _ x); [|exact HR]. apply rstrip_infix. }
    rewrite Hfree, HC'.
    destruct Hr as [[-> Hx] | ->].
    + cbn [app]. rewrite HR'. unfold strip. rewrite Hx. reflexivity.
    + rewrite contains_head. unfold between.
      rewrite after_first_head by exact R_not_nil.
      rewrite before_first_none by exact HR'. apply strip_rstrip.
  - intros x1 b2 -> Hx1.
    assert (E1 : rstrip (x1 ++ C ++ b2) = x1 ++ C ++ rstrip b2).
    { rewrite app_assoc, rstrip_app_solid, <- app_assoc; [reflexivity|].
      destruct C_solid as [_ (c & q & Hq & Hc)].
      exists c, (q ++ rev x1). rewrite rev_app_distr, Hq. auto. }
    rewrite E1.
    assert (Hrl : contains C (r ++ x1) = false)
      by (rewrite Hfree; exact Hx1).
    rewrite app_assoc.
    destruct (@first_occurrence C (r ++ x1) (rstrip b2)
                C_unbordered Hrl) as (F1 & F2 & _).
    rewrite F1, F2.
    assert (HR1 : contains R x1 = false).
    { apply (@contains_infix _ _ (x1 ++ C ++ b2)); [|exact HR].
      apply infix_app_l. }
    assert (HRl : contains R (strip x1) = false).
    { apply (@contains_infix _ _ x1); [|exact HR1]. apply strip_infix. }
    destruct Hr as [[-> _] | ->].
    + cbn [app]. rewrite HRl. reflexivity.
    + rewrite (@strip_app_solid _ _ R_solid).
      rewrite contains_head. unfold between.
      rewrite after_first_head by exact R_not_nil.
      rewrite before_first_none.
      * apply strip_rstrip.
      * apply (@contains_infix _ _ x1); [apply rstrip_infix | exact HR1].
Qed.

End Tail.

Section Stripped.
Import AdvancedFileGeneratorV2.

(** The newest stripper on a text with one preamble: [r] is nothing,
    for the short phrase alone, or the rest of the sentence behind a
    space. *)
Lemma stripped_once (r pre body : str) :
  r = [] \/ r = space :: preamble_rest ->
  contains preamble_short pre = false ->
  contains preamble_short body = false ->
  contains preamble_rest body = false ->
  (contains closing_marker body = false ->
   stripped (pre ++ preamble_short ++ r ++ body) = strip body)
  /\ (forall b1 b2,
         body = b1 ++ closing_marker ++ b2 ->
         contains closing_marker b1 = false ->
         stripped (pre ++ preamble_short ++ r ++ body) = strip b1).
Proof.
  intros Hr Hpre Hbody HR.
  assert (Hrb : contains preamble_short (r ++ body) = false).
  { destruct Hr as [-> | ->]; [exact Hbody|].
    rewrite contains_app_head_free; [exact Hbody|].
    exact preamble_short_head_free. }
  destruct (@between_once preamble_short pre (r ++ body)
              preamble_short_unbordered Hpre Hrb) as [E1 E2].
  unfold stripped. rewrite E1, E2. clear E1 E2 Hrb.
  destruct Hr as [-> | ->].
  - cbn [app].
    assert (Hl : contains preamble_rest (lstrip body) = false).
    { apply (@contains_infix _ _ body); [apply lstrip_infix | exact HR]. }
    destruct (@stripped_tail closing_marker preamble_rest
                closing_marker_unbordered closing_marker_solid
                closing_marker_head_free preamble_rest_solid
                [] (lstrip body)
                (or_introl (conj eq_refl (dropwhile_idem is_space body))) Hl)
      as [T1 T2].
    cbn [app] in T1, T2. change (rstrip (lstrip body)) with (strip body) in *.
    split.
    + intros HC. rewrite strip_lstrip in T1. apply T1.
      apply (@contains_infix _ _ body); [apply lstrip_infix | exact HC].
    + intros b1 b2 Hb Hb1. rewrite <- (strip_lstrip b1).
      apply (T2 (lstrip b1) b2).
      * rewrite Hb. apply lstrip_app_solid.
        destruct closing_marker_solid as [(c & q & Hq & Hc) _].
        exists c, (q ++ b2). rewrite Hq. auto.
      * apply (@contains_infix _ _ b1); [apply lstrip_infix | exact Hb1].
  - rewrite <- app_comm_cons.
    rewrite strip_space_cons by reflexivity.
    rewrite (@strip_app_solid _ _ preamble_rest_solid).
    destruct (@stripped_tail closing_marker preamble_rest
                closing_marker_unbordered closing_marker_solid
                closing_marker_head_free preamble_rest_solid
                preamble_rest body (or_intror eq_refl) HR)
      as [T1 T2].
    split; [exact T1 | exact T2].
Qed.

End Stripped.

Lemma stripped_none text :
  contains preamble_short text = false -> stripped text = text.
Proof. intros H. unfold stripped. rewrite H. reflexivity. Qed.

Lemma stripped_older_none text :
  contains preamble_full text = false -> stripped_older text = text.
Proof. intros H. unfold stripped_older. rewrite H. reflexivity. Qed.

Lemma stripped_older_once pre body :
  contains preamble_full pre = false ->
  contains preamble_full body = false ->
  stripped_older (pre ++ preamble_full ++ body) = strip body.
Proof.
  intros Hpre Hbody.
  destruct (@between_once preamble_full pre body
              preamble_full_unbordered Hpre Hbody) as [E1 E2].
  unfold stripped_older. rewrite E1, E2. reflexivity.
Qed.

(** The stripper of the markdown converter is that of the older
    generator, word for word. *)
Lemma remove_prefix_stripped_converter text :
  MarkdownConverter.remove_prefix text = Some (stripped_older text).
Proof. exact (remove_prefix_stripped_older text). Qed.

(** C8.  None of the three strippers ever raises, and each returns a
    text that is pinned down by the occurrences of its markers.  A text
    without the short phrase of the preamble comes back as it is.  The
    newest stripper, on a text with one preamble, the short phrase alone
    or the full sentence, returns what follows it, trimmed, and cut
    before the closing marker when there is one.  The two older
    strippers cut at the full sentence only: what follows it comes back
    trimmed, closing marker included, and a text with the short phrase
    but not the full sentence comes back as it is. *)
Theorem preamble_removed :
  (forall text,
      AdvancedFileGeneratorV2.remove_prefix text = Some (stripped text)
      /\ AdvancedFileGenerator.remove_prefix text
         = Some (stripped_older text)
      /\ MarkdownConverter.remove_prefix text = Some (stripped_older text))
  /\ (forall text,
         contains preamble_short text = false ->
         AdvancedFileGeneratorV2.remove_prefix text = Some text
         /\ AdvancedFileGenerator.remove_prefix text = Some text
         /\ MarkdownConverter.remove_prefix text = Some text)
  /\ (forall pre body,
         contains preamble_short pre = false ->
         contains preamble_short body = false ->
         contains AdvancedFileGeneratorV2.preamble_rest body = false ->
         (contains AdvancedFileGeneratorV2.closing_marker body = false ->
          AdvancedFileGeneratorV2.remove_prefix
            (pre ++ preamble_short ++ body) = Some (strip body)
          /\ AdvancedFileGeneratorV2.remove_prefix
               (pre ++ preamble_full ++ body) = Some (strip body))
         /\ (forall b1 b2,
                body = b1 ++ AdvancedFileGeneratorV2.closing_marker ++ b2 ->
                contains AdvancedFileGeneratorV2.closing_marker b1 = false ->
                AdvancedFileGeneratorV2.remove_prefix
                  (pre ++ preamble_short ++ body) = Some (strip b1)
                /\ AdvancedFileGeneratorV2.remove_prefix
                     (pre ++ preamble_full ++ body) = Some (strip b1)))
  /\ (forall pre body,
         contains preamble_full pre = false ->
         contains preamble_full body = false ->
         AdvancedFileGenerator.remove_prefix (pre ++ preamble_full ++ body)
         = Some (strip body)
         /\ MarkdownConverter.remove_prefix (pre ++ preamble_full ++ body)
            = Some (strip body))
  /\ (forall text,
         contains preamble_full text = false ->
         AdvancedFileGenerator.remove_prefix text = Some text
         /\ MarkdownConverter.remove_prefix text = Some text).
Proof.
  apply conj; [|apply conj; [|apply conj; [|apply conj]]].
  - intros text. repeat apply conj.
    + apply remove_prefix_stripped.
    + apply remove_prefix_stripped_older.
    + apply remove_prefix_stripped_converter.
  - intros text H.
    assert (F : contains preamble_full text = false).
    { destruct (contains preamble_full text) eqn:E; [|reflexivity].
      rewrite (contains_full_short _ E) in H. discriminate. }
    repeat apply conj.
    + rewrite remove_prefix_stripped, stripped_none by assumption.
      reflexivity.
    + rewrite remove_prefix_stripped_older, stripped_older_none
        by assumption.
      reflexivity.
    + rewrite remove_prefix_stripped_converter, stripped_older_none
        by assumption.
      reflexivity.
  - intros pre body H H0 H1.
    rewrite !remove_prefix_stripped, preamble_full_split, <- app_assoc.
    destruct (@stripped_once [] pre body (or_introl eq_refl) H H0 H1)
      as [S1 S2].
    destruct (@stripped_once (space :: AdvancedFileGeneratorV2.preamble_rest)
                pre body (or_intror eq_refl) H H0 H1) as [F1 F2].
    cbn [app] in S1, S2. apply conj.
    + intros HC. rewrite (S1 HC), (F1 HC). auto.
    + intros b1 b2 Hb Hb1. rewrite (S2 b1 b2 Hb Hb1), (F2 b1 b2 Hb Hb1). auto.
  - intros pre body H H0. apply conj.
    + rewrite remove_prefix_stripped_older, stripped_older_once
        by assumption.
      reflexivity.
    + rewrite remove_prefix_stripped_converter, stripped_older_once
        by assumption.
      reflexivity.
  - intros text H. apply conj.
    + rewrite remove_prefix_stripped_older, stripped_older_none
        by assumption.
      reflexivity.
    + rewrite remove_prefix_stripped_converter, stripped_older_none
        by assumption.
      reflexivity.
Qed.

(** Witness of C8: a plain text; an answer with the full sentence of
    the preamble, without and with the closing marker; the same for the
    older strippers; and for them a text with the short phrase alone. *)
Lemma preamble_removed_witness :
  AdvancedFileGeneratorV2.remove_prefix (py "Dr. Jane Doe")
  = Some (py "Dr. Jane Doe")
  /\ AdvancedFileGeneratorV2.remove_prefix
       (py "Sure. " ++ preamble_full ++ py "\nDr. Jane Doe\n")
     = Some (strip (py "\nDr. Jane Doe\n"))
  /\ AdvancedFileGeneratorV2.remove_prefix
       (py "Sure. " ++ preamble_full
        ++ py "\nDr. Jane Doe\n" ++ AdvancedFileGeneratorV2.closing_marker
        ++ py ". Good luck!")
     = Some (strip (py "\nDr. Jane Doe\n"))
  /\ AdvancedFileGenerator.remove_prefix
       (py "Sure. " ++ preamble_full ++ py "\nDr. Jane Doe\n")
     = Some (strip (py "\nDr. Jane Doe\n"))
  /\ AdvancedFileGenerator.remove_prefix
       (py "Here is the final, document-ready content:\nDr. Jane Doe")
     = Some (py "Here is the final, document-ready content:\nDr. Jane Doe").
Proof.
  destruct preamble_removed as (_ & H2 & H3 & H4 & H5).
  repeat apply conj.
  - apply (H2 (py "Dr. Jane Doe")). vm_compute. reflexivity.
  - refine (proj2 (proj1 (H3 (py "Sure. ") (py "\nDr. Jane Doe\n")
                             _ _ _) _));
      vm_compute; reflexivity.
  - refine (proj2 (proj2 (H3 (py "Sure. ")
                             (py "\nDr. Jane Doe\n"
                              ++ AdvancedFileGeneratorV2.closing_marker
                              ++ py ". Good luck!") _ _ _)
                         (py "\nDr. Jane Doe\n") (py ". Good luck!") _ _));
      vm_compute; reflexivity.
  - refine (proj1 (H4 (py "Sure. ") (py "\nDr. Jane Doe\n") _ _));
      vm_compute; reflexivity.
  - refine (proj1 (H5 _ _)). vm_compute. reflexivity.
Defined.

(** Counterexample to C8 as stated.  A text with the phrase the older
    strippers look for, but without the rest of the sentence, comes back
    from them whole, marker and all; they leave the closing marker and
    what follows it in the text; and the newest stripper, on a text with
    the phrase twice, returns only what stands between the two, not what
    follows the marker. *)
Lemma preamble_markers_left :
  (let text := py "Here is the final, document-ready content:\nDr. Jane Doe" in
   contains preamble_short text = true
   /\ AdvancedFileGenerator.remove_prefix text = Some text
   /\ MarkdownConverter.remove_prefix text = Some text)
  /\ (let text :=
        preamble_full
        ++ py "\nDr. Jane Doe\nThis content is now perfectly structured." in
      AdvancedFileGenerator.remove_prefix text
      = Some (py "Dr. Jane Doe\nThis content is now perfectly structured.")
      /\ MarkdownConverter.remove_prefix text
         = Some (py "Dr. Jane Doe\nThis content is now perfectly structured."))
  /\ AdvancedFileGeneratorV2.remove_prefix
       (py "Here is the final, document-ready content: A\nHere is the final, document-ready content: B")
     = Some (py ": A").
Proof. cbv zeta. repeat apply conj; vm_compute; reflexivity. Qed.

(** *** The examples of the repair *)

Section Examples.
Context {U : Unicode} {W : Re.WordChars}.
Import TextProcessor.


End Examples.
